(** * cnn-visualizer: the training controller and the CAM engine

    A shallow embedding of the algorithmic core of the repository:

    - [Mnist]    : [getBatch] of src/utils/mnistLoader.ts and the batch count
                   computed at the head of [train];
    - [Cam]      : the heat-map computation of [computeCAM] (CAMViewer) and the
                   [hotColor] colour map of utils/visualizationUtils;
    - [Train]    : the state of the hook [useModel] of hooks/useModel.ts, the
                   epoch / batch loop of [train] as a machine that runs from
                   one [await] to the next, the commands [stopTraining] and
                   [pauseTraining], and the commands that replace the model
                   ([initModel], [loadModel], [loadPretrained]);
    - [Demo]     : a small instance on which the loop is run;
    - [Loader]   : [loadSampleMNIST] of src/utils/mnistLoader.ts and the
                   batches of one epoch;
    - [Viz]      : [drawToCanvas], [tensorToImageData] and [viridisColor] of
                   utils/visualizationUtils, the canvases of [computeCAM]
                   and the canvases of FeatureMapViewer;
    - [Canvas]   : [getImageTensor] and the placement of an uploaded image
                   (DrawingCanvas);
    - [App]      : the predicted class (App) and the progress bar
                   (TrainingPanel);
    - [Watch]    : predicates on the states of the training loop;
    - [Panel]    : [handleStartTraining] (TrainingPanel);
    - [Sample]   : [drawLine] of scripts/generateSampleData.

    JavaScript numbers that hold counts and indices are modelled by [Z] or
    [nat]; numbers that hold measurements (activations, colour intensities)
    are modelled by exact rationals [Q]; the two quotients of the
    upscaling of the heat map, whose rounding decides which cell is read,
    are rounded as doubles; the losses and accuracies that the training
    loop only adds and divides are kept abstract. *)

From Stdlib Require Import ZArith QArith Qround Qminmax List Lia Lqa Bool Arith.
Import ListNotations.

Set Implicit Arguments.

Local Open Scope Z_scope.

(* ------------------------------------------------------------------------- *)
(** ** The JavaScript arithmetic the code relies on *)

Module JS.

(** [Math.ceil] on a rational. *)
Definition Math_ceil (q : Q) : Z := Qceiling q.

(** [Math.round] rounds to the nearest integer, halves upwards. *)
Definition Math_round (q : Q) : Z := Qfloor (q + (1 # 2))%Q.

(** [a % b] truncates towards zero; it agrees with [Z.rem] for [b <> 0]. *)
Definition rem (a b : Z) : Z := Z.rem a b.

(** [a || b] on numbers: [a] unless it is falsy (zero). *)
Definition or_else (a b : Q) : Q := if Qeq_bool a 0%Q then b else a.

(** Division of two numbers gives the double nearest to the quotient: the
    quotient is rounded to 53 significant bits, a tie going to the even
    significand.  [pow2 e] is the power of two of exponent [e],
    [exponent q] the exponent of the leading bit of a positive [q].
    Overflow, subnormal numbers and division by zero are left out; the
    quotients taken with [fdiv] are far from all three. *)
Definition pow2 (e : Z) : Q :=
  if (0 <=? e)%Z then inject_Z (2 ^ e) else (1 / inject_Z (2 ^ (- e)))%Q.

Definition roundHalfEven (q : Q) : Z :=
  let f := Qfloor q in
  match ((q - inject_Z f) ?= (1 # 2))%Q with
  | Lt => f
  | Gt => (f + 1)%Z
  | Eq => if Z.even f then f else (f + 1)%Z
  end.

Definition exponent (q : Q) : Z :=
  let k := (Z.log2 (Qnum q) - Z.log2 (Zpos (Qden q)))%Z in
  if Qle_bool (pow2 k) q then k else (k - 1)%Z.

Definition nearest (q : Q) : Q :=
  let e := (exponent q - 52)%Z in
  (inject_Z (roundHalfEven (q / pow2 e)) * pow2 e)%Q.

Definition toDouble (q : Q) : Q :=
  match Qnum q with
  | Z0 => 0%Q
  | Zpos _ => nearest q
  | Zneg _ => (- nearest (- q))%Q
  end.

Definition fdiv (a b : Q) : Q := toDouble (a / b).

End JS.

(* ------------------------------------------------------------------------- *)
(** ** utils/mnistLoader.ts *)

Module Mnist.

(** [tensor.slice(begin, size)] along the first axis of a tensor given by
    its rows.  A size of [-1] takes every remaining row; a slice that does
    not fit the tensor throws, which is [None] here. *)
Definition tf_slice {A : Type} (t : list A) (begin size : Z) : option (list A) :=
  let n := Z.of_nat (length t) in
  let size' := if size =? -1 then n - begin else size in
  if (0 <=? begin) && (0 <=? size') && (begin + size' <=? n)
  then Some (firstn (Z.to_nat size') (skipn (Z.to_nat begin) t))
  else None.

Definition startIndex (numExamples batchSize batchIndex : Z) : Z :=
  JS.rem (batchIndex * batchSize) numExamples.

Definition endIndex (numExamples batchSize batchIndex : Z) : Z :=
  Z.min (startIndex numExamples batchSize batchIndex + batchSize) numExamples.

Record Batch (Img Lbl : Type) : Type := mkBatch
  { images : list Img;
    labels : list Lbl }.

(** [getBatch(images, labels, batchSize, batchIndex)]. *)
Definition getBatch {Img Lbl : Type} (imgs : list Img) (lbls : list Lbl)
    (batchSize batchIndex : Z) : option (Batch Img Lbl) :=
  let numExamples := Z.of_nat (length imgs) in
  let s := startIndex numExamples batchSize batchIndex in
  let e := endIndex numExamples batchSize batchIndex in
  match tf_slice imgs s (e - s), tf_slice lbls s (e - s) with
  | Some i, Some l => Some (mkBatch i l)
  | _, _ => None
  end.

(** [const numBatches = Math.ceil(numTrain / batchSize)] (train, line 125). *)
Definition numBatches (numTrain batchSize : Z) : Z :=
  JS.Math_ceil (inject_Z numTrain / inject_Z batchSize)%Q.

End Mnist.

(* ------------------------------------------------------------------------- *)
(** ** components/CAMViewer and utils/visualizationUtils *)

Module Cam.

Local Open Scope Q_scope.

(** [layer.getClassName()] for the layers that [createModel] stacks. *)
Inductive LayerClass : Type :=
| Conv2D | MaxPooling2D | Flatten | Dense | Dropout.

(** [convOutput.arraySync()[0]]: rows, columns, filters. *)
Definition Tensor3 : Type := list (list (list Q)).

(** A layers model as [computeCAM] uses it: the class of every layer and,
    for a layer index, the output of the sub-model that ends at that layer
    ([tf.model({inputs, outputs: layer.output}).predict(x).arraySync()[0]]). *)
Record LayersModel (Input : Type) : Type := mkModel
  { layers : list LayerClass;
    layerOutput : nat -> Input -> Tensor3 }.

(** The search loop [for (let i = layers.length - 1; i >= 0; i--)]: the
    indices [n-1], ..., [0] are inspected in that order and the first
    [Conv2D] ends the loop. *)
Fixpoint scanDown (ls : list LayerClass) (n : nat) : option nat :=
  match n with
  | O => None
  | S i =>
      match nth_error ls i with
      | Some Conv2D => Some i
      | _ => scanDown ls i
      end
  end.

Definition lastConvLayer (ls : list LayerClass) : option nat :=
  scanDown ls (length ls).

Definition convHeight (d : Tensor3) : nat := length d.
Definition convWidth (d : Tensor3) : nat := length (nth 0 d []).
Definition numFilters (d : Tensor3) : nat := length (nth 0 (nth 0 d []) []).

(** [convOutputData[y][x][f]]. *)
Definition at3 (d : Tensor3) (y x f : nat) : Q :=
  nth f (nth x (nth y d []) []) 0.

(** The innermost loop: [weightedSum] starts at 0 and adds the filters
    [0], ..., [numFilters - 1] in order. *)
Definition weightedSum (d : Tensor3) (y x : nat) : Q :=
  fold_left (fun acc f => acc + at3 d y x f) (seq 0 (numFilters d)) 0.

(** [cam[y][x] = Math.max(0, weightedSum)] for every cell of the
    [convHeight] by [convWidth] array. *)
Definition reluCam (d : Tensor3) : list (list Q) :=
  map (fun y => map (fun x => Qmax 0 (weightedSum d y x)) (seq 0 (convWidth d)))
      (seq 0 (convHeight d)).

(** [Math.max(...l)] and [Math.min(...l)]; [None] stands for the infinite
    value JavaScript returns on an empty argument list. *)
Definition Math_max (l : list Q) : option Q :=
  match l with
  | [] => None
  | v :: r => Some (fold_left Qmax r v)
  end.

Definition Math_min (l : list Q) : option Q :=
  match l with
  | [] => None
  | v :: r => Some (fold_left Qmin r v)
  end.

(** [const range = maxVal - minVal || 1]. *)
Definition range (maxVal minVal : Q) : Q := JS.or_else (maxVal - minVal) 1.

(** Lines 265-275: min-max normalisation of the map, cell by cell. *)
Definition normalize (cam : list (list Q)) : option (list (list Q)) :=
  let flatCam := concat cam in
  match Math_max flatCam, Math_min flatCam with
  | Some maxVal, Some minVal =>
      Some (map (map (fun v => (v - minVal) / range maxVal minVal)) cam)
  | _, _ => None
  end.

(** [layer.getWeights()] has a first element for the layers that carry a
    kernel; pooling, flattening and dropout layers have no weights. *)
Definition hasWeights (c : LayerClass) : bool :=
  match c with
  | Conv2D | Dense => true
  | MaxPooling2D | Flatten | Dropout => false
  end.

(** [layers.findIndex(l => l.getClassName() === 'Flatten')]; [None] stands
    for the index -1 of a search that finds nothing. *)
Fixpoint findFlatten (ls : list LayerClass) (i : nat) : option nat :=
  match ls with
  | [] => None
  | Flatten :: _ => Some i
  | _ :: rest => findFlatten rest (S i)
  end.

Definition flattenIndex (ls : list LayerClass) : option nat := findFlatten ls O.

(** Line 238: [outputLayer.getWeights()[0].arraySync()] on the layer of
    index [layers.length - 1] succeeds when that layer has weights and
    throws otherwise. *)
Definition denseWeightsRead (ls : list LayerClass) : bool :=
  match nth_error ls (length ls - 1) with
  | Some c => hasWeights c
  | None => false
  end.

(** Lines 241-243: [model.layers[flattenIndex - 1].outputShape] succeeds
    when a [Flatten] layer is found at an index of at least one; at the
    indices -1 and 0 the layer read is [undefined] and the access throws. *)
Definition beforeFlattenRead (ls : list LayerClass) : bool :=
  match flattenIndex ls with
  | Some (S _) => true
  | Some O | None => false
  end.

(** The heat map of [computeCAM] (lines 210-275): [None] when there is no
    convolutional layer (the function warns and returns) and when a
    statement of the [try] block throws, which happens when the last layer
    has no weights, when no [Flatten] layer follows another layer, and when
    the dimensions of an empty activation are read.  The values read from
    the last layer and from the layer before [Flatten] are not used by the
    lines that follow. *)
Definition computeCAM {Input : Type} (m : LayersModel Input) (x : Input)
    : option (list (list Q)) :=
  match lastConvLayer (layers m) with
  | None => None
  | Some i =>
      let d := layerOutput m i x in
      if negb (denseWeightsRead (layers m)) then None
      else if negb (beforeFlattenRead (layers m)) then None
      else
        match convHeight d, convWidth d with
        | O, _ | _, O => None
        | _, _ => normalize (reluCam d)
        end
  end.

Record RGB : Type := mkRGB { red : Z; green : Z; blue : Z }.

(** The colour map written inline in [computeCAM] (lines 316-319). *)
Definition camColor (camVal : Q) : RGB :=
  {| red := Z.min 255 (JS.Math_round (camVal * 3 * 255));
     green := Z.min 255 (JS.Math_round (Qmax 0 (camVal - 0.33) * 3 * 255));
     blue := Z.min 255 (JS.Math_round (Qmax 0 (camVal - 0.67) * 3 * 255)) |}.

(** [hotColor] of visualizationUtils (lines 76-81). *)
Definition hotColor (t : Q) : RGB :=
  {| red := JS.Math_round (255 * Qmin 1 (t * 3));
     green := JS.Math_round (255 * Qmax 0 (Qmin 1 ((t - 0.33) * 3)));
     blue := JS.Math_round (255 * Qmax 0 (Qmin 1 ((t - 0.67) * 3))) |}.

(** The sum over the filters of one cell, as the specification writes it. *)
Definition filterSum (cell : list Q) : Q := fold_right Qplus 0 cell.

(** Rectangular activation of shape [H, W, F]. *)
Definition hasShape (d : Tensor3) (H W F : nat) : Prop :=
  length d = H /\
  Forall (fun row => length row = W /\ Forall (fun cell => length cell = F) row) d.

End Cam.

(* ------------------------------------------------------------------------- *)
(** ** hooks/useModel.ts *)

Module Train.

(** JavaScript runs [train] on one thread: between two [await]s its code is
    not interrupted, and the commands of the interface run only while the
    call is suspended at an [await].  The call is therefore modelled by its
    points of suspension and by the synchronous stretches between them.
    Left out, because nothing the loop decides depends on them: the
    optimizer set by [compileModel], the model summary and name, the
    progress of [loadData], and the optional callbacks [onBatchEnd] and
    [onEpochEnd], which the interface does not pass.  The published history
    [{...history}] shares its arrays with the history of the run; between
    two suspensions the two hold the same sequences. *)

(** The value [model.trainOnBatch] resolves to: a number, or the array
    [[loss, accuracy]] when the model is compiled with one metric. *)
Inductive TrainResult (N : Type) : Type :=
| Scalar (l : N)
| Metrics (l a : N).

(** What the loop takes from its surroundings: the numbers in which losses
    and accuracies are measured, with the three operations the loop applies
    to them, the training rows, and the two model operations it calls.
    [trainOnBatch] changes the weights of the model it is called on. *)
Record Env : Type := mkEnv
  { num : Type;
    zero : num;
    add : num -> num -> num;
    div : num -> num -> num;
    ofNat : nat -> num;
    Img : Type;
    Lbl : Type;
    Weights : Type;
    trainOnBatch : Weights -> Mnist.Batch Img Lbl -> Weights * TrainResult num;
    evaluate : Weights -> list Img -> list Lbl -> num * num }.

Section Loop.

Variable E : Env.

(** A model object is known by its identity; its weights live in a heap. *)
Definition ModelId : Type := nat.

Record MNISTData : Type := mkData
  { trainImages : list (Img E);
    trainLabels : list (Lbl E);
    testImages : list (Img E);
    testLabels : list (Lbl E);
    numTrain : Z;
    numTest : Z }.

Record TrainingHistory : Type := mkHistory
  { loss : list (num E);
    accuracy : list (num E);
    valLoss : list (num E);
    valAccuracy : list (num E) }.

Definition emptyHistory : TrainingHistory := mkHistory [] [] [] [].

Record TrainingProgress : Type := mkProgress
  { p_epoch : nat;
    p_batch : nat;
    p_totalBatches : option Z;
    p_loss : num E;
    p_accuracy : num E }.

Inductive ModelSource : Type := SrcNew | SrcLoaded | SrcPretrained.

(** The [useState] and [useRef] cells of [useModel] that the loop and the
    commands read or write. *)
Record Hook : Type := mkHook
  { model : option ModelId;
    isTraining : bool;
    isPaused : bool;
    trainingProgress : TrainingProgress;
    trainingHistory : TrainingHistory;
    modelSource : option ModelSource;
    trainedEpochs : nat;
    lastValAccuracy : option (num E);
    dataRef : option MNISTData;
    stopTrainingRef : bool;
    pauseTrainingRef : bool }.

(** Where a call of [train] is suspended: one constructor per [await] of
    the function, and two for its ends. *)
Inductive PC : Type :=
| PEpochSleep                         (* line 135 *)
| PBatchSleep                         (* line 147 *)
| PAwaitTrain (res : TrainResult (num E))   (* line 153 *)
| PBatchFrame                         (* line 179 *)
| PAwaitValLoss (v : num E * num E)   (* line 187 *)
| PAwaitValAcc (v : num E * num E)    (* line 188 *)
| PEpochFrame                         (* line 215 *)
| PDone                               (* line 224: [history] returned *)
| PThrew.                             (* the promise is rejected *)

(** The arguments, constants and variables of one call of [train].
    [batchLog] is a history variable: the (loss, accuracy) pairs the
    current epoch has accumulated, oldest first. *)
Record Run : Type := mkRun
  { activeModel : ModelId;
    epochs : nat;
    batchSize : Z;
    data : MNISTData;
    nBatches : Z;
    history : TrainingHistory;
    completedEpochs : nat;
    epoch : nat;
    epochLoss : num E;
    epochAcc : num E;
    batchCount : nat;
    batch : nat;
    batchLog : list (num E * num E);
    pc : PC }.

(** The whole state.  [calls] and [evals] count the invocations of
    [trainOnBatch] and [evaluate]; [epochsOnModel] counts the epochs
    completed on the model the hook currently holds.  The three are
    history variables. *)
Record State : Type := mkState
  { hook : Hook;
    heap : ModelId -> Weights E;
    disposed : ModelId -> bool;
    task : option Run;
    calls : nat;
    evals : nat;
    epochsOnModel : nat }.

(** *** Field updates *)

Definition withPc (r : Run) (p : PC) : Run :=
  mkRun (activeModel r) (epochs r) (batchSize r) (data r) (nBatches r)
        (history r) (completedEpochs r) (epoch r) (epochLoss r) (epochAcc r)
        (batchCount r) (batch r) (batchLog r) p.

Definition withBatch (r : Run) (b : nat) : Run :=
  mkRun (activeModel r) (epochs r) (batchSize r) (data r) (nBatches r)
        (history r) (completedEpochs r) (epoch r) (epochLoss r) (epochAcc r)
        (batchCount r) b (batchLog r) (pc r).

Definition withEpoch (r : Run) (e : nat) : Run :=
  mkRun (activeModel r) (epochs r) (batchSize r) (data r) (nBatches r)
        (history r) (completedEpochs r) e (epochLoss r) (epochAcc r)
        (batchCount r) (batch r) (batchLog r) (pc r).

(** [epochLoss = 0; epochAcc = 0; batchCount = 0] and [batch = 0]. *)
Definition resetEpoch (r : Run) : Run :=
  mkRun (activeModel r) (epochs r) (batchSize r) (data r) (nBatches r)
        (history r) (completedEpochs r) (epoch r) (zero E) (zero E)
        O O [] (pc r).

(** [epochLoss += batchLoss; epochAcc += batchAcc; batchCount++]. *)
Definition accumulate (r : Run) (batchLoss batchAcc : num E) : Run :=
  mkRun (activeModel r) (epochs r) (batchSize r) (data r) (nBatches r)
        (history r) (completedEpochs r) (epoch r)
        (add E (epochLoss r) batchLoss) (add E (epochAcc r) batchAcc)
        (S (batchCount r)) (batch r) (batchLog r ++ [(batchLoss, batchAcc)])
        (pc r).

(** The four [push] calls and [completedEpochs++]. *)
Definition record (r : Run) (avgLoss avgAcc valLoss' valAcc : num E) : Run :=
  mkRun (activeModel r) (epochs r) (batchSize r) (data r) (nBatches r)
        (mkHistory (loss (history r) ++ [avgLoss])
                   (accuracy (history r) ++ [avgAcc])
                   (valLoss (history r) ++ [valLoss'])
                   (valAccuracy (history r) ++ [valAcc]))
        (S (completedEpochs r)) (epoch r) (epochLoss r) (epochAcc r)
        (batchCount r) (batch r) (batchLog r) (pc r).

Definition withHook (s : State) (h : Hook) : State :=
  mkState h (heap s) (disposed s) (task s) (calls s) (evals s) (epochsOnModel s).

Definition withTask (s : State) (t : option Run) : State :=
  mkState (hook s) (heap s) (disposed s) t (calls s) (evals s) (epochsOnModel s).

Definition suspend (s : State) (r : Run) (p : PC) : State :=
  withTask s (Some (withPc r p)).

Definition setRefs (h : Hook) (stop pause : bool) : Hook :=
  mkHook (model h) (isTraining h) (isPaused h) (trainingProgress h)
         (trainingHistory h) (modelSource h) (trainedEpochs h)
         (lastValAccuracy h) (dataRef h) stop pause.

Definition setIsPaused (h : Hook) (b : bool) : Hook :=
  mkHook (model h) (isTraining h) b (trainingProgress h)
         (trainingHistory h) (modelSource h) (trainedEpochs h)
         (lastValAccuracy h) (dataRef h) (stopTrainingRef h)
         (pauseTrainingRef h).

Definition setTrainingProgress (h : Hook) (p : TrainingProgress) : Hook :=
  mkHook (model h) (isTraining h) (isPaused h) p
         (trainingHistory h) (modelSource h) (trainedEpochs h)
         (lastValAccuracy h) (dataRef h) (stopTrainingRef h)
         (pauseTrainingRef h).

Definition setDataRef (h : Hook) (d : MNISTData) : Hook :=
  mkHook (model h) (isTraining h) (isPaused h) (trainingProgress h)
         (trainingHistory h) (modelSource h) (trainedEpochs h)
         (lastValAccuracy h) (Some d) (stopTrainingRef h)
         (pauseTrainingRef h).

(** *** The synchronous stretches of [train], last one first *)

(** Lines 218-224. *)
Definition finish (s : State) (r : Run) : State :=
  let h := hook s in
  suspend
    (withHook s
       (mkHook (model h) false false (trainingProgress h)
               (trainingHistory h) (modelSource h)
               (trainedEpochs h + completedEpochs r)
               (lastValAccuracy h) (dataRef h) (stopTrainingRef h)
               (pauseTrainingRef h)))
    r PDone.

(** Lines 183-187: the check after the batch loop, then [evaluate].  A
    model that was disposed throws. *)
Definition afterBatches (s : State) (r : Run) : State :=
  if stopTrainingRef (hook s) then finish s r
  else if disposed s (activeModel r) then suspend s r PThrew
  else
    let v := evaluate E (heap s (activeModel r))
                      (testImages (data r)) (testLabels (data r)) in
    suspend
      (mkState (hook s) (heap s) (disposed s) (task s) (calls s)
               (S (evals s)) (epochsOnModel s))
      r (PAwaitValLoss v).

(** Lines 149-153: the check after the wait, [getBatch], and the call of
    [trainOnBatch].  The weights change in the heap. *)
Definition batchBody (s : State) (r : Run) : State :=
  if stopTrainingRef (hook s) then afterBatches s r
  else
    match Mnist.getBatch (trainImages (data r)) (trainLabels (data r))
                         (batchSize r) (Z.of_nat (batch r)) with
    | None => suspend s r PThrew
    | Some b =>
        if disposed s (activeModel r) then suspend s r PThrew
        else
          let '(w, res) := trainOnBatch E (heap s (activeModel r)) b in
          suspend
            (mkState (hook s)
                     (fun i => if Nat.eqb i (activeModel r) then w else heap s i)
                     (disposed s) (task s) (S (calls s)) (evals s)
                     (epochsOnModel s))
            r (PAwaitTrain res)
    end.

(** Lines 146-148: one test of the [while] that waits during a pause. *)
Definition batchWait (s : State) (r : Run) : State :=
  if pauseTrainingRef (hook s) && negb (stopTrainingRef (hook s))
  then suspend s r PBatchSleep
  else batchBody s r.

(** Lines 143-144: the loop test and the first check. *)
Definition batchHead (s : State) (r : Run) : State :=
  if Z.of_nat (batch r) <? nBatches r then
    if stopTrainingRef (hook s) then afterBatches s r
    else batchWait s r
  else afterBatches s r.

Definition batchLossOf (res : TrainResult (num E)) : num E :=
  match res with Scalar l => l | Metrics l _ => l end.

Definition batchAccOf (res : TrainResult (num E)) : num E :=
  match res with Scalar _ => zero E | Metrics _ a => a end.

(** Lines 154-180: what follows the resolution of [trainOnBatch]. *)
Definition afterTrain (s : State) (r : Run) (res : TrainResult (num E)) : State :=
  let batchLoss := batchLossOf res in
  let batchAcc := batchAccOf res in
  let r1 := accumulate r batchLoss batchAcc in
  let s1 :=
    withHook s
      (setTrainingProgress (hook s)
         (mkProgress (epoch r + 1) (batch r + 1) (Some (nBatches r))
                     batchLoss batchAcc)) in
  if Nat.eqb (batch r mod 10) 0 then suspend s1 r1 PBatchFrame
  else batchHead s1 (withBatch r1 (S (batch r))).

(** Lines 134-141: one test of the [while] that waits during a pause,
    the check after it, and the start of the epoch. *)
Definition epochWait (s : State) (r : Run) : State :=
  if pauseTrainingRef (hook s) && negb (stopTrainingRef (hook s))
  then suspend s r PEpochSleep
  else if stopTrainingRef (hook s) then finish s r
  else batchHead s (resetEpoch r).

(** Lines 130-131: the loop test and the first check. *)
Definition epochHead (s : State) (r : Run) : State :=
  if Nat.ltb (epoch r) (epochs r) then
    if stopTrainingRef (hook s) then finish s r
    else epochWait s r
  else finish s r.

(** Lines 189-215: the epoch is recorded and published. *)
Definition afterValidation (s : State) (r : Run) (v : num E * num E) : State :=
  let '(valLoss', valAcc) := v in
  let avgLoss := div E (epochLoss r) (ofNat E (batchCount r)) in
  let avgAcc := div E (epochAcc r) (ofNat E (batchCount r)) in
  let r1 := record r avgLoss avgAcc valLoss' valAcc in
  let h := hook s in
  suspend
    (mkState
       (mkHook (model h) (isTraining h) (isPaused h) (trainingProgress h)
               (history r1) (modelSource h) (trainedEpochs h)
               (Some valAcc) (dataRef h) (stopTrainingRef h)
               (pauseTrainingRef h))
       (heap s) (disposed s) (task s) (calls s) (evals s)
       (if match model h with
           | Some m => Nat.eqb m (activeModel r)
           | None => false
           end
        then S (epochsOnModel s) else epochsOnModel s))
    r1 PEpochFrame.

(** Lines 99-131: the call of [train] up to its first [await]. *)
Definition train (s : State) (epochs' : nat) (batchSize' : Z)
    (modelOverride : option ModelId) : State :=
  let activeModel' :=
    match modelOverride with Some m => Some m | None => model (hook s) end in
  match activeModel', dataRef (hook s) with
  | Some m, Some d =>
      let h := hook s in
      let s1 :=
        withHook s
          (mkHook (model h) true false (trainingProgress h)
                  (trainingHistory h) (modelSource h) (trainedEpochs h)
                  (lastValAccuracy h) (dataRef h) false false) in
      epochHead s1
        (mkRun m epochs' batchSize' d
               (Mnist.numBatches (numTrain d) batchSize')
               emptyHistory O O (zero E) (zero E) O O [] PEpochSleep)
  | _, _ => s
  end.

(** A pending [await] resolves and [train] runs to its next one. *)
Definition resume (s : State) : State :=
  match task s with
  | None => s
  | Some r =>
      match pc r with
      | PEpochSleep => epochWait s r
      | PBatchSleep => batchWait s r
      | PAwaitTrain res => afterTrain s r res
      | PBatchFrame => batchHead s (withBatch r (S (batch r)))
      | PAwaitValLoss v => suspend s r (PAwaitValAcc v)
      | PAwaitValAcc v => afterValidation s r v
      | PEpochFrame => epochHead s (withEpoch r (S (epoch r)))
      | PDone => s
      | PThrew => s
      end
  end.

(** *** The commands of the hook *)

(** [stopTraining] and [pauseTraining]. *)
Definition stopTraining (s : State) : State :=
  withHook s (setRefs (hook s) true false).

Definition pauseTraining (s : State) : State :=
  let p := negb (pauseTrainingRef (hook s)) in
  withHook s (setIsPaused (setRefs (hook s) (stopTrainingRef (hook s)) p) p).

(** What [initModel], [loadModel] and [loadPretrained] share: the new
    model becomes the model of the hook and history, epoch counter and
    last validation accuracy are reset.  The effect that watches [model]
    disposes the model that was replaced. *)
Definition install (s : State) (src : ModelSource) (m : ModelId)
    (w : Weights E) : State :=
  let h := hook s in
  mkState
    (mkHook (Some m) (isTraining h) (isPaused h) (trainingProgress h)
            emptyHistory (Some src) O None (dataRef h)
            (stopTrainingRef h) (pauseTrainingRef h))
    (fun i => if Nat.eqb i m then w else heap s i)
    (fun i =>
       if Nat.eqb i m then false
       else match model h with
            | Some old => if Nat.eqb i old then true else disposed s i
            | None => disposed s i
            end)
    (task s) (calls s) (evals s) O.

Definition initModel (s : State) (m : ModelId) (w : Weights E) : State :=
  install s SrcNew m w.

(** [loaded] is what [loadModelFromFiles] resolves to, [None] when it
    throws: the error is logged and thrown again, nothing is set. *)
Definition loadModel (s : State) (loaded : option (ModelId * Weights E)) : State :=
  match loaded with
  | Some (m, w) => install s SrcLoaded m w
  | None => s
  end.

Definition loadPretrained (s : State) (loaded : option (ModelId * Weights E)) : State :=
  match loaded with
  | Some (m, w) => install s SrcPretrained m w
  | None => s
  end.

Definition loadData (s : State) (d : MNISTData) : State :=
  withHook s (setDataRef (hook s) d).

(** *** Events *)

(** Everything that can happen to the hook: a command, or the
    resolution of the [await] at which [train] is suspended. *)
Inductive Event : Type :=
| EStop
| EPause
| EInit (m : ModelId) (w : Weights E)
| ELoad (loaded : option (ModelId * Weights E))
| ELoadPretrained (loaded : option (ModelId * Weights E))
| ELoadData (d : MNISTData)
| ETrain (epochs' : nat) (batchSize' : Z) (modelOverride : option ModelId)
| EResume.

(** No call of [train] is suspended. *)
Definition idle (s : State) : bool :=
  match task s with
  | None => true
  | Some r => match pc r with PDone | PThrew => true | _ => false end
  end.

(** The Start button is rendered only while [isTraining] is false
    (TrainingPanel, line 236): no call of [train] is made while the flag is
    set, and the flag is set as long as a call is suspended. *)
Definition step (e : Event) (s : State) : State :=
  match e with
  | EStop => stopTraining s
  | EPause => pauseTraining s
  | EInit m w => initModel s m w
  | ELoad l => loadModel s l
  | ELoadPretrained l => loadPretrained s l
  | ELoadData d => loadData s d
  | ETrain n b mo => if isTraining (hook s) then s else train s n b mo
  | EResume => resume s
  end.

Definition run (evs : list Event) (s : State) : State :=
  fold_left (fun st e => step e st) evs s.

(** The hook as [useModel] creates it. *)
Definition initial (w0 : Weights E) : State :=
  mkState
    (mkHook None false false (mkProgress O O None (zero E) (zero E))
            emptyHistory None O None None false false)
    (fun _ => w0) (fun _ => false) None O O O.

(** *** Predicates used to state the properties of the loop *)

(** The four sequences of a history all have [n] entries. *)
Definition histLen (h : TrainingHistory) (n : nat) : Prop :=
  length (loss h) = n /\ length (accuracy h) = n
  /\ length (valLoss h) = n /\ length (valAccuracy h) = n.

Definition sameLength (h : TrainingHistory) : Prop :=
  histLen h (length (loss h)).

(** The accumulators of the current epoch are the sums, taken from the
    left and starting at zero, of the values of its batches. *)
Definition sumsOK (r : Run) : Prop :=
  epochLoss r = fold_left (add E) (map fst (batchLog r)) (zero E)
  /\ epochAcc r = fold_left (add E) (map snd (batchLog r)) (zero E)
  /\ batchCount r = length (batchLog r).

(** The call is suspended inside the batch loop of the current epoch or
    at the wait that precedes it: the check of line 183 is still ahead. *)
Definition batchPhase (p : PC) : bool :=
  match p with
  | PEpochSleep | PBatchSleep | PAwaitTrain _ | PBatchFrame => true
  | _ => false
  end.

(** The call is suspended anywhere inside the body of the epoch loop. *)
Definition insideEpoch (p : PC) : bool :=
  match p with
  | PDone | PThrew => false
  | _ => true
  end.

(** The epoch of 1-based number [k] is in progress. *)
Definition epochInProgress (s : State) (k : nat) : Prop :=
  exists r, task s = Some r /\ insideEpoch (pc r) = true /\ S (epoch r) = k.

Definition paused (s : State) : Prop :=
  pauseTrainingRef (hook s) = true /\ stopTrainingRef (hook s) = false.

(** Events that steer a run without starting one or replacing the model. *)
Definition control (e : Event) : bool :=
  match e with
  | EStop | EPause | EResume => true
  | _ => false
  end.

Definition isStop (e : Event) : bool :=
  match e with EStop => true | _ => false end.

Definition isResume (e : Event) : bool :=
  match e with EResume => true | _ => false end.

Definition atPc (s : State) (P : PC -> Prop) : Prop :=
  exists r, task s = Some r /\ P (pc r).

Definition finished (s : State) : Prop := atPc s (fun p => p = PDone).

(** What holds of the variables of [train] at each point of suspension. *)
Definition runInv (r : Run) : Prop :=
  histLen (history r) (completedEpochs r)
  /\ match pc r with
     | PEpochSleep =>
         completedEpochs r = epoch r /\ (epoch r < epochs r)%nat
     | PBatchSleep | PAwaitTrain _ =>
         completedEpochs r = epoch r /\ (epoch r < epochs r)%nat
         /\ sumsOK r /\ batchCount r = batch r
         /\ Z.of_nat (batch r) < nBatches r
     | PBatchFrame =>
         completedEpochs r = epoch r /\ (epoch r < epochs r)%nat
         /\ sumsOK r /\ batchCount r = S (batch r)
         /\ Z.of_nat (batch r) < nBatches r
     | PAwaitValLoss _ | PAwaitValAcc _ =>
         completedEpochs r = epoch r /\ (epoch r < epochs r)%nat
         /\ sumsOK r /\ batchCount r = Z.to_nat (nBatches r)
     | PEpochFrame =>
         completedEpochs r = S (epoch r) /\ (epoch r < epochs r)%nat
     | PDone => (completedEpochs r <= epochs r)%nat
     | PThrew => True
     end.

Definition Inv (s : State) : Prop :=
  sameLength (trainingHistory (hook s))
  /\ match task s with
     | None => True
     | Some r =>
         runInv r
         /\ (pc r = PDone ->
             stopTrainingRef (hook s) = true \/ completedEpochs r = epochs r)
     end.

(** A data set whose row counts agree with its [numTrain]. *)
Definition wellFormed (d : MNISTData) : Prop :=
  numTrain d = Z.of_nat (length (trainImages d))
  /\ length (trainLabels d) = length (trainImages d).

(** What the batch loop keeps between two batches. *)
Definition inEpoch (r : Run) : Prop :=
  histLen (history r) (completedEpochs r)
  /\ completedEpochs r = epoch r /\ (epoch r < epochs r)%nat /\ sumsOK r.

(** A call of [train] for [n] epochs is in flight or has returned, and
    the counter, which was [t0] when the call was made, has been
    touched by that call alone. *)
Definition tracked (t0 n : nat) (s : State) : Prop :=
  exists r,
    task s = Some r /\ epochs r = n
    /\ trainedEpochs (hook s)
       = match pc r with
         | PDone => (t0 + completedEpochs r)%nat
         | _ => t0
         end.

(** A stop has been requested in the batch phase of an epoch; at most
    [k] more resumptions are needed for the call to return. *)
Definition stopping (c : nat) (h : TrainingHistory) (t x y : nat)
    (k : nat) (s : State) : Prop :=
  stopTrainingRef (hook s) = true /\ calls s = x /\ evals s = y
  /\ exists r,
       task s = Some r /\ completedEpochs r = c /\ history r = h
       /\ match k with
          | O => pc r = PDone /\ trainedEpochs (hook s) = (t + c)%nat
          | S O => pc r = PBatchFrame /\ trainedEpochs (hook s) = t
          | _ => batchPhase (pc r) = true /\ trainedEpochs (hook s) = t
          end.

(** An upper bound on the number of resumptions a run still needs when
    it is neither paused nor stopped. *)
Definition perEpoch (r : Run) : nat := (2 * Z.to_nat (nBatches r) + 4)%nat.

Definition rest (r : Run) : nat := ((epochs r - epoch r - 1) * perEpoch r)%nat.

Definition batchesLeft (r : Run) : nat := (Z.to_nat (nBatches r) - batch r)%nat.

Definition remaining (r : Run) : nat :=
  match pc r with
  | PAwaitTrain _ => (rest r + 2 * batchesLeft r + 3)%nat
  | PBatchFrame => (rest r + 2 * batchesLeft r + 2)%nat
  | PAwaitValLoss _ => (rest r + 3)%nat
  | PAwaitValAcc _ => (rest r + 2)%nat
  | PEpochFrame => (rest r + 1)%nat
  | _ => O
  end.

(** Nothing holds the run up: flags clear, model alive, data well
    formed, batches of at least one row. *)
Definition sound (s : State) (r : Run) : Prop :=
  stopTrainingRef (hook s) = false /\ pauseTrainingRef (hook s) = false
  /\ wellFormed (data r) /\ 1 <= batchSize r
  /\ nBatches r = Mnist.numBatches (numTrain (data r)) (batchSize r)
  /\ disposed s (activeModel r) = false.

Definition steady (s : State) : Prop :=
  exists r,
    task s = Some r /\ sound s r
    /\ match pc r with
       | PEpochSleep | PBatchSleep | PThrew => False
       | _ => True
       end.

(** [s] is steady and needs fewer than [M] resumptions. *)
Definition onward (M : nat) (s : State) : Prop :=
  exists r,
    task s = Some r /\ sound s r
    /\ match pc r with
       | PEpochSleep | PBatchSleep | PThrew => False
       | _ => True
       end
    /\ (remaining r < M)%nat.

(** A call of [train] with these arguments gets past line 111. *)
Definition ready (s : State) (modelOverride : option ModelId) : bool :=
  match modelOverride, model (hook s), dataRef (hook s) with
  | Some _, _, Some _ => true
  | None, Some _, Some _ => true
  | _, _, _ => false
  end.

(** The model a call of [train] works on. *)
Definition modelOf (s : State) (modelOverride : option ModelId) : option ModelId :=
  match modelOverride with Some m => Some m | None => model (hook s) end.

Definition resumes (evs : list Event) : nat :=
  length (filter isResume evs).

(** The outcome of a run that was stopped during its epoch of number
    [k]: relative to [s0], the state in which the run was started, and
    to [s1], the state in which [stopTraining] was called, the final
    state [s2] has a returned history of [k - 1] records and a counter
    that grew by [k - 1], and neither [trainOnBatch] nor [evaluate] was
    called after the stop. *)
Definition stoppedIn (s0 s1 s2 : State) (k : nat) : Prop :=
  exists r2,
    task s2 = Some r2 /\ pc r2 = PDone
    /\ histLen (history r2) (k - 1)
    /\ completedEpochs r2 = (k - 1)%nat
    /\ trainedEpochs (hook s2) = (trainedEpochs (hook s0) + (k - 1))%nat
    /\ calls s2 = calls s1 /\ evals s2 = evals s1.

(** The outcome of a run of [n] epochs that was not stopped. *)
Definition completedAll (s0 s2 : State) (n : nat) : Prop :=
  exists r2,
    task s2 = Some r2 /\ pc r2 = PDone
    /\ histLen (history r2) n
    /\ completedEpochs r2 = n
    /\ trainedEpochs (hook s2) = (trainedEpochs (hook s0) + n)%nat.

(** What the specification says of a stop, read with "in
    progress" as "anywhere inside the body of the epoch loop": however
    the run got to a state [s1] in which epoch [k] is in progress, a
    stop requested there ends the run with [k - 1] records. *)
Definition stopSpec : Prop :=
  forall (w0 : Weights E) (evs0 pre post : list Event) (n : nat) (b : Z)
         (mo : option ModelId) (k : nat),
    let s0 := run evs0 (initial w0) in
    let s1 := run (ETrain n b mo :: pre) s0 in
    isTraining (hook s0) = false -> ready s0 mo = true ->
    forallb control pre = true ->
    epochInProgress s1 k ->
    forallb control post = true -> (3 <= resumes post)%nat ->
    stoppedIn s0 s1 (run (EStop :: post) s1) k.

(** What the specification says of the length of the history: in
    every reachable state the history has as many records as epochs
    were completed on the model the hook holds. *)
Definition historySpec : Prop :=
  forall (w0 : Weights E) (evs : list Event),
    let s := run evs (initial w0) in
    length (loss (trainingHistory (hook s))) = epochsOnModel s.











End Loop.

End Train.

(** A small instance on which the loop can be run: measurements are
    rationals, rows are numbers, the weights count the updates, the loss of
    a batch is its number of rows and the validation loss is the number of
    updates so far. *)
Module Demo.

Import Train.

Definition env : Env :=
  mkEnv 0%Q Qplus Qdiv (fun n => inject_Z (Z.of_nat n))
    (fun (w : nat) (b : Mnist.Batch nat nat) =>
       (S w, Metrics (inject_Z (Z.of_nat (length (Mnist.images b)))) 1%Q))
    (fun (w : nat) (_ _ : list nat) => (inject_Z (Z.of_nat w), (1 # 2)%Q)).

Definition rows5 : MNISTData env :=
  @mkData env [1; 2; 3; 4; 5]%nat [1; 2; 3; 4; 5]%nat [6]%nat [6]%nat 5 1.

(** Data loaded and a fresh model created. *)
Definition ready5 : State env :=
  run [ELoadData rows5; EInit env 0%nat 0%nat] (initial env 0%nat).

End Demo.

(* ------------------------------------------------------------------------- *)
(** ** The batches of one epoch, and the sample loader of mnistLoader.ts *)

Module Loader.

(** The calls of [getBatch] that the batch loop makes in one epoch
    (useModel.ts, lines 143 and 151), for a data set whose [numTrain] is
    the number of its image rows. *)
Definition epochBatches {Img Lbl : Type} (imgs : list Img) (lbls : list Lbl)
    (batchSize : Z) : list (option (Mnist.Batch Img Lbl)) :=
  map (fun i => Mnist.getBatch imgs lbls batchSize (Z.of_nat i))
      (seq 0 (Z.to_nat (Mnist.numBatches (Z.of_nat (length imgs)) batchSize))).

(** An image of sample-mnist.json: 784 numbers, or 28 rows of 28. *)
Inductive SampleImage : Type :=
| Flat (px : list Q)
| Nested (rows : list (list Q)).

(** [flattenImage] (lines 31-37): [img.flat()] when the first element is
    an array, the image itself otherwise. *)
Definition flattenImage (img : SampleImage) : list Q :=
  match img with
  | Flat px => px
  | Nested rows => concat rows
  end.

(** The rows of a tensor of shape [[n, width]] given its values. *)
Fixpoint rowsOf {A : Type} (width n : nat) (values : list A) : list (list A) :=
  match n with
  | O => []
  | S k => firstn width values :: rowsOf width k (skipn width values)
  end.

(** [tf.tensor4d(values, [n, 28, 28, 1])], a row being the 784 values of
    one image: the constructor throws unless the number of values is the
    product of the shape. *)
Definition tf_tensor {A : Type} (values : list A) (n width : nat)
    : option (list (list A)) :=
  if Nat.eqb (length values) (n * width) then Some (rowsOf width n values)
  else None.

(** One row of [tf.oneHot(labels, depth)]: a one at the index of the
    label, zeros elsewhere. *)
Definition oneHot (depth : nat) (label : Z) : list Q :=
  map (fun k => if Z.of_nat k =? label then 1%Q else 0%Q) (seq 0 depth).

Definition IMAGE_SIZE : nat := 784.
Definition NUM_CLASSES : nat := 10.

Record SampleJson : Type := mkJson
  { jsonTrainImages : list SampleImage;
    jsonTrainLabels : list Z;
    jsonTestImages : list SampleImage;
    jsonTestLabels : list Z }.

Record Data : Type := mkData
  { trainImages : list (list Q);
    trainLabels : list (list Q);
    testImages : list (list Q);
    testLabels : list (list Q);
    numTrain : Z;
    numTest : Z }.

(** [loadSampleMNIST] (lines 25-75) on the parsed file; [None] when a
    tensor constructor throws. *)
Definition loadSampleMNIST (data : SampleJson) : option Data :=
  let trainImagesFlat := concat (map flattenImage (jsonTrainImages data)) in
  let testImagesFlat := concat (map flattenImage (jsonTestImages data)) in
  let numTrain' := length (jsonTrainImages data) in
  let numTest' := length (jsonTestImages data) in
  match tf_tensor trainImagesFlat numTrain' IMAGE_SIZE with
  | None => None
  | Some trainImages' =>
      match tf_tensor testImagesFlat numTest' IMAGE_SIZE with
      | None => None
      | Some testImages' =>
          Some (mkData trainImages'
                       (map (oneHot NUM_CLASSES) (jsonTrainLabels data))
                       testImages'
                       (map (oneHot NUM_CLASSES) (jsonTestLabels data))
                       (Z.of_nat numTrain') (Z.of_nat numTest'))
      end
  end.

End Loader.

(* ------------------------------------------------------------------------- *)
(** ** utils/visualizationUtils: drawing, and the overlay of CAMViewer *)

Module Viz.

Local Open Scope Q_scope.

(** A write into [imageData.data], a [Uint8ClampedArray]: an integer is
    stored as it is when it lies between 0 and 255, and as the nearer of
    the two bounds otherwise. *)
Definition toUint8Clamped (z : Z) : Z := Z.max 0 (Z.min 255 z).

(** [data[y][x]] of a two-dimensional array. *)
Definition at2 (d : list (list Q)) (y x : nat) : Q := nth x (nth y d []) 0.

(** [viridisColor] (lines 66-71). *)
Definition viridisColor (t : Q) : Cam.RGB :=
  {| Cam.red :=
       JS.Math_round
         (255 * Qmax 0 (Qmin 1 (0.267 + 0.005 * t + 2.71 * t * t - 2.36 * t * t * t)));
     Cam.green :=
       JS.Math_round (255 * Qmax 0 (Qmin 1 (-0.005 + 1.37 * t - 0.35 * t * t)));
     Cam.blue :=
       JS.Math_round
         (255 * Qmax 0 (Qmin 1 (0.329 + 1.44 * t - 1.80 * t * t + 0.45 * t * t * t))) |}.

Inductive Colormap : Type := Grayscale | Viridis | Hot.

(** [data[y][x]] when the cell may be missing: [None] stands for
    [undefined]. *)
Definition cellAt (d : list (list Q)) (y x : nat) : option Q :=
  nth_error (nth y d []) x.

(** The body of the two loops of [drawToCanvas] (lines 38-56): the four
    numbers written for one cell.  For a missing cell [Math.round] gives
    [NaN], every colour computed from it is [NaN], and a [NaN] written
    into the image data is stored as 0. *)
Definition canvasPixel (colormap : Colormap) (cell : option Q) : list Z :=
  match cell with
  | None => [0%Z; 0%Z; 0%Z; 255%Z]
  | Some d =>
      let value := Z.min 255 (Z.max 0 (JS.Math_round d)) in
      match colormap with
      | Grayscale => [value; value; value; 255%Z]
      | Viridis =>
          let c := viridisColor (inject_Z value / 255) in
          [Cam.red c; Cam.green c; Cam.blue c; 255%Z]
      | Hot =>
          let c := Cam.hotColor (inject_Z value / 255) in
          [Cam.red c; Cam.green c; Cam.blue c; 255%Z]
      end
  end.

(** The two loops of [drawToCanvas] (lines 36-58): the bytes of the image
    data, cell [(y, x)] at index [(y * width + x) * 4]. *)
Definition canvasBytes (data : list (list Q)) (colormap : Colormap) : list Z :=
  let height := length data in
  let width := length (nth 0 data []) in
  flat_map
    (fun y =>
       flat_map
         (fun x => map toUint8Clamped (canvasPixel colormap (cellAt data y x)))
         (seq 0 width))
    (seq 0 height).

(** [drawToCanvas] (lines 24-61): the width and the height given to the
    canvas, and the image data put on it.  [ctx.createImageData] throws
    when the width or the height is zero; the canvas has its new size by
    then and nothing is drawn, which is [None] here. *)
Definition drawToCanvas (data : list (list Q)) (colormap : Colormap)
    : nat * nat * option (list Z) :=
  let height := length data in
  let width := length (nth 0 data []) in
  (width, height,
   if (Nat.eqb width 0 || Nat.eqb height 0)%bool then None
   else Some (canvasBytes data colormap)).

(** [tensorToImageData] (lines 6-19) on a tensor of rank two:
    [data.sub(min).div(max.sub(min).add(1e-8)).mul(255)].  On a tensor
    without values there is nothing to map. *)
Definition tensorToImageData (tensor : list (list Q)) (normalize : bool)
    : list (list Q) :=
  if normalize then
    match Cam.Math_min (concat tensor), Cam.Math_max (concat tensor) with
    | Some min, Some max =>
        map (map (fun v => (v - min) / (max - min + (1 # 100000000)) * 255)) tensor
    | _, _ => tensor
    end
  else tensor.

(** CAMViewer, lines 305-313: the cell of the heat map of [conv] rows that
    row [y] of the 28 by 28 overlay reads.  [scale] and the quotient by it
    are doubles, and the rounding matters: with 50 rows the quotient
    [14 / (28 / 50)] comes out just below 25 and row 14 reads row 24. *)
Definition camIndex (conv : nat) (y : nat) : Z :=
  let scale := JS.fdiv 28 (inject_Z (Z.of_nat conv)) in
  Z.min (Qfloor (JS.fdiv (inject_Z (Z.of_nat y)) scale)) (Z.of_nat conv - 1).

(** CAMViewer, lines 312-329: the four numbers written for the pixel
    [(y, x)] of the overlay; [input] is the 28 by 28 input image. *)
Definition overlayPixel (cam input : list (list Q)) (y x : nat) : list Z :=
  let convHeight := length cam in
  let convWidth := length (nth 0 cam []) in
  let camY := camIndex convHeight y in
  let camX := camIndex convWidth x in
  let camVal := at2 cam (Z.to_nat camY) (Z.to_nat camX) in
  let c := Cam.camColor camVal in
  let origVal := at2 input y x * 255 in
  let alpha := 0.6 in
  [JS.Math_round (origVal * (1 - alpha) + inject_Z (Cam.red c) * alpha);
   JS.Math_round (origVal * (1 - alpha) + inject_Z (Cam.green c) * alpha);
   JS.Math_round (origVal * (1 - alpha) + inject_Z (Cam.blue c) * alpha);
   255%Z].

(** CAMViewer, lines 308-333: the image data put on the overlay canvas. *)
Definition overlayImageData (cam input : list (list Q)) : list Z :=
  flat_map
    (fun y =>
       flat_map (fun x => map toUint8Clamped (overlayPixel cam input y x))
                (seq 0 28))
    (seq 0 28).

(** CAMViewer, lines 283-296: the image data of the original image. *)
Definition originalImageData (input : list (list Q)) : list Z :=
  flat_map
    (fun y =>
       flat_map
         (fun x =>
            let val := JS.Math_round (at2 input y x * 255) in
            map toUint8Clamped [val; val; val; 255%Z])
         (seq 0 28))
    (seq 0 28).

(** FeatureMapViewer, lines 48-54: the activation of filter [f], cell by
    cell.  [data] is the array of a tensor, so it is rectangular and every
    read is inside it. *)
Definition featurePlane (data : Cam.Tensor3) (f : nat) : list (list Q) :=
  map (fun y => map (fun x => Cam.at3 data y x f) (seq 0 (Cam.convWidth data)))
      (seq 0 (Cam.convHeight data)).

(** FeatureMapViewer, lines 57-64, and FilterViewer, lines 66-73: the
    values scaled to [0, 255].  Without cells the [map] changes nothing. *)
Definition scaleTo255 (filterData : list (list Q)) : list (list Q) :=
  let flatData := concat filterData in
  match Cam.Math_min flatData, Cam.Math_max flatData with
  | Some min, Some max =>
      map (map (fun val => (val - min) / Cam.range max min * 255)) filterData
  | _, _ => filterData
  end.

(** FeatureMapViewer, lines 38-77: the canvases appended to the grid of a
    layer, in order.  The loop is
    [for (let f = 0; f < Math.min(numFilters, 32); f++)]: filters from
    the thirty-third on get no canvas.  Its body scales the activation of
    filter [f] to [0, 255] and draws it with the viridis colours.
    Reading [data[0][0].length] throws on an activation without a first
    cell; the [catch] clause then writes a message and no canvas, which
    is [None] here. *)
Definition featureMapCanvases (data : Cam.Tensor3)
    : option (list (nat * nat * option (list Z))) :=
  match data with
  | (_ :: _) :: _ =>
      Some (map (fun f => drawToCanvas (scaleTo255 (featurePlane data f)) Viridis)
                (seq 0 (Nat.min (Cam.numFilters data) 32)))
  | _ => None
  end.

(** FeatureMapViewer, lines 79-84: the number shown in the text
    [+N more], which is appended when there are more than 32 filters. *)
Definition moreText (data : Cam.Tensor3) : option nat :=
  if (32 <? Cam.numFilters data)%nat then Some (Cam.numFilters data - 32)%nat
  else None.

(** FeatureMapViewer.tsx, lines 94-126: the strip drawn for a dense
    layer, one row with a cell for every unit; minimum and maximum are
    taken over the units. *)
Definition unitsCanvas (batchData : list Q) : nat * nat * option (list Z) :=
  drawToCanvas (scaleTo255 [batchData]) Viridis.

(** The four bytes of the pixel [(y, x)] of image data of width [width]:
    the bytes from index [(y * width + x) * 4] on. *)
Definition pixelAt (bytes : list Z) (width y x : nat) : list Z :=
  firstn 4 (skipn ((y * width + x) * 4) bytes).

(** A rectangular array of [H] rows and [W] columns. *)
Definition hasShape2 (d : list (list Q)) (H W : nat) : Prop :=
  length d = H /\ Forall (fun row => length row = W) d.

(** A 28 by 28 image with values between 0 and 1. *)
Definition unitImage (input : list (list Q)) : Prop :=
  length input = 28%nat
  /\ Forall (fun row => length row = 28%nat /\ Forall (fun v => 0 <= v <= 1) row)
            input.

End Viz.

(* ------------------------------------------------------------------------- *)
(** ** components/DrawingCanvas *)

Module Canvas.

Local Open Scope Q_scope.

(** [getImageTensor] (lines 268-294): [data] is the image data of the 28
    by 28 canvas, four bytes a pixel, so every read is inside it; value
    [i] is [data[i * 4] / 255] and the tensor of shape [1, 28, 28, 1] has
    value [y * 28 + x] in row [y] and column [x]. *)
Definition getImageTensor (data : list Z) : list (list Q) :=
  map (fun y =>
         map (fun x => inject_Z (nth ((y * 28 + x) * 4) data 0%Z) / 255)
             (seq 0 28))
      (seq 0 28).

(** The rectangle [drawImage] gets in [handleImageUpload] (lines 326-330). *)
Record Rect : Type := mkRect { left : Q; top : Q; width : Q; height : Q }.

Definition uploadRect (canvasWidth canvasHeight imgWidth imgHeight : Q) : Rect :=
  let scale := Qmin (canvasWidth / imgWidth) (canvasHeight / imgHeight) in
  let x := (canvasWidth - imgWidth * scale) / 2 in
  let y := (canvasHeight - imgHeight * scale) / 2 in
  mkRect x y (imgWidth * scale) (imgHeight * scale).

End Canvas.

(* ------------------------------------------------------------------------- *)
(** ** App and components/TrainingPanel *)

Module App.

Local Open Scope Q_scope.

(** [array.indexOf(v)]: the first index whose element equals [v], or -1.
    [indexOfFrom l v i] looks at the elements from index [i] on. *)
Fixpoint indexOfFrom (l : list Q) (v : Q) (i : Z) : Z :=
  match l with
  | [] => (-1)%Z
  | a :: r => if Qeq_bool a v then i else indexOfFrom r v (i + 1)
  end.

Definition indexOf (l : list Q) (v : Q) : Z := indexOfFrom l v 0.

(** [handleImageReady], lines 96-97.  On an empty array [Math.max()] is
    minus infinity, which no element equals, and [probsArray[-1]] is
    [undefined]. *)
Definition predictedClass (probsArray : list Q) : Z :=
  match Cam.Math_max probsArray with
  | Some m => indexOf probsArray m
  | None => (-1)%Z
  end.

Definition conf (probsArray : list Q) : option Q :=
  if (predictedClass probsArray <? 0)%Z then None
  else nth_error probsArray (Z.to_nat (predictedClass probsArray)).

(** TrainingPanel, line 300: the width of the progress bar, in per cent.
    [totalBatches] is [undefined] until the first batch has ended. *)
Definition progressWidth (batch : nat) (totalBatches : option Z) : Q :=
  let total := match totalBatches with
               | Some t => JS.or_else (inject_Z t) 1
               | None => 1
               end in
  inject_Z (Z.of_nat batch) / total * 100.

End App.

(* ------------------------------------------------------------------------- *)
(** ** Predicates on the states of the training loop *)

Module Watch.

Import Train.

Section Defs.

Variable E : Env.

(** The progress that is shown: nothing yet, or batch [b] of [t] of an
    epoch, with [1 <= b <= t]. *)
Definition progressOK (p : TrainingProgress E) : Prop :=
  match p_totalBatches p with
  | None => p_batch p = O /\ p_epoch p = O
  | Some t => (1 <= p_batch p)%nat /\ Z.of_nat (p_batch p) <= t
              /\ (1 <= p_epoch p)%nat
  end.

(** The last validation accuracy is the last point of the published
    curve. *)
Definition lastPoint (h : Hook E) : Prop :=
  lastValAccuracy h = last (map Some (valAccuracy (trainingHistory h))) None.

(** The batches [getBatch] gives for the indices [0], ..., [k - 1]. *)
Definition batchesUpTo (r : Run E) (k : nat)
    : list (option (Mnist.Batch (Img E) (Lbl E))) :=
  map (fun i => Mnist.getBatch (trainImages (data r)) (trainLabels (data r))
                               (batchSize r) (Z.of_nat i))
      (seq 0 k).

(** The weights after [trainOnBatch] was called on the batches of a list,
    one after the other. *)
Definition trainedOn (w : Weights E)
    (bs : list (option (Mnist.Batch (Img E) (Lbl E)))) : Weights E :=
  fold_left (fun w ob => match ob with
                         | Some b => fst (trainOnBatch E w b)
                         | None => w
                         end) bs w.

(** How many batches of the current epoch a run that is neither stopped
    nor paused has passed to [trainOnBatch] when it is suspended at
    [pc r], and how often it has called [evaluate]. *)
Definition batchesDone (r : Run E) : nat :=
  match pc r with
  | PBatchSleep _ => batch r
  | PAwaitTrain _ _ | PBatchFrame _ => S (batch r)
  | PAwaitValLoss _ _ | PAwaitValAcc _ _ | PEpochFrame _ => Z.to_nat (nBatches r)
  | _ => O
  end.

Definition evalsDone (r : Run E) : nat :=
  (epoch r
   + match pc r with
     | PAwaitValLoss _ _ | PAwaitValAcc _ _ | PEpochFrame _ => 1
     | _ => O
     end)%nat.

(** The batches such a run has passed to [trainOnBatch], in order. *)
Definition fed (r : Run E) : list (option (Mnist.Batch (Img E) (Lbl E))) :=
  concat (repeat (batchesUpTo r (Z.to_nat (nBatches r))) (epoch r))
  ++ batchesUpTo r (batchesDone r).

(** Nothing makes the run fail or end early: no stop was requested,
    the model is alive, the data well formed, the batches of at least
    one row.  The run may be paused. *)
Definition going (s : State E) (r : Run E) : Prop :=
  stopTrainingRef (hook s) = false
  /\ wellFormed (data r) /\ 1 <= batchSize r
  /\ nBatches r = Mnist.numBatches (numTrain (data r)) (batchSize r)
  /\ disposed s (activeModel r) = false.

(** A run of [n] epochs on the model [m], with the data [d] in batches
    of [b] rows, started when the counters were [c0] and [e0] and the
    weights of the model [w0], is on its way, paused or not, and has
    trained on the batches of [fed]. *)
Definition counted (m : ModelId) (d : MNISTData E) (b : Z) (n c0 e0 : nat)
    (w0 : Weights E) (s : State E) : Prop :=
  exists r,
    task s = Some r /\ activeModel r = m /\ data r = d /\ batchSize r = b
    /\ epochs r = n /\ going s r
    /\ match pc r with
       | PThrew _ => False
       | PDone _ => epoch r = epochs r /\ isTraining (hook s) = false
       | _ => True
       end
    /\ calls s = (c0 + length (fed r))%nat
    /\ evals s = (e0 + evalsDone r)%nat
    /\ heap s m = trainedOn w0 (fed r).

(** Commands that pause or resume the run, and resumptions. *)
Definition pauseOrResume (e : Event E) : bool :=
  match e with
  | EPause _ | EResume _ => true
  | _ => false
  end.

(** A stop has been requested while a call of [train] was suspended
    with [c] completed epochs and the counters at [x] and [y]; the call
    returns within [k] resumptions. *)
Definition halting (c x y k : nat) (s : State E) : Prop :=
  stopTrainingRef (hook s) = true /\ calls s = x /\ evals s = y
  /\ exists r,
       task s = Some r
       /\ match pc r with
          | PDone _ =>
              isTraining (hook s) = false
              /\ (c <= completedEpochs r <= S c)%nat
          | PAwaitValLoss _ _ => (3 <= k)%nat /\ completedEpochs r = c
          | PAwaitValAcc _ _ => (2 <= k)%nat /\ completedEpochs r = c
          | PAwaitTrain _ _ =>
              (2 <= k)%nat /\ (c <= completedEpochs r <= S c)%nat
          | PThrew _ => False
          | _ => (1 <= k)%nat /\ (c <= completedEpochs r <= S c)%nat
          end.

(** A call of [train] is suspended or has thrown. *)
Definition unreturned (s : State E) : Prop :=
  exists r, task s = Some r /\ pc r <> PDone E.

End Defs.

End Watch.

(* ------------------------------------------------------------------------- *)
(** ** components/TrainingPanel *)

Module Panel.

Import Train.

Section Start.

Variable E : Env.

(** [handleStartTraining] (lines 81-93), up to the first [await] of
    [train]: when the hook holds no model, [onInitModel] creates one,
    [fresh] with the weights [w], and that model is passed to [train] as
    [modelOverride].  The button that calls it is rendered only while
    [isTraining] is false (line 236). *)
Definition handleStartTraining (s : State E) (fresh : ModelId)
    (w : Weights E) (epochs' : nat) (batchSize' : Z) : State E :=
  match model (hook s) with
  | Some m => train s epochs' batchSize' (Some m)
  | None => train (initModel s fresh w) epochs' batchSize' (Some fresh)
  end.

(** The model [handleStartTraining] trains. *)
Definition startedModel (s : State E) (fresh : ModelId) : ModelId :=
  match model (hook s) with
  | Some m => m
  | None => fresh
  end.

(** The model the hook holds has not been disposed. *)
Definition alive (s : State E) : Prop :=
  forall m, model (hook s) = Some m -> disposed s m = false.

End Start.

End Panel.

(* ------------------------------------------------------------------------- *)
(** ** scripts/generateSampleData *)

Module Sample.

Local Open Scope Q_scope.

(** [l[i] = f (l[i])] for an index inside the list. *)
Fixpoint updAt {A : Type} (i : nat) (f : A -> A) (l : list A) : list A :=
  match l, i with
  | [], _ => []
  | a :: r, O => f a :: r
  | a :: r, S j => a :: updAt j f r
  end.

(** [image[y][x] = f (image[y][x])].  [generateDigitPattern] builds the
    image with 28 rows of 28 cells (lines 65-72) and [drawLine] writes
    only after its test of the bounds, so every write is inside the
    image. *)
Definition setCell (image : list (list Q)) (y x : nat) (f : Q -> Q)
    : list (list Q) :=
  updAt y (updAt x f) image.

(** The body of the loop of [drawLine] from the test of the bounds on
    (lines 123-128). *)
Definition plot (image : list (list Q)) (x y : Z) : list (list Q) :=
  if ((0 <=? x) && (x <? 28) && (0 <=? y) && (y <? 28))%Z then
    let image1 := setCell image (Z.to_nat y) (Z.to_nat x) (fun _ => 1) in
    let image2 :=
      if (0 <? y)%Z
      then setCell image1 (Z.to_nat (y - 1)) (Z.to_nat x) (fun v => Qmax v 0.7)
      else image1 in
    if (y <? 27)%Z
    then setCell image2 (Z.to_nat (y + 1)) (Z.to_nat x) (fun v => Qmax v 0.7)
    else image2
  else image.

(** The point of the line at step [i] (lines 120-122). *)
Definition linePoint (x1 y1 x2 y2 steps i : Z) : Z * Z :=
  let t := if (steps =? 0)%Z then 0 else inject_Z i / inject_Z steps in
  (JS.Math_round (inject_Z x1 + inject_Z (x2 - x1) * t),
   JS.Math_round (inject_Z y1 + inject_Z (y2 - y1) * t)).

(** [drawLine] (lines 117-130). *)
Definition drawLine (image : list (list Q)) (x1 y1 x2 y2 : Z) : list (list Q) :=
  let steps := Z.max (Z.abs (x2 - x1)) (Z.abs (y2 - y1)) in
  fold_left
    (fun im i =>
       let '(x, y) := linePoint x1 y1 x2 y2 steps (Z.of_nat i) in plot im x y)
    (seq 0 (Z.to_nat steps + 1)) image.

End Sample.

(* ------------------------------------------------------------------------- *)
(** ** Facts about the batch slicer *)

Section BatchFacts.

Import Mnist.

Lemma ceil_div_spec (a b : Z) :
  0 < b -> Qceiling (inject_Z a / inject_Z b)%Q = (a + b - 1) / b.
Proof.
  intros Hb.
  assert (E : (inject_Z a / inject_Z b == a # Z.to_pos b)%Q).
  { unfold Qdiv, Qinv, inject_Z; simpl.
    destruct b as [|p|p]; try lia. simpl.
    unfold Qeq, Qmult; simpl. lia. }
  rewrite E. unfold Qceiling, Qfloor. simpl.
  rewrite Z2Pos.id by lia.
  assert (H : (a + b - 1) / b = - ((- a) / b)).
  { pose proof (Z.div_mod (a + b - 1) b ltac:(lia)) as D1.
    pose proof (Z.mod_pos_bound (a + b - 1) b Hb) as B1.
    pose proof (Z.div_mod (- a) b ltac:(lia)) as D2.
    pose proof (Z.mod_pos_bound (- a) b Hb) as B2.
    nia. }
  rewrite H. reflexivity.
Qed.

Lemma numBatches_ceiling (numTrain batchSize : Z) :
  0 < batchSize ->
  (numBatches numTrain batchSize - 1) * batchSize < numTrain
    <= numBatches numTrain batchSize * batchSize.
Proof.
  intros Hb. unfold numBatches, JS.Math_ceil.
  rewrite ceil_div_spec by assumption.
  pose proof (Z.div_mod (numTrain + batchSize - 1) batchSize ltac:(lia)) as D.
  pose proof (Z.mod_pos_bound (numTrain + batchSize - 1) batchSize Hb) as B.
  nia.
Qed.

Lemma startIndex_bounds (n b i : Z) :
  1 <= n -> 1 <= b -> 0 <= i ->
  0 <= startIndex n b i < n.
Proof.
  intros Hn Hb Hi. unfold startIndex, JS.rem.
  rewrite Z.rem_mod_nonneg by nia.
  apply Z.mod_pos_bound. lia.
Qed.

Lemma endIndex_bounds (n b i : Z) :
  1 <= n -> 1 <= b -> 0 <= i ->
  startIndex n b i < endIndex n b i <= n.
Proof.
  intros Hn Hb Hi. pose proof (startIndex_bounds Hn Hb Hi).
  unfold endIndex. lia.
Qed.

Lemma tf_slice_fits {A : Type} (t : list A) (s k : Z) :
  0 <= s -> 0 <= k -> s + k <= Z.of_nat (length t) ->
  tf_slice t s k = Some (firstn (Z.to_nat k) (skipn (Z.to_nat s) t))
  /\ length (firstn (Z.to_nat k) (skipn (Z.to_nat s) t)) = Z.to_nat k.
Proof.
  intros Hs Hk Hfit. split.
  - unfold tf_slice.
    replace (k =? -1) with false by (symmetry; apply Z.eqb_neq; lia).
    replace (0 <=? s) with true by (symmetry; apply Z.leb_le; lia).
    replace (0 <=? k) with true by (symmetry; apply Z.leb_le; lia).
    replace (s + k <=? Z.of_nat (length t)) with true
      by (symmetry; apply Z.leb_le; lia).
    reflexivity.
  - rewrite length_firstn, length_skipn. lia.
Qed.

(** The slicer succeeds on every well-formed data set; shared by the
    safety statement and by the termination of the training loop. *)
Lemma getBatch_defined {Img Lbl : Type} (imgs : list Img) (lbls : list Lbl)
    (b i : Z) :
  (1 <= length imgs)%nat -> length lbls = length imgs -> 1 <= b -> 0 <= i ->
  let n := Z.of_nat (length imgs) in
  let s := startIndex n b i in
  let e := endIndex n b i in
  getBatch imgs lbls b i =
    Some (mkBatch (firstn (Z.to_nat (e - s)) (skipn (Z.to_nat s) imgs))
                  (firstn (Z.to_nat (e - s)) (skipn (Z.to_nat s) lbls))).
Proof.
  intros Hn Hl Hb Hi. cbv zeta.
  assert (Hn' : 1 <= Z.of_nat (length imgs)) by lia.
  pose proof (startIndex_bounds Hn' Hb Hi) as Hs.
  pose proof (endIndex_bounds Hn' Hb Hi) as He.
  unfold getBatch.
  destruct (@tf_slice_fits _ imgs (startIndex (Z.of_nat (length imgs)) b i)
              (endIndex (Z.of_nat (length imgs)) b i
               - startIndex (Z.of_nat (length imgs)) b i)) as [E1 _]; try lia.
  destruct (@tf_slice_fits _ lbls (startIndex (Z.of_nat (length imgs)) b i)
              (endIndex (Z.of_nat (length imgs)) b i
               - startIndex (Z.of_nat (length imgs)) b i)) as [E2 _]; try lia.
  rewrite E1, E2. reflexivity.
Qed.

Lemma getBatch_rows {Img Lbl : Type} (imgs : list Img) (lbls : list Lbl)
    (b i : Z) :
  (1 <= length imgs)%nat -> length lbls = length imgs -> 1 <= b -> 0 <= i ->
  exists bt,
    getBatch imgs lbls b i = Some bt
    /\ Z.of_nat (length (images bt))
       = endIndex (Z.of_nat (length imgs)) b i
         - startIndex (Z.of_nat (length imgs)) b i
    /\ length (labels bt) = length (images bt).
Proof.
  intros Hn Hl Hb Hi.
  assert (Hn' : 1 <= Z.of_nat (length imgs)) by lia.
  pose proof (startIndex_bounds Hn' Hb Hi) as Hs.
  pose proof (endIndex_bounds Hn' Hb Hi) as He.
  eexists. split; [apply getBatch_defined; assumption|].
  simpl. rewrite !length_firstn, !length_skipn. lia.
Qed.

(** C3.  The number of batches of an epoch is the ceiling of
    [numTrain / batchSize], that is the least [n] with
    [n * batchSize >= numTrain]; on a data set of [numTrain >= 1] rows the
    batch of index [i] is the run of rows that starts at
    [(i * batchSize) mod numTrain] and has
    [min batchSize (numTrain - start)] rows; for 500 rows and batches of 32
    there are 16 batches and the last one has 20 rows. *)
Theorem batch_count_and_slices {Img Lbl : Type} (imgs : list Img)
    (lbls : list Lbl) (batchSize : Z) :
  0 < batchSize -> length lbls = length imgs ->
  let numTrain := Z.of_nat (length imgs) in
  ((numBatches numTrain batchSize - 1) * batchSize < numTrain
     <= numBatches numTrain batchSize * batchSize)
  /\ (1 <= numTrain -> forall i, 0 <= i ->
      let start := (i * batchSize) mod numTrain in
      let len := Z.min batchSize (numTrain - start) in
      exists bt,
        getBatch imgs lbls batchSize i = Some bt
        /\ images bt = firstn (Z.to_nat len) (skipn (Z.to_nat start) imgs)
        /\ labels bt = firstn (Z.to_nat len) (skipn (Z.to_nat start) lbls)
        /\ Z.of_nat (length (images bt)) = len)
  /\ (numTrain = 500 -> batchSize = 32 ->
      numBatches numTrain batchSize = 16
      /\ exists bt,
           getBatch imgs lbls batchSize (numBatches numTrain batchSize - 1)
             = Some bt
           /\ length (images bt) = 20%nat).
Proof.
  intros Hb Hl numTrain. split; [apply numBatches_ceiling; assumption|].
  assert (Slice : 1 <= numTrain -> forall i, 0 <= i ->
      exists bt,
        getBatch imgs lbls batchSize i = Some bt
        /\ images bt = firstn (Z.to_nat (Z.min batchSize (numTrain - (i * batchSize) mod numTrain)))
                              (skipn (Z.to_nat ((i * batchSize) mod numTrain)) imgs)
        /\ labels bt = firstn (Z.to_nat (Z.min batchSize (numTrain - (i * batchSize) mod numTrain)))
                              (skipn (Z.to_nat ((i * batchSize) mod numTrain)) lbls)
        /\ Z.of_nat (length (images bt))
           = Z.min batchSize (numTrain - (i * batchSize) mod numTrain)).
  { intros Hn i Hi.
    assert (Hs : startIndex numTrain batchSize i = (i * batchSize) mod numTrain).
    { unfold startIndex, JS.rem. apply Z.rem_mod_nonneg; nia. }
    assert (Hlen : endIndex numTrain batchSize i - startIndex numTrain batchSize i
                   = Z.min batchSize (numTrain - (i * batchSize) mod numTrain)).
    { unfold endIndex. rewrite Hs. lia. }
    pose proof (Z.mod_pos_bound (i * batchSize) numTrain ltac:(lia)) as Hm.
    eexists. split.
    - apply getBatch_defined; unfold numTrain in *; lia.
    - fold numTrain. rewrite Hlen, Hs. simpl.
      repeat split. rewrite length_firstn, length_skipn.
      unfold numTrain in *.
      generalize dependent ((i * batchSize) mod Z.of_nat (length imgs)).
      intros; lia. }
  split; [exact Slice|].
  intros Hn Hbs. rewrite Hn, Hbs in *.
  assert (H16 : numBatches 500 32 = 16) by (vm_compute; reflexivity).
  split; [exact H16|].
  rewrite H16. destruct (Slice ltac:(lia) 15 ltac:(lia)) as (bt & G & _ & _ & L).
  exists bt. split; [exact G|].
  change ((15 * 32) mod 500) with 480 in L. lia.
Qed.

(** C10.  On a data set with at least one row, for a batch size of at
    least one and a batch index that is not negative, the indices the
    slicer computes are in bounds, the batch it returns is not empty and
    has at most [batchSize] rows, and images and labels have the same
    number of rows. *)
Theorem getBatch_in_bounds {Img Lbl : Type} (imgs : list Img)
    (lbls : list Lbl) (batchSize batchIndex : Z) :
  (1 <= length imgs)%nat -> length lbls = length imgs ->
  1 <= batchSize -> 0 <= batchIndex ->
  let numExamples := Z.of_nat (length imgs) in
  let s := startIndex numExamples batchSize batchIndex in
  let e := endIndex numExamples batchSize batchIndex in
  0 <= s < numExamples
  /\ s < e <= numExamples
  /\ exists bt,
       getBatch imgs lbls batchSize batchIndex = Some bt
       /\ 1 <= Z.of_nat (length (images bt)) <= batchSize
       /\ length (labels bt) = length (images bt).
Proof.
  intros Hn Hl Hb Hi. cbv zeta.
  assert (Hn' : 1 <= Z.of_nat (length imgs)) by lia.
  pose proof (startIndex_bounds Hn' Hb Hi) as Hs.
  pose proof (endIndex_bounds Hn' Hb Hi) as He.
  split; [exact Hs|]. split; [exact He|].
  destruct (getBatch_rows imgs lbls Hn Hl Hb Hi) as (bt & G & L & LL).
  exists bt. split; [exact G|]. split; [|exact LL].
  rewrite L. unfold endIndex in *. lia.
Qed.

End BatchFacts.

(** A data set of 500 rows, as the bundled sample. *)
Lemma batch_count_and_slices_witness :
  Mnist.numBatches 500 32 = 16
  /\ exists bt,
       Mnist.getBatch (repeat tt 500) (repeat tt 500) 32 (Mnist.numBatches 500 32 - 1)
         = Some bt
       /\ length (Mnist.images bt) = 20%nat.
Proof.
  refine (proj2 (proj2 (@batch_count_and_slices unit unit (repeat tt 500)
                          (repeat tt 500) 32 _ _)) _ _);
    vm_compute; reflexivity.
Defined.

Lemma getBatch_in_bounds_witness :
  exists bt,
    Mnist.getBatch [1; 2; 3; 4; 5] [10; 20; 30; 40; 50] 2 2 = Some bt
    /\ 1 <= Z.of_nat (length (Mnist.images bt)) <= 2
    /\ length (Mnist.labels bt) = length (Mnist.images bt).
Proof.
  refine (proj2 (proj2 (@getBatch_in_bounds Z Z [1; 2; 3; 4; 5]
                          [10; 20; 30; 40; 50] 2 2 _ _ _ _)));
    simpl; lia.
Defined.

(* ------------------------------------------------------------------------- *)
(** ** Facts about the class-activation map *)

Section CamFacts.

Import Cam.
Local Open Scope Q_scope.

Lemma Qmax_pick (a b : Q) : Qmax a b = a \/ Qmax a b = b.
Proof.
  unfold Qmax, GenericMinMax.gmax. destruct (a ?= b); auto.
Qed.

Lemma Qmin_pick (a b : Q) : Qmin a b = a \/ Qmin a b = b.
Proof.
  unfold Qmin, GenericMinMax.gmin. destruct (a ?= b); auto.
Qed.

Lemma fold_max_member (r : list Q) :
  forall v, In (fold_left Qmax r v) (v :: r).
Proof.
  induction r as [|w r IH]; intros v; simpl.
  - left; reflexivity.
  - destruct (IH (Qmax v w)) as [H|H].
    + destruct (Qmax_pick v w) as [P|P]; rewrite P in *; auto.
    + right; right; exact H.
Qed.

Lemma fold_min_member (r : list Q) :
  forall v, In (fold_left Qmin r v) (v :: r).
Proof.
  induction r as [|w r IH]; intros v; simpl.
  - left; reflexivity.
  - destruct (IH (Qmin v w)) as [H|H].
    + destruct (Qmin_pick v w) as [P|P]; rewrite P in *; auto.
    + right; right; exact H.
Qed.

Lemma fold_max_upper (r : list Q) :
  forall v x, In x (v :: r) -> x <= fold_left Qmax r v.
Proof.
  induction r as [|w r IH]; intros v x Hx; simpl.
  - destruct Hx as [<-|[]]. apply Qle_refl.
  - destruct Hx as [<-|[<-|Hx]].
    + eapply Qle_trans; [apply (Q.le_max_l v w)|]. apply IH; left; reflexivity.
    + eapply Qle_trans; [apply (Q.le_max_r v w)|]. apply IH; left; reflexivity.
    + apply IH; right; exact Hx.
Qed.

Lemma fold_min_lower (r : list Q) :
  forall v x, In x (v :: r) -> fold_left Qmin r v <= x.
Proof.
  induction r as [|w r IH]; intros v x Hx; simpl.
  - destruct Hx as [<-|[]]. apply Qle_refl.
  - destruct Hx as [<-|[<-|Hx]].
    + eapply Qle_trans; [|apply (Q.le_min_l v w)]. apply IH; left; reflexivity.
    + eapply Qle_trans; [|apply (Q.le_min_r v w)]. apply IH; left; reflexivity.
    + apply IH; right; exact Hx.
Qed.

Lemma Math_max_spec (l : list Q) (m : Q) :
  Math_max l = Some m -> In m l /\ forall x, In x l -> x <= m.
Proof.
  destruct l as [|v r]; simpl; [discriminate|].
  intros [= <-]. split; [apply fold_max_member|apply fold_max_upper].
Qed.

Lemma Math_min_spec (l : list Q) (m : Q) :
  Math_min l = Some m -> In m l /\ forall x, In x l -> m <= x.
Proof.
  destruct l as [|v r]; simpl; [discriminate|].
  intros [= <-]. split; [apply fold_min_member|apply fold_min_lower].
Qed.

Lemma range_nondegenerate (maxVal minVal : Q) :
  minVal < maxVal -> range maxVal minVal = maxVal - minVal.
Proof.
  intros H. unfold range, JS.or_else.
  destruct (Qeq_bool (maxVal - minVal) 0) eqn:B; [|reflexivity].
  apply Qeq_bool_eq in B. lra.
Qed.

Lemma range_degenerate (maxVal minVal : Q) :
  maxVal == minVal -> range maxVal minVal = 1.
Proof.
  intros H. unfold range, JS.or_else.
  destruct (Qeq_bool (maxVal - minVal) 0) eqn:B; [reflexivity|].
  apply Qeq_bool_neq in B. exfalso; apply B. lra.
Qed.

Lemma concat_map_map {A B : Type} (f : A -> B) (ll : list (list A)) :
  concat (map (map f) ll) = map f (concat ll).
Proof.
  induction ll as [|l ll IH]; simpl; [reflexivity|].
  rewrite IH, map_app. reflexivity.
Qed.

(** *** The last convolutional layer *)

Lemma scanDown_found (ls : list LayerClass) :
  forall n i, scanDown ls n = Some i ->
    (i < n)%nat
    /\ nth_error ls i = Some Conv2D
    /\ forall j, (i < j < n)%nat -> nth_error ls j <> Some Conv2D.
Proof.
  induction n as [|n IH]; simpl; intros i Hi; [discriminate|].
  destruct (nth_error ls n) as [c|] eqn:Hn.
  - destruct c;
      try (destruct (IH i Hi) as (Lt & Hc & Hj);
           repeat split; [lia|exact Hc|];
           intros j Bj; destruct (Nat.eq_dec j n) as [->|Ne];
           [rewrite Hn; discriminate|apply Hj; lia]).
    injection Hi as <-. repeat split; [lia|exact Hn|]. intros j Bj; lia.
  - destruct (IH i Hi) as (Lt & Hc & Hj).
    repeat split; [lia|exact Hc|].
    intros j Bj; destruct (Nat.eq_dec j n) as [->|Ne];
      [rewrite Hn; discriminate|apply Hj; lia].
Qed.

Lemma scanDown_missing (ls : list LayerClass) :
  forall n, scanDown ls n = None ->
    forall j, (j < n)%nat -> nth_error ls j <> Some Conv2D.
Proof.
  induction n as [|n IH]; simpl; intros Hn j Hj; [lia|].
  destruct (nth_error ls n) as [c|] eqn:Hc.
  - destruct c; try discriminate;
      (destruct (Nat.eq_dec j n) as [->|Ne];
       [rewrite Hc; discriminate|apply IH; [exact Hn|lia]]).
  - destruct (Nat.eq_dec j n) as [->|Ne];
      [rewrite Hc; discriminate|apply IH; [exact Hn|lia]].
Qed.

Lemma lastConvLayer_highest (ls : list LayerClass) (i : nat) :
  lastConvLayer ls = Some i ->
  nth_error ls i = Some Conv2D
  /\ forall j, (i < j)%nat -> nth_error ls j <> Some Conv2D.
Proof.
  intros H. destruct (scanDown_found _ _ H) as (Lt & Hc & Hj).
  split; [exact Hc|]. intros j Lj.
  destruct (Nat.lt_ge_cases j (length ls)) as [In|Out].
  - apply Hj; lia.
  - apply nth_error_None in Out. rewrite Out. discriminate.
Qed.

Lemma lastConvLayer_exists (ls : list LayerClass) (j : nat) :
  nth_error ls j = Some Conv2D -> exists i, lastConvLayer ls = Some i.
Proof.
  intros Hj. destruct (lastConvLayer ls) as [i|] eqn:H; [eauto|].
  exfalso. refine (@scanDown_missing ls (length ls) H j _ Hj).
  apply nth_error_Some. rewrite Hj. discriminate.
Qed.

(** *** The importance scores *)

Lemma index_loop_sum (cell : list Q) :
  forall (pre : list Q) (a : Q),
    fold_left (fun acc f => acc + nth f (pre ++ cell) 0)
              (seq (length pre) (length cell)) a
    = fold_left Qplus cell a.
Proof.
  induction cell as [|c cell IH]; intros pre a; simpl; [reflexivity|].
  rewrite app_nth2 by lia. rewrite Nat.sub_diag. simpl.
  specialize (IH (pre ++ [c]) (a + c)).
  rewrite length_app in IH. simpl in IH.
  rewrite Nat.add_1_r in IH. rewrite <- app_assoc in IH. simpl in IH.
  exact IH.
Qed.

Lemma fold_left_filterSum (cell : list Q) :
  forall a, fold_left Qplus cell a == a + filterSum cell.
Proof.
  induction cell as [|c cell IH]; intros a; simpl.
  - lra.
  - rewrite IH. unfold filterSum. simpl. lra.
Qed.

Lemma hasShape_cell (d : Tensor3) (H W F y x : nat) :
  hasShape d H W F -> (y < H)%nat -> (x < W)%nat ->
  length (nth y d []) = W /\ length (nth x (nth y d []) []) = F.
Proof.
  intros [HH Rows] Hy Hx.
  rewrite Forall_forall in Rows.
  destruct (Rows (nth y d [])) as [Wy Cells].
  { apply nth_In. lia. }
  split; [exact Wy|].
  rewrite Forall_forall in Cells. apply Cells. apply nth_In. lia.
Qed.

Lemma hasShape_dims (d : Tensor3) (H W F : nat) :
  hasShape d H W F -> (1 <= H)%nat -> (1 <= W)%nat ->
  convHeight d = H /\ convWidth d = W /\ numFilters d = F.
Proof.
  intros Sh HH HW.
  destruct (@hasShape_cell d H W F 0%nat 0%nat Sh) as [Wd Fd]; try lia.
  unfold convHeight, convWidth, numFilters. destruct Sh as [L _]. auto.
Qed.

Lemma nth_map_seq {A : Type} (f : nat -> A) (n k : nat) (dflt : A) :
  (k < n)%nat -> nth k (map f (seq 0 n)) dflt = f k.
Proof.
  intros Hk.
  rewrite (nth_indep _ dflt (f O)) by (rewrite length_map, length_seq; exact Hk).
  rewrite (map_nth f (seq 0 n) O k), seq_nth by exact Hk. reflexivity.
Qed.

Lemma reluCam_cell (d : Tensor3) (y x : nat) :
  (y < convHeight d)%nat -> (x < convWidth d)%nat ->
  nth x (nth y (reluCam d) []) 0 = Qmax 0 (weightedSum d y x).
Proof.
  intros Hy Hx. unfold reluCam.
  rewrite nth_map_seq by exact Hy.
  rewrite nth_map_seq by exact Hx. reflexivity.
Qed.

(** C5.  The layer whose activation is used is the convolutional layer of
    highest index, and before normalisation the score of the cell
    [(y, x)] of an activation of shape [H, W, F] is the sum over the [F]
    filters of that cell, with negative sums replaced by zero.  The map
    that [computeCAM] goes on with is the normalisation of these scores
    when the last layer of the model has weights and a [Flatten] layer
    follows another layer; for every other model the call ends without a
    map. *)
Theorem cam_score_is_relu_of_filter_sum {Input : Type}
    (m : LayersModel Input) (inp : Input) (i H W F : nat) :
  lastConvLayer (layers m) = Some i ->
  hasShape (layerOutput m i inp) H W F ->
  (1 <= H)%nat -> (1 <= W)%nat ->
  let d := layerOutput m i inp in
  (nth_error (layers m) i = Some Conv2D
   /\ forall j, (i < j)%nat -> nth_error (layers m) j <> Some Conv2D)
  /\ computeCAM m inp
     = (if (denseWeightsRead (layers m) && beforeFlattenRead (layers m))%bool
        then normalize (reluCam d) else None)
  /\ length (reluCam d) = H
  /\ forall y x, (y < H)%nat -> (x < W)%nat ->
       length (nth y (reluCam d) []) = W
       /\ nth x (nth y (reluCam d) []) 0
          == Qmax 0 (filterSum (nth x (nth y d []) [])).
Proof.
  intros Hlast Sh HH HW d.
  destruct (hasShape_dims Sh HH HW) as (Eh & Ew & Ef). fold d in Eh, Ew, Ef.
  split; [apply lastConvLayer_highest; exact Hlast|].
  split.
  { unfold computeCAM. rewrite Hlast. fold d. rewrite Eh, Ew.
    destruct (denseWeightsRead (layers m)); [|reflexivity].
    destruct (beforeFlattenRead (layers m)); [|reflexivity].
    destruct H; [lia|]. destruct W; [lia|]. reflexivity. }
  split.
  { unfold reluCam. rewrite length_map, length_seq. exact Eh. }
  intros y x Hy Hx. split.
  { unfold reluCam.
    rewrite nth_map_seq by (rewrite Eh; exact Hy).
    rewrite length_map, length_seq. exact Ew. }
  rewrite reluCam_cell by (rewrite ?Eh, ?Ew; assumption).
  destruct (hasShape_cell (y := y) (x := x) Sh Hy Hx) as [_ Fc]. fold d in Fc.
  unfold weightedSum, at3. rewrite Ef, <- Fc.
  pose proof (index_loop_sum (nth x (nth y d []) []) [] 0) as L.
  simpl in L. rewrite L.
  rewrite fold_left_filterSum.
  apply Q.max_compat; [reflexivity|]. lra.
Qed.


(** *** The colour map *)

Lemma round_lower (z : Z) (q : Q) :
  inject_Z z <= q -> (z <= JS.Math_round q)%Z.
Proof.
  intros H. unfold JS.Math_round.
  rewrite <- (Qfloor_Z z). apply Qfloor_resp_le. lra.
Qed.

Lemma round_upper (z : Z) (q : Q) :
  q < inject_Z z + (1 # 2) -> (JS.Math_round q <= z)%Z.
Proof.
  intros H. unfold JS.Math_round.
  pose proof (Qfloor_le (q + (1 # 2))) as F.
  assert (L : inject_Z (Qfloor (q + (1 # 2))) < inject_Z (z + 1)).
  { rewrite inject_Z_plus. change (inject_Z 1) with 1. lra. }
  rewrite <- Zlt_Qlt in L. lia.
Qed.

Lemma colours_of_zero :
  camColor 0 = mkRGB 0 0 0 /\ hotColor 0 = mkRGB 0 0 0.
Proof. split; reflexivity. Qed.

Lemma red_full_from_third (v : Q) :
  1 # 3 <= v -> red (camColor v) = 255%Z /\ (255 <= red (hotColor v))%Z.
Proof.
  intros H. simpl. split.
  - assert (255 <= JS.Math_round (v * 3 * 255))%Z.
    { apply round_lower. change (inject_Z 255) with 255. lra. }
    lia.
  - apply round_lower. change (inject_Z 255) with 255.
    pose proof (Q.min_glb 1 (v * 3) 1) as G.
    assert (1 <= Qmin 1 (v * 3)) by (apply G; lra). lra.
Qed.

Lemma green_full_from_two_thirds (v : Q) :
  2 # 3 <= v -> green (camColor v) = 255%Z /\ (255 <= green (hotColor v))%Z.
Proof.
  intros H. simpl. split.
  - assert (255 <= JS.Math_round (Qmax 0 (v - 0.33) * 3 * 255))%Z.
    { apply round_lower. change (inject_Z 255) with 255.
      pose proof (Q.le_max_r 0 (v - 0.33)). lra. }
    lia.
  - apply round_lower. change (inject_Z 255) with 255.
    assert (1 <= Qmin 1 ((v - 0.33) * 3)) by (apply Q.min_glb; lra).
    pose proof (Q.le_max_r 0 (Qmin 1 ((v - 0.33) * 3))). lra.
Qed.

(** On the whole interval the blue channel stays below 253. *)
Lemma blue_at_most_252 (v : Q) :
  v <= 1 -> (blue (camColor v) <= 252)%Z /\ (blue (hotColor v) <= 252)%Z.
Proof.
  intros H. simpl. split.
  - assert (JS.Math_round (Qmax 0 (v - 0.67) * 3 * 255) <= 252)%Z.
    { apply round_upper. change (inject_Z 252) with 252.
      assert (Qmax 0 (v - 0.67) <= 0.33) by (apply Q.max_lub; lra). lra. }
    lia.
  - apply round_upper. change (inject_Z 252) with 252.
    assert (Qmin 1 ((v - 0.67) * 3) <= 0.99).
    { eapply Qle_trans; [apply Q.le_min_r|]. lra. }
    assert (Qmax 0 (Qmin 1 ((v - 0.67) * 3)) <= 0.99) by (apply Q.max_lub; lra).
    lra.
Qed.

Lemma channels_clamped (v : Q) :
  0 <= v ->
  let c := camColor v in
  let h := hotColor v in
  (0 <= red c <= 255 /\ 0 <= green c <= 255 /\ 0 <= blue c <= 255)%Z
  /\ (0 <= red h <= 255 /\ 0 <= green h <= 255 /\ 0 <= blue h <= 255)%Z.
Proof.
  intros H. simpl.
  assert (R0 : (0 <= JS.Math_round (v * 3 * 255))%Z).
  { apply round_lower. change (inject_Z 0) with 0. lra. }
  assert (G0 : (0 <= JS.Math_round (Qmax 0 (v - 0.33) * 3 * 255))%Z).
  { apply round_lower. change (inject_Z 0) with 0.
    pose proof (Q.le_max_l 0 (v - 0.33)). lra. }
  assert (B0 : (0 <= JS.Math_round (Qmax 0 (v - 0.67) * 3 * 255))%Z).
  { apply round_lower. change (inject_Z 0) with 0.
    pose proof (Q.le_max_l 0 (v - 0.67)). lra. }
  assert (Unit : forall q, 0 <= q <= 1 ->
            (0 <= JS.Math_round (255 * q) <= 255)%Z).
  { intros q [Q0 Q1]. split.
    - apply round_lower. change (inject_Z 0) with 0. lra.
    - apply round_upper. change (inject_Z 255) with 255. lra. }
  split; [lia|].
  repeat split; apply Unit.
  - split; [apply Q.min_glb; lra|apply Q.le_min_l].
  - split; [apply Q.min_glb; lra|apply Q.le_min_l].
  - split; [apply Q.le_max_l|].
    apply Q.max_lub; [lra|apply Q.le_min_l].
  - split; [apply Q.le_max_l|].
    apply Q.max_lub; [lra|apply Q.le_min_l].
  - split; [apply Q.le_max_l|].
    apply Q.max_lub; [lra|apply Q.le_min_l].
  - split; [apply Q.le_max_l|].
    apply Q.max_lub; [lra|apply Q.le_min_l].
Qed.

(** C6.  At the top of the scale, [v = 1], both colour maps give red 255,
    green 255 and blue 252: the blue ramp starts at 0.67 and has slope 3,
    so it ends at 0.99 of the full intensity. *)
Theorem hot_colour_at_one :
  camColor 1 = mkRGB 255 255 252 /\ hotColor 1 = mkRGB 255 255 252.
Proof. split; reflexivity. Qed.

End CamFacts.


(** Two convolutions around a pooling layer, then [Flatten] and [Dense],
    and a 2 by 2 activation with two filters. *)
Lemma cam_score_is_relu_of_filter_sum_witness :
  let m := Cam.mkModel [Cam.Conv2D; Cam.MaxPooling2D; Cam.Conv2D; Cam.Flatten; Cam.Dense]
             (fun (_ : nat) (_ : unit) =>
                [[[1; -2]; [3; 4]]; [[0; 0]; [-1; -7]]]%Q) in
  Cam.lastConvLayer (Cam.layers m) = Some 2%nat
  /\ Cam.computeCAM m tt = Cam.normalize (Cam.reluCam (Cam.layerOutput m 2 tt))
  /\ (nth 1 (nth 0 (Cam.reluCam (Cam.layerOutput m 2 tt)) []) 0
      == Qmax 0 (3 + 4 + 0))%Q
  /\ (nth 1 (nth 1 (Cam.reluCam (Cam.layerOutput m 2 tt)) []) 0 == 0)%Q.
Proof.
  intros m. split; [reflexivity|].
  assert (Sh : Cam.hasShape (Cam.layerOutput m 2 tt) 2 2 2)
    by (split; [reflexivity|repeat constructor]).
  destruct (@cam_score_is_relu_of_filter_sum unit m tt 2 2 2 2 eq_refl Sh
              ltac:(lia) ltac:(lia)) as (_ & Hcam & _ & Hcell).
  split; [exact Hcam|]. split.
  - apply (Hcell 0%nat 1%nat); lia.
  - destruct (Hcell 1%nat 1%nat) as [_ Hc]; [lia|lia|].
    rewrite Hc. reflexivity.
Defined.

(** A convolution followed at once by the dense layer: no [Flatten] layer
    is found, the layer before it is [undefined], and the call ends in the
    [catch] clause without a map. *)
Lemma computeCAM_needs_flatten :
  Cam.computeCAM (Cam.mkModel [Cam.Conv2D; Cam.Dense]
                    (fun (_ : nat) (_ : unit) => [[[1]]]%Q)) tt = None.
Proof. reflexivity. Qed.

(* ------------------------------------------------------------------------- *)
(** ** Facts about the training loop *)

Section TrainFacts.

Import Train.

Variable E : Env.

Implicit Types (s : State E) (r : Run E) (h : TrainingHistory E).

Ltac bools :=
  repeat match goal with
    | H : (_ <? _) = true |- _ => apply Z.ltb_lt in H
    | H : (_ <? _) = false |- _ => apply Z.ltb_ge in H
    | H : Nat.ltb _ _ = true |- _ => apply Nat.ltb_lt in H
    | H : Nat.ltb _ _ = false |- _ => apply Nat.ltb_ge in H
    | H : _ && _ = true |- _ => apply andb_true_iff in H; destruct H
    | H : _ && _ = false |- _ => apply andb_false_iff in H
    | H : negb _ = true |- _ => apply negb_true_iff in H
    | H : negb _ = false |- _ => apply negb_false_iff in H
    end.

(** *** The invariant is kept by every stretch of the loop *)

Lemma sumsOK_reset r : sumsOK (resetEpoch r).
Proof. repeat split. Qed.

Lemma sumsOK_accumulate r (l a : num E) :
  sumsOK r -> sumsOK (accumulate r l a).
Proof.
  intros (HL & HA & HC). unfold sumsOK; simpl.
  rewrite !map_app, !fold_left_app, length_app; simpl.
  rewrite <- HL, <- HA, HC. repeat split. lia.
Qed.

Lemma finish_Inv s r :
  sameLength (trainingHistory (hook s)) ->
  histLen (history r) (completedEpochs r) ->
  (completedEpochs r <= epochs r)%nat ->
  stopTrainingRef (hook s) = true \/ completedEpochs r = epochs r ->
  Inv (finish s r).
Proof.
  intros Hh Hr Hle Hd. unfold Inv, finish, suspend; simpl.
  split; [exact Hh|]. split; [split; assumption|]. intros _; exact Hd.
Qed.

Lemma afterBatches_Inv s r :
  sameLength (trainingHistory (hook s)) -> inEpoch r ->
  stopTrainingRef (hook s) = true \/ batchCount r = Z.to_nat (nBatches r) ->
  Inv (afterBatches s r).
Proof.
  intros Hh (Hl & Hc & He & Hs) Hd. unfold afterBatches.
  destruct (stopTrainingRef (hook s)) eqn:St.
  - apply finish_Inv; auto. lia.
  - destruct Hd as [Hd|Hd]; [discriminate|].
    destruct (disposed s (activeModel r)); unfold Inv, suspend, runInv; simpl;
      (split; [exact Hh|]); (split; [|discriminate]); auto.
Qed.

Lemma batchBody_Inv s r :
  sameLength (trainingHistory (hook s)) -> inEpoch r ->
  batchCount r = batch r -> Z.of_nat (batch r) < nBatches r ->
  Inv (batchBody s r).
Proof.
  intros Hh HE Hb Hn. unfold batchBody.
  destruct (stopTrainingRef (hook s)) eqn:St.
  - apply afterBatches_Inv; auto.
  - destruct HE as (Hl & Hc & He & Hs).
    destruct (Mnist.getBatch _ _ _ _) as [b|];
      [destruct (disposed s (activeModel r));
       [|destruct (trainOnBatch E (heap s (activeModel r)) b) as [w res]]|];
      unfold Inv, suspend, runInv; simpl;
      (split; [exact Hh|]); (split; [|discriminate]); auto 10.
Qed.

Lemma batchWait_Inv s r :
  sameLength (trainingHistory (hook s)) -> inEpoch r ->
  batchCount r = batch r -> Z.of_nat (batch r) < nBatches r ->
  Inv (batchWait s r).
Proof.
  intros Hh HE Hb Hn. unfold batchWait.
  destruct (pauseTrainingRef (hook s) && negb (stopTrainingRef (hook s))).
  - destruct HE as (Hl & Hc & He & Hs).
    unfold Inv, suspend, runInv; simpl.
    split; [exact Hh|]. split; [|discriminate]. auto 10.
  - apply batchBody_Inv; assumption.
Qed.

Lemma batchHead_Inv s r :
  sameLength (trainingHistory (hook s)) -> inEpoch r ->
  batchCount r = batch r -> Z.of_nat (batch r) <= Z.max 0 (nBatches r) ->
  Inv (batchHead s r).
Proof.
  intros Hh HE Hb Hn. unfold batchHead.
  destruct (Z.of_nat (batch r) <? nBatches r) eqn:Lt; bools.
  - destruct (stopTrainingRef (hook s)) eqn:St.
    + apply afterBatches_Inv; auto.
    + apply batchWait_Inv; assumption.
  - apply afterBatches_Inv; auto. right. lia.
Qed.

Lemma afterTrain_Inv s r (res : TrainResult (num E)) :
  sameLength (trainingHistory (hook s)) -> inEpoch r ->
  batchCount r = batch r -> Z.of_nat (batch r) < nBatches r ->
  Inv (afterTrain s r res).
Proof.
  intros Hh (Hl & Hc & He & Hs) Hb Hn. unfold afterTrain.
  pose proof (@sumsOK_accumulate r (batchLossOf E res) (batchAccOf E res) Hs) as Hs'.
  destruct (Nat.eqb (batch r mod 10) 0).
  - unfold Inv, suspend, runInv; simpl.
    split; [exact Hh|]. split; [|discriminate].
    split; [exact Hl|].
    refine (conj Hc (conj He (conj Hs' (conj _ Hn)))). lia.
  - apply batchHead_Inv; simpl; try assumption.
    + exact (conj Hl (conj Hc (conj He Hs'))).
    + lia.
    + lia.
Qed.

Lemma epochWait_Inv s r :
  sameLength (trainingHistory (hook s)) ->
  histLen (history r) (completedEpochs r) ->
  completedEpochs r = epoch r -> (epoch r < epochs r)%nat ->
  Inv (epochWait s r).
Proof.
  intros Hh Hl Hc He. unfold epochWait.
  destruct (pauseTrainingRef (hook s) && negb (stopTrainingRef (hook s))).
  - unfold Inv, suspend, runInv; simpl.
    split; [exact Hh|]. split; [|discriminate]. auto.
  - destruct (stopTrainingRef (hook s)) eqn:St.
    + apply finish_Inv; auto. lia.
    + apply batchHead_Inv; simpl; auto.
      * exact (conj Hl (conj Hc (conj He (sumsOK_reset r)))).
      * lia.
Qed.

Lemma epochHead_Inv s r :
  sameLength (trainingHistory (hook s)) ->
  histLen (history r) (completedEpochs r) ->
  completedEpochs r = epoch r -> (epoch r <= epochs r)%nat ->
  Inv (epochHead s r).
Proof.
  intros Hh Hl Hc He. unfold epochHead.
  destruct (Nat.ltb (epoch r) (epochs r)) eqn:Lt; bools.
  - destruct (stopTrainingRef (hook s)) eqn:St.
    + apply finish_Inv; auto. lia.
    + apply epochWait_Inv; assumption.
  - apply finish_Inv; auto; lia.
Qed.

Lemma histLen_record r (a b c d : num E) :
  histLen (history r) (completedEpochs r) ->
  histLen (history (record r a b c d)) (S (completedEpochs r)).
Proof.
  intros (H1 & H2 & H3 & H4). unfold histLen; simpl.
  rewrite !length_app; simpl. lia.
Qed.

Lemma afterValidation_Inv s r (v : num E * num E) :
  histLen (history r) (completedEpochs r) ->
  completedEpochs r = epoch r -> (epoch r < epochs r)%nat ->
  Inv (afterValidation s r v).
Proof.
  intros Hl Hc He. unfold afterValidation. destruct v as [vl va].
  pose proof (@histLen_record r (div E (epochLoss r) (ofNat E (batchCount r)))
                (div E (epochAcc r) (ofNat E (batchCount r))) vl va Hl) as Hl'.
  unfold Inv, suspend, runInv; simpl.
  split.
  - destruct Hl' as (H1 & H2 & H3 & H4). unfold sameLength, histLen; simpl.
    simpl in *. repeat split; congruence.
  - split; [|discriminate]. split; [exact Hl'|]. simpl. lia.
Qed.

Lemma resume_Inv s : Inv s -> Inv (resume s).
Proof.
  intros HI. pose proof HI as Same. unfold resume.
  destruct (task s) as [r|] eqn:Ht; [|exact HI].
  destruct HI as [Hh HT]. rewrite Ht in HT. destruct HT as [[Hl Hp] Hd].
  destruct (pc r) eqn:Hpc.
  - destruct Hp as (Hc & He). apply epochWait_Inv; assumption.
  - destruct Hp as (Hc & He & Hs & Hb & Hn).
    apply batchWait_Inv; try assumption. exact (conj Hl (conj Hc (conj He Hs))).
  - destruct Hp as (Hc & He & Hs & Hb & Hn).
    apply afterTrain_Inv; try assumption. exact (conj Hl (conj Hc (conj He Hs))).
  - destruct Hp as (Hc & He & Hs & Hb & Hn).
    apply batchHead_Inv; simpl; try assumption.
    + exact (conj Hl (conj Hc (conj He Hs))).
    + lia.
  - unfold Inv, suspend, runInv; simpl.
    split; [exact Hh|]. split; [|discriminate]. split; assumption.
  - destruct Hp as (Hc & He & Hs & Hb).
    apply afterValidation_Inv; assumption.
  - destruct Hp as (Hc & He).
    apply epochHead_Inv; simpl; try assumption; lia.
  - exact Same.
  - exact Same.
Qed.

Lemma sameLength_empty : sameLength (emptyHistory E).
Proof. repeat split. Qed.

Lemma install_Inv s (src : ModelSource) (m : ModelId) (w : Weights E) :
  Inv s -> Inv (install s src m w).
Proof.
  intros [Hh HT]. unfold Inv, install; simpl.
  split; [apply sameLength_empty|exact HT].
Qed.

Lemma train_Inv s (n : nat) (b : Z) (mo : option ModelId) :
  Inv s -> Inv (train s n b mo).
Proof.
  intros HI. unfold train.
  destruct (match mo with Some m => Some m | None => model (hook s) end) as [m|];
    [|exact HI].
  destruct (dataRef (hook s)) as [d|]; [|exact HI].
  apply epochHead_Inv; simpl.
  - apply HI.
  - repeat split.
  - reflexivity.
  - lia.
Qed.

Lemma step_Inv (e : Event E) s : Inv s -> Inv (step e s).
Proof.
  intros HI. destruct e; simpl.
  - destruct HI as [Hh HT]. unfold Inv, stopTraining; simpl.
    split; [exact Hh|]. destruct (task s); [|exact I].
    split; [apply HT|]. intros _; left; reflexivity.
  - destruct HI as [Hh HT]. unfold Inv, pauseTraining; simpl.
    split; [exact Hh|]. exact HT.
  - apply install_Inv; exact HI.
  - destruct loaded as [[m w]|]; [apply install_Inv|]; exact HI.
  - destruct loaded as [[m w]|]; [apply install_Inv|]; exact HI.
  - exact HI.
  - destruct (isTraining (hook s)); [|apply train_Inv]; exact HI.
  - apply resume_Inv; exact HI.
Qed.

Lemma run_Inv (evs : list (Event E)) :
  forall s, Inv s -> Inv (run evs s).
Proof.
  induction evs as [|e evs IH]; intros s HI; simpl; [exact HI|].
  apply IH. apply step_Inv. exact HI.
Qed.

Lemma initial_Inv (w0 : Weights E) : Inv (initial E w0).
Proof. split; [apply sameLength_empty|exact I]. Qed.

(** *** Mean of the batches *)

Ltac segments :=
  unfold epochHead, epochWait, batchHead, batchWait, batchBody,
         afterBatches, afterTrain, afterValidation, finish, suspend.

Ltac branches :=
  repeat match goal with
    | |- context [if ?c then _ else _] => destruct c eqn:?
    | |- context [match Mnist.getBatch ?a ?b ?c ?d with _ => _ end] =>
        destruct (Mnist.getBatch a b c d) eqn:?
    | |- context [let '(_, _) := ?p in _] => destruct p eqn:?
    end.

(** The log of an epoch holds what [trainOnBatch] resolved to. *)

















(** *** The counter during a run *)

Lemma resume_tracked (t0 n : nat) s :
  tracked t0 n s -> tracked t0 n (resume s).
Proof.
  intros (r & Ht & Hn & Htr). unfold resume. rewrite Ht.
  destruct (pc r) eqn:Hpc; repeat segments; try destruct v; branches;
    unfold tracked; simpl;
    try (eexists; split; [reflexivity|]; simpl; split; [exact Hn|]; simpl; lia).
  - exists r. rewrite Hpc. auto.
  - exists r. rewrite Hpc. auto.
Qed.

Lemma step_tracked (t0 n : nat) (e : Event E) s :
  control e = true -> tracked t0 n s -> tracked t0 n (step e s).
Proof.
  intros Hc HT. destruct e; try discriminate; simpl.
  - destruct HT as (r & Ht & Hn & Htr). exists r. auto.
  - destruct HT as (r & Ht & Hn & Htr). exists r. auto.
  - apply resume_tracked; exact HT.
Qed.

Lemma run_tracked (t0 n : nat) (evs : list (Event E)) :
  forall s, forallb (@control E) evs = true ->
    tracked t0 n s -> tracked t0 n (run evs s).
Proof.
  induction evs as [|e evs IH]; intros s Hc HT; simpl; [exact HT|].
  simpl in Hc. apply andb_true_iff in Hc. destruct Hc as [He Hc].
  apply IH; [exact Hc|]. apply step_tracked; assumption.
Qed.

Lemma train_tracked s (n : nat) (b : Z) (mo : option ModelId) :
  ready s mo = true ->
  tracked (trainedEpochs (hook s)) n (train s n b mo).
Proof.
  intros Hr. unfold ready in Hr. unfold train.
  destruct mo as [m|]; destruct (model (hook s)) as [m'|];
    destruct (dataRef (hook s)) as [d|]; try discriminate;
    repeat segments; branches; unfold tracked; simpl;
    (eexists; split; [reflexivity|]; simpl; split; [reflexivity|]; simpl; lia).
Qed.

(** *** Flags *)


Lemma resume_keeps_flags s :
  stopTrainingRef (hook (resume s)) = stopTrainingRef (hook s)
  /\ pauseTrainingRef (hook (resume s)) = pauseTrainingRef (hook s).
Proof.
  unfold resume. destruct (task s) as [r|]; [|auto].
  destruct (pc r); repeat segments; try destruct v; branches; simpl; auto.
Qed.

Lemma run_no_stop (evs : list (Event E)) :
  forall s, forallb (@control E) evs = true ->
    existsb (@isStop E) evs = false ->
    stopTrainingRef (hook s) = false ->
    stopTrainingRef (hook (run evs s)) = false.
Proof.
  induction evs as [|e evs IH]; intros s Hc Hn Hs; simpl; [exact Hs|].
  simpl in Hc, Hn. apply andb_true_iff in Hc. destruct Hc as [He Hc].
  apply orb_false_iff in Hn. destruct Hn as [Hne Hn].
  apply IH; try assumption.
  destruct e; try discriminate; simpl; auto.
  rewrite (proj1 (resume_keeps_flags s)). exact Hs.
Qed.

Lemma train_clears_stop s (n : nat) (b : Z) (mo : option ModelId) :
  ready s mo = true ->
  stopTrainingRef (hook (train s n b mo)) = false.
Proof.
  intros Hr. unfold ready in Hr. unfold train.
  destruct mo as [m|]; destruct (model (hook s)) as [m'|];
    destruct (dataRef (hook s)) as [d|]; try discriminate;
    repeat segments; branches; simpl; auto.
Qed.

(** *** After a stop in the batch phase *)

Ltac flags :=
  cbn [hook withHook withTask stopTrainingRef pauseTrainingRef
       setTrainingProgress] in *.

Ltac stopped_leaf :=
  unfold stopping; simpl; (repeat split; try assumption);
  eexists; (split; [reflexivity|]); simpl; auto.

Lemma resume_stopping (c : nat) h (t x y k : nat) s :
  stopping c h t x y k s ->
  exists j, (j <= k - 1)%nat /\ stopping c h t x y j (resume s).
Proof.
  intros (Hs & Hx & Hy & r & Ht & Hc & Hh & Hk).
  destruct k as [|[|k]].
  - exists O. split; [lia|]. destruct Hk as [Hpc Htr].
    unfold resume. rewrite Ht, Hpc.
    unfold stopping. repeat split; try assumption. exists r. auto.
  - exists O. split; [lia|]. destruct Hk as [Hpc Htr].
    unfold resume. rewrite Ht, Hpc. repeat segments. flags.
    rewrite ?Hs. branches; stopped_leaf.
  - destruct Hk as [Hpc Htr]. unfold resume. rewrite Ht.
    destruct (pc r) eqn:Hp; try discriminate; repeat segments; flags;
      rewrite ?Hs, ?andb_false_r; branches;
      first [ exists 1%nat; split; [lia|]; solve [stopped_leaf]
            | exists O; split; [lia|]; solve [stopped_leaf] ].
Qed.

Lemma command_stopping (c : nat) h (t x y k : nat) (e : Event E) s :
  control e = true -> isResume e = false ->
  stopping c h t x y k s -> stopping c h t x y k (step e s).
Proof.
  intros Hc Hr (Hs & Hx & Hy & r & Ht & Hcc & Hh & Hk).
  destruct e; try discriminate; simpl;
    unfold stopping; simpl; (repeat split; try assumption);
    exists r; auto.
Qed.

Lemma run_stopping (c : nat) h (t x y : nat) (post : list (Event E)) :
  forall k s, forallb (@control E) post = true ->
    stopping c h t x y k s -> (k <= resumes post)%nat ->
    stopping c h t x y O (run post s).
Proof.
  induction post as [|e post IH]; intros k s Hc Hst Hk; simpl.
  - unfold resumes in Hk; simpl in Hk. replace k with O in Hst by lia. exact Hst.
  - simpl in Hc. apply andb_true_iff in Hc. destruct Hc as [He Hc].
    destruct (isResume e) eqn:Hr.
    + assert (e = EResume E) by (destruct e; try discriminate; reflexivity).
      subst e. simpl.
      destruct (resume_stopping Hst) as (j & Hj & Hst').
      apply (IH j); try assumption.
      unfold resumes in *; simpl in Hk. lia.
    + apply (IH k); try assumption.
      * apply command_stopping; assumption.
      * unfold resumes in *; simpl in Hk. rewrite Hr in Hk. exact Hk.
Qed.

(** *** A run that nothing holds up comes to its end *)

Lemma getBatch_in_epoch (d : MNISTData E) (bs : Z) (b : nat) :
  wellFormed d -> 1 <= bs ->
  Z.of_nat b < Mnist.numBatches (numTrain d) bs ->
  Mnist.getBatch (trainImages d) (trainLabels d) bs (Z.of_nat b) <> None.
Proof.
  intros [Hn Hl] Hbs Hb.
  pose proof (@numBatches_ceiling (numTrain d) bs ltac:(lia)) as [Lo _].
  assert (1 <= numTrain d) by nia.
  rewrite (@getBatch_defined _ _ (trainImages d) (trainLabels d) bs (Z.of_nat b));
    try lia; try assumption. discriminate.
Qed.

Ltac onward_leaf :=
  unfold onward, suspend; simpl;
  eexists; split; [reflexivity|]; simpl;
  split; [assumption|]; split; [exact I|];
  unfold remaining, rest, batchesLeft, perEpoch in *; simpl in *; try lia.

Lemma finish_onward s r (M : nat) :
  sound s r -> (0 < M)%nat -> onward M (finish s r).
Proof.
  intros So HM. unfold finish. onward_leaf.
Qed.

Lemma afterBatches_onward s r (M : nat) :
  sound s r -> (rest r + 3 < M)%nat -> onward M (afterBatches s r).
Proof.
  intros So HM. pose proof So as (Hs & Hp & Hwf & Hbs & HnB & Hd).
  unfold afterBatches. rewrite Hs, Hd. onward_leaf.
Qed.

Lemma batchBody_onward s r (M : nat) :
  sound s r -> Z.of_nat (batch r) < nBatches r ->
  (rest r + 2 * batchesLeft r + 3 < M)%nat -> onward M (batchBody s r).
Proof.
  intros So Hb HM. pose proof So as (Hs & Hp & Hwf & Hbs & HnB & Hd).
  unfold batchBody. rewrite Hs, Hd.
  destruct (Mnist.getBatch _ _ _ _) as [b|] eqn:G.
  - destruct (trainOnBatch E (heap s (activeModel r)) b) as [w res].
    onward_leaf.
  - exfalso. refine (@getBatch_in_epoch (data r) (batchSize r) (batch r) Hwf Hbs _ G).
    rewrite <- HnB. exact Hb.
Qed.

Lemma batchHead_onward s r (M : nat) :
  sound s r -> (rest r + 2 * batchesLeft r + 3 < M)%nat ->
  onward M (batchHead s r).
Proof.
  intros So HM. pose proof So as (Hs & Hp & Hwf & Hbs & HnB & Hd).
  unfold batchHead, batchWait. rewrite Hs, Hp. cbn [andb negb].
  destruct (Z.of_nat (batch r) <? nBatches r) eqn:Lt; bools.
  - apply batchBody_onward; assumption.
  - apply afterBatches_onward; [assumption|]. lia.
Qed.

Lemma sound_progress s r r' (p : TrainingProgress E) :
  activeModel r' = activeModel r -> data r' = data r ->
  batchSize r' = batchSize r -> nBatches r' = nBatches r ->
  sound s r -> sound (withHook s (setTrainingProgress (hook s) p)) r'.
Proof.
  intros E1 E2 E3 E4 (Hs & Hp & Hwf & Hbs & HnB & Hd).
  unfold sound; simpl. rewrite E1, E2, E3, E4. auto 10.
Qed.

Lemma afterTrain_onward s r (res : TrainResult (num E)) :
  sound s r -> Z.of_nat (batch r) < nBatches r ->
  onward (rest r + 2 * batchesLeft r + 3) (afterTrain s r res).
Proof.
  intros So Hb. unfold afterTrain.
  destruct (Nat.eqb (batch r mod 10) 0).
  - unfold onward, suspend; simpl.
    eexists; split; [reflexivity|]. split.
    + apply sound_progress with (r := r); auto.
    + simpl. split; [exact I|].
      unfold remaining, rest, batchesLeft, perEpoch; simpl. lia.
  - apply batchHead_onward.
    + apply sound_progress with (r := r); auto.
    + unfold rest, batchesLeft, perEpoch; simpl. lia.
Qed.

Lemma epochHead_onward s r (M : nat) :
  sound s r -> ((epochs r - epoch r) * perEpoch r <= M)%nat -> (0 < M)%nat ->
  onward M (epochHead s r).
Proof.
  intros So HM H0. pose proof So as (Hs & Hp & Hwf & Hbs & HnB & Hd).
  unfold epochHead, epochWait. rewrite Hs, Hp. cbn [andb negb].
  destruct (Nat.ltb (epoch r) (epochs r)) eqn:Lt; bools.
  - apply batchHead_onward; [exact So|].
    replace (epochs r - epoch r)%nat with (S (epochs r - epoch r - 1)) in HM by lia.
    unfold rest, batchesLeft, perEpoch in *; simpl in *. lia.
  - apply finish_onward; assumption.
Qed.

Lemma resume_onward s r :
  steady s -> task s = Some r -> pc r <> PDone E -> runInv r ->
  onward (remaining r) (resume s).
Proof.
  intros (r0 & Ht0 & So & Hpc) Ht Hnd [_ HrI].
  rewrite Ht in Ht0. injection Ht0 as <-.
  unfold resume. rewrite Ht.
  destruct (pc r) eqn:Hp0; try contradiction; try congruence;
    unfold remaining; rewrite Hp0.
  - apply afterTrain_onward; [exact So|]. apply HrI.
  - apply batchHead_onward; [exact So|].
    destruct HrI as (_ & _ & _ & _ & Hb).
    unfold rest, batchesLeft, perEpoch; simpl. lia.
  - unfold onward, suspend; simpl.
    eexists; split; [reflexivity|]. split; [exact So|]. split; [exact I|].
    unfold remaining; simpl. unfold rest, perEpoch; simpl. lia.
  - unfold afterValidation. destruct v as [vl va].
    unfold onward, suspend; simpl.
    eexists; split; [reflexivity|]. split; [exact So|]. split; [exact I|].
    unfold remaining; simpl. unfold rest, perEpoch; simpl. lia.
  - apply epochHead_onward; [exact So| |lia].
    unfold rest, perEpoch; simpl.
    replace (epochs r - S (epoch r))%nat with (epochs r - epoch r - 1)%nat by lia.
    lia.
Qed.

Lemma PC_done_dec (p : PC E) : p = PDone E \/ p <> PDone E.
Proof. destruct p; (left; reflexivity) || (right; discriminate). Qed.


Lemma resume_done s r :
  task s = Some r -> pc r = PDone E -> resume s = s.
Proof.
  intros Ht Hp. unfold resume. rewrite Ht, Hp. reflexivity.
Qed.

(** A steady run returns after at most [M] resumptions. *)
Lemma steady_run_finishes (M : nat) :
  forall s, Inv s -> onward (S M) s ->
    finished (run (repeat (EResume E) M) s)
    /\ Inv (run (repeat (EResume E) M) s)
    /\ stopTrainingRef (hook (run (repeat (EResume E) M) s)) = false.
Proof.
  induction M as [|M IH]; intros s HI (r & Ht & So & Hpc & HM).
  - simpl. split; [|split; [exact HI|apply So]].
    exists r. split; [exact Ht|].
    unfold remaining in HM. destruct (pc r); try contradiction; try lia.
    reflexivity.
  - simpl. pose proof HI as [_ HT].
    rewrite Ht in HT. destruct HT as [HrI _].
    apply IH; [apply resume_Inv; exact HI|].
    destruct (PC_done_dec (pc r)) as [Hd|Hd].
    + rewrite (@resume_done s r Ht Hd). exists r.
      repeat split; try assumption; try apply So.
      unfold remaining. rewrite Hd. lia.
    + assert (St : steady s) by (exists r; auto).
      destruct (@resume_onward s r St Ht Hd HrI) as (r' & Ht' & So' & Hpc' & HM').
      exists r'. repeat split; try assumption; try apply So'. lia.
Qed.

Lemma train_onward s (n : nat) (b : Z) (mo : option ModelId)
    (m : ModelId) (d : MNISTData E) :
  modelOf s mo = Some m -> dataRef (hook s) = Some d ->
  wellFormed d -> 1 <= b -> disposed s m = false ->
  onward (S (n * (2 * Z.to_nat (Mnist.numBatches (numTrain d) b) + 4)))
         (train s n b mo).
Proof.
  intros Hm Hd Hwf Hb Hdis. unfold train. unfold modelOf in Hm.
  rewrite Hm, Hd. apply epochHead_onward.
  - unfold sound; simpl. auto 10.
  - unfold perEpoch; simpl. rewrite Nat.sub_0_r. lia.
  - lia.
Qed.

Lemma batchPhase_runInv r :
  runInv r -> batchPhase (pc r) = true ->
  histLen (history r) (epoch r) /\ completedEpochs r = epoch r.
Proof.
  intros [Hl Hp] Hb.
  assert (Hc : completedEpochs r = epoch r)
    by (destruct (pc r); try discriminate; apply Hp).
  rewrite <- Hc. auto.
Qed.

Lemma completedAll_intro (s0 s2 : State E) r (n : nat) :
  task s2 = Some r -> pc r = PDone E ->
  histLen (history r) (completedEpochs r) -> completedEpochs r = n ->
  trainedEpochs (hook s2) = (trainedEpochs (hook s0) + completedEpochs r)%nat ->
  completedAll s0 s2 n.
Proof.
  intros Ht Hp Hl Hn Htr. exists r. subst n. auto 10.
Qed.

(** *** Stopping a run, and letting it complete *)

(** C1, as the code has it.  Let a run of [n] epochs be started on a
    loaded model and data set, and let it be steered by stop, pause and
    resumption only.  (1) If [stopTraining] is called while the call is
    suspended in the batch phase of its epoch of number [k], that is
    before the check that follows the batch loop, then after two more
    resumptions the call has returned, neither [trainOnBatch] nor
    [evaluate] was called again, the returned history has [k - 1]
    records and [trainedEpochs] has grown by [k - 1].  (2) If the call
    has returned and no stop was requested, the history has [n] records
    and [trainedEpochs] has grown by [n].  (3) On well-formed data, with
    batches of at least one row and a model that is not disposed, a run
    that is only resumed does return. *)
Theorem stop_in_batch_phase_drops_epoch (w0 : Weights E)
    (evs0 pre : list (Event E)) (n : nat) (b : Z) (mo : option ModelId) :
  let s0 := run evs0 (initial E w0) in
  let s1 := run (ETrain E n b mo :: pre) s0 in
  isTraining (hook s0) = false -> ready s0 mo = true ->
  forallb (@control E) pre = true ->
  (forall r1 (post : list (Event E)),
      task s1 = Some r1 -> batchPhase (pc r1) = true ->
      forallb (@control E) post = true -> (2 <= resumes post)%nat ->
      stoppedIn s0 s1 (run (EStop E :: post) s1) (S (epoch r1)))
  /\ (existsb (@isStop E) pre = false -> finished s1 ->
      completedAll s0 s1 n)
  /\ (forall (m : ModelId) (d : MNISTData E),
      modelOf s0 mo = Some m -> dataRef (hook s0) = Some d ->
      wellFormed d -> 1 <= b -> disposed s0 m = false ->
      exists N,
        completedAll s0 (run (ETrain E n b mo :: repeat (EResume E) N) s0) n).
Proof.
  intros s0 s1 Hidle Hready Hpre.
  assert (HI0 : Inv s0) by (apply run_Inv, initial_Inv).
  assert (Hstart : step (ETrain E n b mo) s0 = train s0 n b mo)
    by (simpl; rewrite Hidle; reflexivity).
  assert (Hs1 : s1 = run pre (train s0 n b mo))
    by (unfold s1; simpl; rewrite Hidle; reflexivity).
  assert (HI1 : Inv s1)
    by (rewrite Hs1; apply run_Inv, train_Inv; exact HI0).
  assert (HT1 : tracked (trainedEpochs (hook s0)) n s1)
    by (rewrite Hs1; apply run_tracked; [exact Hpre|];
        apply train_tracked; exact Hready).
  split; [|split].
  - intros r1 post Ht1 Hb Hpost Hres.
    destruct HI1 as [_ HT]. rewrite Ht1 in HT. destruct HT as [HrI _].
    destruct (batchPhase_runInv HrI Hb) as [Hlen Hce].
    destruct HT1 as (r & Ht & Hn & Htr). rewrite Ht1 in Ht.
    injection Ht as <-.
    assert (Htr' : trainedEpochs (hook s1) = trainedEpochs (hook s0))
      by (destruct (pc r1); try discriminate; exact Htr).
    assert (Hst : stopping (epoch r1) (history r1) (trainedEpochs (hook s0))
                    (calls s1) (evals s1) 2 (stopTraining s1)).
    { unfold stopping, stopTraining; simpl.
      repeat split. exists r1. auto. }
    destruct (@run_stopping _ _ _ _ _ post 2%nat _ Hpost Hst Hres)
      as (Hstop & Hx & Hy & r2 & Ht2 & Hc2 & Hh2 & Hp2 & Htr2).
    exists r2. simpl. rewrite Nat.sub_0_r.
    repeat split; try assumption; rewrite Hh2; apply Hlen.
  - intros Hns (r & Ht & Hp).
    assert (Hstop : stopTrainingRef (hook s1) = false).
    { rewrite Hs1. apply run_no_stop; try assumption.
      apply train_clears_stop; exact Hready. }
    destruct HI1 as [_ HT]. rewrite Ht in HT. destruct HT as [[Hl _] Hd].
    destruct (Hd Hp) as [Hd'|Hd']; [congruence|].
    destruct HT1 as (r' & Ht' & Hn & Htr). rewrite Ht in Ht'.
    injection Ht' as <-. rewrite Hp in Htr.
    apply (@completedAll_intro _ _ r); try assumption. congruence.
  - intros m d Hm Hd Hwf Hb Hdis.
    set (N := (n * (2 * Z.to_nat (Mnist.numBatches (numTrain d) b) + 4))%nat).
    exists N.
    assert (HIt : Inv (train s0 n b mo)) by (apply train_Inv; exact HI0).
    destruct (@steady_run_finishes N _ HIt (@train_onward s0 n b mo m d Hm Hd Hwf Hb Hdis))
      as ((r & Ht & Hp) & HIf & Hstop).
    assert (Hrun : run (ETrain E n b mo :: repeat (EResume E) N) s0
                   = run (repeat (EResume E) N) (train s0 n b mo))
      by (simpl; rewrite Hidle; reflexivity).
    rewrite Hrun.
    assert (HTf : tracked (trainedEpochs (hook s0)) n
                    (run (repeat (EResume E) N) (train s0 n b mo))).
    { apply run_tracked; [|apply train_tracked; exact Hready].
      clear. induction N; simpl; auto. }
    destruct HIf as [_ HT]. rewrite Ht in HT. destruct HT as [[Hl _] Hdone].
    destruct (Hdone Hp) as [Hd'|Hd']; [congruence|].
    destruct HTf as (r' & Ht' & Hn & Htr). rewrite Ht in Ht'.
    injection Ht' as <-. rewrite Hp in Htr.
    apply (@completedAll_intro _ _ r); try assumption. congruence.
Qed.

(** *** Pausing *)

Lemma resume_paused_calls s :
  paused s -> calls (resume s) = calls s.
Proof.
  intros [Hp Hs]. unfold resume. destruct (task s) as [r|]; [|reflexivity].
  destruct (pc r); repeat segments; try destruct v; flags;
    rewrite ?Hp, ?Hs; cbn [andb negb]; branches; reflexivity.
Qed.

Lemma resume_paused s : paused s -> paused (resume s).
Proof.
  intros [Hp Hs]. destruct (resume_keeps_flags s) as [F1 F2].
  split; congruence.
Qed.

Lemma resume_asleep s r :
  task s = Some r -> paused s ->
  pc r = PBatchSleep E \/ pc r = PEpochSleep E -> resume s = s.
Proof.
  intros Ht [Hp Hs] Hpc. unfold resume. rewrite Ht.
  destruct Hpc as [Hpc|Hpc]; rewrite Hpc;
    unfold epochWait, batchWait, suspend; rewrite Hp, Hs; cbn [andb negb];
    destruct s, r; simpl in *; subst; reflexivity.
Qed.

Lemma resumes_paused (n : nat) :
  forall s, paused s ->
    calls (run (repeat (EResume E) n) s) = calls s
    /\ paused (run (repeat (EResume E) n) s).
Proof.
  induction n as [|n IH]; intros s Hp; simpl; [auto|].
  destruct (IH (resume s) (resume_paused Hp)) as [Hc Hq].
  split; [|exact Hq]. rewrite Hc. apply resume_paused_calls; exact Hp.
Qed.

Lemma resumes_asleep (n : nat) s r :
  task s = Some r -> paused s ->
  pc r = PBatchSleep E \/ pc r = PEpochSleep E ->
  run (repeat (EResume E) n) s = s.
Proof.
  intros Ht Hp Hpc. induction n as [|n IH]; simpl; [reflexivity|].
  rewrite (@resume_asleep s r Ht Hp Hpc). exact IH.
Qed.

Lemma afterTrain_accumulates s r (res : TrainResult (num E)) :
  exists r',
    task (afterTrain s r res) = Some r'
    /\ batchCount r' = S (batchCount r)
    /\ epochLoss r' = add E (epochLoss r) (batchLossOf E res)
    /\ epochAcc r' = add E (epochAcc r) (batchAccOf E res)
    /\ batchLog r' = batchLog r ++ [(batchLossOf E res, batchAccOf E res)].
Proof.
  repeat segments. branches; simpl; eexists; (split; [reflexivity|]);
    simpl; auto.
Qed.

(** C2.  While the pause flag is set and the stop flag is not, however
    often the suspended call is resumed, [trainOnBatch] is not called
    again and the flags stay as they are; a call that has seen the pause
    at the check of the epoch loop or of the batch loop does not move at
    all, so that its batch index, its epoch and its sums stay the same;
    and a batch whose [trainOnBatch] is awaited when the pause is requested
    is completed: its loss and accuracy are added and counted. *)
Theorem paused_run_trains_no_batch s r (n : nat) :
  task s = Some r -> paused s ->
  calls (run (repeat (EResume E) n) s) = calls s
  /\ paused (run (repeat (EResume E) n) s)
  /\ (pc r = PBatchSleep E \/ pc r = PEpochSleep E ->
      run (repeat (EResume E) n) s = s)
  /\ (forall res, pc r = PAwaitTrain E res ->
      exists r',
        task (step (EResume E) s) = Some r'
        /\ batchCount r' = S (batchCount r)
        /\ epochLoss r' = add E (epochLoss r) (batchLossOf E res)
        /\ epochAcc r' = add E (epochAcc r) (batchAccOf E res)
        /\ calls (step (EResume E) s) = calls s).
Proof.
  intros Ht Hp.
  destruct (@resumes_paused n s Hp) as [Hc Hq].
  split; [exact Hc|]. split; [exact Hq|]. split.
  - intros Hpc. apply (@resumes_asleep n s r); assumption.
  - intros res Hpc. simpl.
    destruct (afterTrain_accumulates s r res) as (r' & Ht' & H1 & H2 & H3 & _).
    exists r'. rewrite (resume_paused_calls Hp).
    unfold resume. rewrite Ht, Hpc. auto.
Qed.

(** *** The published history *)

Lemma resume_completes s r r' :
  task s = Some r -> task (resume s) = Some r' ->
  completedEpochs r' = S (completedEpochs r) ->
  trainingHistory (hook (resume s)) = history r'.
Proof.
  unfold resume. intros Ht. rewrite Ht.
  destruct (pc r); repeat segments; try destruct v; branches; simpl;
    rewrite ?Ht; intros [= <-]; simpl; intros Hc; try lia; reflexivity.
Qed.

(** C9, as the code has it.  In every reachable state the four sequences
    of the published history have the same length.  That length is 0
    right after a model is created or loaded, a stop leaves the history
    as it is, and when an epoch completes the published history is the
    history of the run in progress, whose length is the number of epochs
    that run has completed. *)
Theorem published_history_lengths (w0 : Weights E) (evs : list (Event E)) :
  let s := run evs (initial E w0) in
  sameLength (trainingHistory (hook s))
  /\ (forall (src : ModelSource) (m : ModelId) (w : Weights E),
      histLen (trainingHistory (hook (install s src m w))) 0
      /\ trainedEpochs (hook (install s src m w)) = O)
  /\ trainingHistory (hook (step (EStop E) s)) = trainingHistory (hook s)
  /\ (forall r r',
      task s = Some r -> task (step (EResume E) s) = Some r' ->
      completedEpochs r' = S (completedEpochs r) ->
      trainingHistory (hook (step (EResume E) s)) = history r'
      /\ histLen (history r') (completedEpochs r')).
Proof.
  intros s.
  assert (HI : Inv s) by (apply run_Inv, initial_Inv).
  split; [apply HI|]. split; [|split; [reflexivity|]].
  - intros src m w. simpl. repeat split.
  - intros r r' Ht Ht' Hc. simpl in *.
    split; [apply (@resume_completes s r r'); assumption|].
    destruct (resume_Inv HI) as [_ HT]. rewrite Ht' in HT. apply HT.
Qed.

(** *** The flag that guards the Start button *)

Lemma resume_flag s :
  (idle s = false -> isTraining (hook s) = true) ->
  idle (resume s) = false -> isTraining (hook (resume s)) = true.
Proof.
  unfold idle, resume.
  destruct (task s) as [r|] eqn:Ht; [|rewrite Ht; intros _ H; discriminate H].
  destruct (pc r) eqn:Hp; intros H; try specialize (H eq_refl);
    repeat segments; try destruct v; branches; simpl;
    rewrite ?Ht, ?Hp; intros; try discriminate; assumption.
Qed.

Lemma train_flag s (n : nat) (b : Z) (mo : option ModelId) :
  (idle s = false -> isTraining (hook s) = true) ->
  idle (train s n b mo) = false -> isTraining (hook (train s n b mo)) = true.
Proof.
  intros H. unfold train.
  destruct (match mo with Some m => Some m | None => model (hook s) end);
    [|exact H].
  destruct (dataRef (hook s)); [|exact H].
  unfold idle. repeat segments. branches; simpl; intros; try discriminate;
    reflexivity.
Qed.

(** As long as a call of [train] is suspended, [isTraining] is set. *)
Lemma flag_set_while_suspended (w0 : Weights E) (evs : list (Event E)) :
  idle (run evs (initial E w0)) = false ->
  isTraining (hook (run evs (initial E w0))) = true.
Proof.
  assert (G : forall s,
             (idle s = false -> isTraining (hook s) = true) ->
             idle (run evs s) = false -> isTraining (hook (run evs s)) = true).
  { induction evs as [|e evs IH]; intros s H; simpl; [exact H|].
    apply IH. destruct e; simpl.
    - exact H.
    - exact H.
    - exact H.
    - destruct loaded as [[m w]|]; exact H.
    - destruct loaded as [[m w]|]; exact H.
    - exact H.
    - destruct (isTraining (hook s)) eqn:Tr.
      + intros _. exact Tr.
      + apply train_flag. rewrite Tr. exact H.
    - apply resume_flag; exact H. }
  apply G. discriminate.
Qed.

(** *** Replacing the model *)











End TrainFacts.

(* ------------------------------------------------------------------------- *)
(** ** The loop on the small instance *)

(** Two epochs over five rows in batches of two; the stop arrives while the
    second batch of the second epoch is awaited. *)
Lemma stop_in_batch_phase_drops_epoch_witness :
  let s0 := Demo.ready5 in
  let s1 := Train.run (Train.ETrain Demo.env 2 2 None
                         :: repeat (Train.EResume Demo.env) 9) s0 in
  let s2 := Train.run (Train.EStop Demo.env
                         :: repeat (Train.EResume Demo.env) 2) s1 in
  exists r1,
    Train.task s1 = Some r1 /\ Train.epoch r1 = 1%nat
    /\ Train.stoppedIn s0 s1 s2 (S (Train.epoch r1)).
Proof.
  intros s0 s1 s2. eexists. split; [vm_compute; reflexivity|].
  split; [reflexivity|].
  refine (proj1 (@stop_in_batch_phase_drops_epoch Demo.env 0%nat
                   [Train.ELoadData Demo.rows5; Train.EInit Demo.env 0%nat 0%nat]
                   (repeat (Train.EResume Demo.env) 9) 2 2 None _ _ _)
                _ (repeat (Train.EResume Demo.env) 2) _ _ _ _);
    vm_compute; try reflexivity; lia.
Defined.

(** One epoch of a single batch; the stop arrives while the validation loss
    is awaited, and the epoch is recorded all the same. *)
Lemma stop_during_validation_keeps_epoch : ~ Train.stopSpec Demo.env.
Proof.
  intros H.
  specialize (H 0%nat
                [Train.ELoadData Demo.rows5; Train.EInit Demo.env 0%nat 0%nat]
                (repeat (Train.EResume Demo.env) 2)
                (repeat (Train.EResume Demo.env) 3)
                1%nat 5 None 1%nat).
  cbv zeta in H.
  assert (Hin : Train.epochInProgress
                  (Train.run (Train.ETrain Demo.env 1 5 None
                                :: repeat (Train.EResume Demo.env) 2)
                             Demo.ready5) 1).
  { eexists. split; [vm_compute; reflexivity|]. split; reflexivity. }
  destruct (H eq_refl eq_refl eq_refl Hin eq_refl ltac:(vm_compute; lia))
    as (r2 & Ht & _ & _ & Hc & _).
  vm_compute in Ht. injection Ht as <-. vm_compute in Hc. discriminate.
Qed.

(** The pause arrives while the first batch is awaited. *)
Lemma paused_run_trains_no_batch_witness :
  let s := Train.run [Train.ETrain Demo.env 2 2 None; Train.EPause Demo.env]
                     Demo.ready5 in
  Train.calls (Train.run (repeat (Train.EResume Demo.env) 3) s) = Train.calls s
  /\ Train.paused (Train.run (repeat (Train.EResume Demo.env) 3) s).
Proof.
  intros s.
  assert (Ht : exists r, Train.task s = Some r)
    by (eexists; vm_compute; reflexivity).
  destruct Ht as [r Ht].
  destruct (@paused_run_trains_no_batch Demo.env s r 3 Ht
              (conj eq_refl eq_refl)) as (Hc & Hp & _).
  exact (conj Hc Hp).
Defined.


Lemma published_history_lengths_witness :
  let s := Train.run ([Train.ELoadData Demo.rows5;
                       Train.EInit Demo.env 0%nat 0%nat;
                       Train.ETrain Demo.env 2 2 None]
                        ++ repeat (Train.EResume Demo.env) 5)
                     (Train.initial Demo.env 0%nat) in
  exists r',
    Train.task (Train.step (Train.EResume Demo.env) s) = Some r'
    /\ Train.histLen (Train.history r') 1.
Proof.
  intros s.
  assert (H : exists r r',
             Train.task s = Some r
             /\ Train.task (Train.step (Train.EResume Demo.env) s) = Some r'
             /\ Train.completedEpochs r' = S (Train.completedEpochs r)).
  { do 2 eexists. split; [vm_compute; reflexivity|].
    split; [vm_compute; reflexivity|]. vm_compute. reflexivity. }
  destruct H as (r & r' & Ht & Ht' & Hc).
  destruct (@published_history_lengths Demo.env 0%nat
              ([Train.ELoadData Demo.rows5; Train.EInit Demo.env 0%nat 0%nat;
                Train.ETrain Demo.env 2 2 None]
                 ++ repeat (Train.EResume Demo.env) 5))
    as (_ & _ & _ & Hstep).
  destruct (Hstep r r' Ht Ht' Hc) as [_ Hlen].
  exists r'. split; [exact Ht'|].
  vm_compute in Ht'. injection Ht' as <-. exact Hlen.
Defined.

(** Two runs of one epoch each on the same model: the published history has
    one record, two epochs were completed on the model, and the counter of
    the hook says two as well. *)
Lemma second_run_restarts_history : ~ Train.historySpec Demo.env.
Proof.
  intros H.
  specialize (H 0%nat
                ([Train.ELoadData Demo.rows5; Train.EInit Demo.env 0%nat 0%nat]
                   ++ Train.ETrain Demo.env 1 5 None
                   :: repeat (Train.EResume Demo.env) 5
                   ++ Train.ETrain Demo.env 1 5 None
                   :: repeat (Train.EResume Demo.env) 5)).
  vm_compute in H. discriminate.
Qed.

Lemma second_run_counter :
  let s := Train.run (Train.ETrain Demo.env 1 5 None
                        :: repeat (Train.EResume Demo.env) 5
                        ++ Train.ETrain Demo.env 1 5 None
                        :: repeat (Train.EResume Demo.env) 5) Demo.ready5 in
  length (Train.loss (Train.trainingHistory (Train.hook s))) = 1%nat
  /\ Train.trainedEpochs (Train.hook s) = 2%nat
  /\ Train.epochsOnModel s = 2%nat.
Proof. vm_compute. auto. Qed.



(* ------------------------------------------------------------------------- *)
(** ** More facts about the batch slicer *)

Section EpochFacts.

Import Mnist.

Lemma firstn_plus {A : Type} (a b : nat) :
  forall l : list A, firstn (a + b) l = firstn a l ++ firstn b (skipn a l).
Proof.
  induction a as [|a IH]; intros l; simpl; [reflexivity|].
  destruct l as [|x l]; simpl.
  - rewrite firstn_nil. reflexivity.
  - rewrite IH. reflexivity.
Qed.

Lemma concat_chunks {A : Type} (l : list A) (b k : nat) :
  concat (map (fun i => firstn b (skipn (i * b) l)) (seq 0 k)) = firstn (k * b) l.
Proof.
  induction k as [|k IH]; [reflexivity|].
  rewrite seq_S, map_app, concat_app, IH. simpl.
  rewrite app_nil_r, (Nat.add_comm b (k * b)), firstn_plus. reflexivity.
Qed.

(** Inside an epoch the modulus does nothing: batch [i] starts at row
    [i * batchSize] and has [batchSize] rows, or what is left. *)
Lemma getBatch_in_epoch_rows {Img Lbl : Type} (imgs : list Img)
    (lbls : list Lbl) (b : Z) (i : nat) :
  length lbls = length imgs -> 1 <= b ->
  Z.of_nat i < numBatches (Z.of_nat (length imgs)) b ->
  getBatch imgs lbls b (Z.of_nat i)
  = Some (mkBatch (firstn (Z.to_nat b) (skipn (i * Z.to_nat b) imgs))
                  (firstn (Z.to_nat b) (skipn (i * Z.to_nat b) lbls))).
Proof.
  intros Hl Hb Hi.
  pose proof (@numBatches_ceiling (Z.of_nat (length imgs)) b ltac:(lia)) as [Lo _].
  assert (Hs : Z.of_nat i * b < Z.of_nat (length imgs)) by nia.
  assert (Hn : (1 <= length imgs)%nat) by nia.
  rewrite (@getBatch_defined _ _ imgs lbls b (Z.of_nat i)) by (assumption || lia).
  assert (S0 : startIndex (Z.of_nat (length imgs)) b (Z.of_nat i) = Z.of_nat i * b).
  { unfold startIndex, JS.rem. rewrite Z.rem_mod_nonneg by nia.
    apply Z.mod_small. nia. }
  unfold endIndex. rewrite S0.
  assert (E1 : Z.to_nat (Z.of_nat i * b) = (i * Z.to_nat b)%nat) by nia.
  rewrite E1.
  assert (Cut : forall (X : Type) (l : list X),
             length l = length imgs ->
             firstn (Z.to_nat (Z.min (Z.of_nat i * b + b) (Z.of_nat (length imgs))
                               - Z.of_nat i * b))
                    (skipn (i * Z.to_nat b) l)
             = firstn (Z.to_nat b) (skipn (i * Z.to_nat b) l)).
  { intros X l Hlen.
    destruct (Z.le_gt_cases (Z.of_nat i * b + b) (Z.of_nat (length imgs))) as [Le|Gt].
    - rewrite Z.min_l by lia. f_equal. lia.
    - rewrite Z.min_r by lia.
      rewrite !firstn_all2; try reflexivity; rewrite length_skipn; lia. }
  rewrite (Cut _ imgs eq_refl), (Cut _ lbls Hl). reflexivity.
Qed.

(** X1.  The batches that one epoch asks for are all there, and laid end to
    end they are the data set: every row is used once, in order, and images
    and labels stay aligned. *)
Theorem epoch_batches_cover_data {Img Lbl : Type} (imgs : list Img)
    (lbls : list Lbl) (batchSize : Z) :
  length lbls = length imgs -> 1 <= batchSize ->
  exists bts,
    Loader.epochBatches imgs lbls batchSize = map Some bts
    /\ concat (map (@images Img Lbl) bts) = imgs
    /\ concat (map (@labels Img Lbl) bts) = lbls
    /\ Forall (fun bt => length (labels bt) = length (images bt)) bts.
Proof.
  intros Hl Hb.
  set (nb := Z.to_nat (numBatches (Z.of_nat (length imgs)) batchSize)).
  set (b := Z.to_nat batchSize).
  exists (map (fun i => mkBatch (firstn b (skipn (i * b) imgs))
                                (firstn b (skipn (i * b) lbls)))
              (seq 0 nb)).
  pose proof (@numBatches_ceiling (Z.of_nat (length imgs)) batchSize ltac:(lia))
    as [_ Hi].
  assert (Hcover : (length imgs <= nb * b)%nat) by (unfold nb, b; nia).
  split; [|split; [|split]].
  - unfold Loader.epochBatches. fold nb. rewrite map_map.
    apply map_ext_in. intros i Hin. apply in_seq in Hin.
    apply getBatch_in_epoch_rows; try assumption. unfold nb in Hin. lia.
  - rewrite map_map. simpl. rewrite concat_chunks. apply firstn_all2. exact Hcover.
  - rewrite map_map. simpl. rewrite concat_chunks. apply firstn_all2. lia.
  - apply Forall_forall. intros bt Hin. apply in_map_iff in Hin.
    destruct Hin as (i & <- & _). simpl.
    rewrite !length_firstn, !length_skipn. lia.
Qed.

(** X2.  The batch index wraps around: adding the number of rows to it
    gives the same batch. *)
Theorem getBatch_wraps {Img Lbl : Type} (imgs : list Img) (lbls : list Lbl)
    (batchSize batchIndex : Z) :
  (1 <= length imgs)%nat -> 0 <= batchSize -> 0 <= batchIndex ->
  getBatch imgs lbls batchSize (batchIndex + Z.of_nat (length imgs))
  = getBatch imgs lbls batchSize batchIndex.
Proof.
  intros Hn Hb Hi.
  assert (S0 : startIndex (Z.of_nat (length imgs)) batchSize
                 (batchIndex + Z.of_nat (length imgs))
               = startIndex (Z.of_nat (length imgs)) batchSize batchIndex).
  { unfold startIndex, JS.rem. rewrite !Z.rem_mod_nonneg by nia.
    replace ((batchIndex + Z.of_nat (length imgs)) * batchSize)
      with (batchIndex * batchSize + batchSize * Z.of_nat (length imgs)) by ring.
    apply Z.mod_add. lia. }
  unfold getBatch, endIndex. rewrite S0. reflexivity.
Qed.

End EpochFacts.

Lemma epoch_batches_cover_data_witness :
  exists bts,
    Loader.epochBatches [1; 2; 3; 4; 5] [10; 20; 30; 40; 50] 2 = map Some bts
    /\ concat (map (@Mnist.images Z Z) bts) = [1; 2; 3; 4; 5]
    /\ concat (map (@Mnist.labels Z Z) bts) = [10; 20; 30; 40; 50]
    /\ Forall (fun bt => length (Mnist.labels bt) = length (Mnist.images bt)) bts.
Proof.
  apply (@epoch_batches_cover_data Z Z [1; 2; 3; 4; 5] [10; 20; 30; 40; 50] 2);
    [reflexivity|lia].
Defined.

Lemma getBatch_wraps_witness :
  Mnist.getBatch [1; 2; 3; 4; 5] [10; 20; 30; 40; 50] 2 (2 + 5)
  = Mnist.getBatch [1; 2; 3; 4; 5] [10; 20; 30; 40; 50] 2 2.
Proof.
  apply (@getBatch_wraps Z Z [1; 2; 3; 4; 5] [10; 20; 30; 40; 50] 2 2);
    simpl; lia.
Defined.

(* ------------------------------------------------------------------------- *)
(** ** Facts about the sample loader *)

Section LoaderFacts.

Import Loader.

Lemma rowsOf_concat {A : Type} (w : nat) (rows : list (list A)) :
  Forall (fun r => length r = w) rows ->
  rowsOf w (length rows) (concat rows) = rows.
Proof.
  induction 1 as [|r rows Hr Hrows IH]; simpl; [reflexivity|].
  assert (F : firstn w (r ++ concat rows) = r).
  { rewrite firstn_app, firstn_all2 by lia.
    replace (w - length r)%nat with O by lia. apply app_nil_r. }
  assert (K : skipn w (r ++ concat rows) = concat rows).
  { rewrite skipn_app, skipn_all2 by lia.
    replace (w - length r)%nat with O by lia. reflexivity. }
  rewrite F, K, IH. reflexivity.
Qed.

Lemma length_concat_uniform {A : Type} (w : nat) (rows : list (list A)) :
  Forall (fun r => length r = w) rows ->
  length (concat rows) = (length rows * w)%nat.
Proof.
  induction 1 as [|r rows Hr Hrows IH]; simpl; [reflexivity|].
  rewrite length_app, IH, Hr. reflexivity.
Qed.

Lemma tf_tensor_of_rows {A : Type} (w : nat) (rows : list (list A)) :
  Forall (fun r => length r = w) rows ->
  tf_tensor (concat rows) (length rows) w = Some rows.
Proof.
  intros H. unfold tf_tensor.
  rewrite (length_concat_uniform H), Nat.eqb_refl, (rowsOf_concat H).
  reflexivity.
Qed.

Lemma Forall_flattened (imgs : list SampleImage) :
  Forall (fun img => length (flattenImage img) = IMAGE_SIZE) imgs ->
  Forall (fun r => length r = IMAGE_SIZE) (map flattenImage imgs).
Proof.
  intros H. apply Forall_forall. intros r Hin. apply in_map_iff in Hin.
  destruct Hin as (img & <- & Hin). rewrite Forall_forall in H. apply H, Hin.
Qed.

Lemma oneHot_length (depth : nat) (label : Z) : length (oneHot depth label) = depth.
Proof. unfold oneHot. rewrite length_map, length_seq. reflexivity. Qed.

(** X3.  When every image of the file has 784 values, written flat or as
    rows, [loadSampleMNIST] succeeds: the rows of the image tensors are
    the images of the file in order, [numTrain] and [numTest] are the row
    counts, every label row has ten entries, and there are as many label
    rows as labels in the file. *)
Theorem loadSampleMNIST_rows (data : SampleJson) :
  Forall (fun img => length (flattenImage img) = IMAGE_SIZE) (jsonTrainImages data) ->
  Forall (fun img => length (flattenImage img) = IMAGE_SIZE) (jsonTestImages data) ->
  exists d,
    loadSampleMNIST data = Some d
    /\ trainImages d = map flattenImage (jsonTrainImages data)
    /\ testImages d = map flattenImage (jsonTestImages data)
    /\ numTrain d = Z.of_nat (length (trainImages d))
    /\ numTest d = Z.of_nat (length (testImages d))
    /\ length (trainLabels d) = length (jsonTrainLabels data)
    /\ length (testLabels d) = length (jsonTestLabels data)
    /\ Forall (fun row => length row = NUM_CLASSES) (trainLabels d ++ testLabels d).
Proof.
  intros Htr Hte. unfold loadSampleMNIST.
  pose proof (tf_tensor_of_rows (Forall_flattened Htr)) as T1.
  pose proof (tf_tensor_of_rows (Forall_flattened Hte)) as T2.
  rewrite length_map in T1, T2. rewrite T1, T2.
  eexists. split; [reflexivity|]. simpl.
  rewrite !length_map. repeat split.
  apply Forall_forall. intros row Hin. apply in_app_iff in Hin.
  destruct Hin as [Hin|Hin]; apply in_map_iff in Hin;
    destruct Hin as (l & <- & _); apply oneHot_length.
Qed.

(** X4.  [loadSampleMNIST] throws exactly when the number of values of
    the training images, or of the test images, is not 784 times the
    number of images: only the totals are checked, not each image, and
    the labels are never checked against the images. *)
Theorem loadSampleMNIST_throws_iff (data : SampleJson) :
  loadSampleMNIST data = None
  <-> (length (concat (map flattenImage (jsonTrainImages data)))
       <> (length (jsonTrainImages data) * IMAGE_SIZE)%nat
       \/ length (concat (map flattenImage (jsonTestImages data)))
          <> (length (jsonTestImages data) * IMAGE_SIZE)%nat).
Proof.
  unfold loadSampleMNIST, tf_tensor.
  destruct (Nat.eqb_spec (length (concat (map flattenImage (jsonTrainImages data))))
                         (length (jsonTrainImages data) * IMAGE_SIZE)) as [e1|n1];
    destruct (Nat.eqb_spec (length (concat (map flattenImage (jsonTestImages data))))
                           (length (jsonTestImages data) * IMAGE_SIZE)) as [e2|n2];
    split; intros H; try reflexivity; try discriminate H; auto.
  destruct H as [H|H]; contradiction.
Qed.

End LoaderFacts.

Lemma loadSampleMNIST_rows_witness :
  exists d,
    Loader.loadSampleMNIST
      (Loader.mkJson [Loader.Flat (repeat 0%Q 784);
                      Loader.Nested (repeat (repeat 1%Q 28) 28)]
                     [3; 7] [Loader.Flat (repeat 0%Q 784)] [1]) = Some d
    /\ Loader.numTrain d = 2.
Proof.
  destruct (@loadSampleMNIST_rows
              (Loader.mkJson [Loader.Flat (repeat 0%Q 784);
                              Loader.Nested (repeat (repeat 1%Q 28) 28)]
                             [3; 7] [Loader.Flat (repeat 0%Q 784)] [1]))
    as (d & Hd & Htr & _ & Hn & _).
  - repeat constructor.
  - repeat constructor.
  - exists d. split; [exact Hd|]. rewrite Hn, Htr. reflexivity.
Defined.

(* ------------------------------------------------------------------------- *)
(** ** Facts about the drawing code *)

Section VizFacts.

Import Cam Viz.
Local Open Scope Q_scope.

Lemma toDouble_nonneg (q : Q) : 0 <= q -> 0 <= JS.toDouble q.
Proof.
  intros Hq. unfold JS.toDouble.
  destruct (Qnum q) eqn:N; [apply Qle_refl| |].
  - unfold JS.nearest. cbv zeta.
    set (e := (JS.exponent q - 52)%Z).
    assert (P : 0 < JS.pow2 e).
    { unfold JS.pow2. destruct (0 <=? e)%Z eqn:Le.
      - apply Z.leb_le in Le.
        change 0 with (inject_Z 0). rewrite <- Zlt_Qlt.
        apply Z.pow_pos_nonneg; lia.
      - apply Z.leb_gt in Le. apply Qlt_shift_div_l.
        + change 0 with (inject_Z 0). rewrite <- Zlt_Qlt.
          apply Z.pow_pos_nonneg; lia.
        + rewrite Qmult_0_l. reflexivity. }
    assert (S0 : 0 <= q / JS.pow2 e).
    { apply Qle_shift_div_l; [exact P|]. rewrite Qmult_0_l. exact Hq. }
    assert (F0 : (0 <= Qfloor (q / JS.pow2 e))%Z).
    { change 0%Z with (Qfloor 0). apply Qfloor_resp_le. exact S0. }
    assert (R0 : (0 <= JS.roundHalfEven (q / JS.pow2 e))%Z).
    { unfold JS.roundHalfEven. cbv zeta.
      destruct (_ ?= _); [destruct (Z.even _)| |]; lia. }
    apply Qmult_le_0_compat; [|apply Qlt_le_weak; exact P].
    change 0 with (inject_Z 0). rewrite <- Zle_Qle. exact R0.
  - exfalso. unfold Qle in Hq. simpl in Hq. rewrite N in Hq. lia.
Qed.

Lemma fdiv_nonneg (a b : Q) : 0 <= a -> 0 <= b -> 0 <= JS.fdiv a b.
Proof.
  intros Ha Hb. apply toDouble_nonneg.
  unfold Qdiv. apply Qmult_le_0_compat; [exact Ha|].
  apply Qinv_le_0_compat. exact Hb.
Qed.

(** For the 28 by 28 pairs the rounding of the two quotients does not
    reach the integer part: every pair is evaluated. *)
Lemma camIndex_table :
  forallb
    (fun conv =>
       forallb
         (fun y =>
            Z.eqb (Qfloor (JS.fdiv (inject_Z (Z.of_nat y))
                                   (JS.fdiv 28 (inject_Z (Z.of_nat conv)))))
                  (Z.of_nat y * Z.of_nat conv / 28))
         (seq 0 28))
    (seq 1 28) = true.
Proof. vm_compute. reflexivity. Qed.

Lemma camIndex_unclamped (conv y : nat) :
  (1 <= conv <= 28)%nat -> (y < 28)%nat ->
  Qfloor (JS.fdiv (inject_Z (Z.of_nat y)) (JS.fdiv 28 (inject_Z (Z.of_nat conv))))
  = (Z.of_nat y * Z.of_nat conv / 28)%Z.
Proof.
  intros Hc Hy. pose proof camIndex_table as T.
  rewrite forallb_forall in T.
  specialize (T conv ltac:(apply in_seq; lia)).
  rewrite forallb_forall in T.
  specialize (T y ltac:(apply in_seq; lia)).
  apply Z.eqb_eq. exact T.
Qed.

Lemma camIndex_exact (conv y : nat) :
  (1 <= conv <= 28)%nat -> (y < 28)%nat ->
  camIndex conv y = (Z.of_nat y * Z.of_nat conv / 28)%Z.
Proof.
  intros Hc Hy. unfold camIndex. cbv zeta.
  rewrite (camIndex_unclamped Hc Hy).
  assert (U : (Z.of_nat y * Z.of_nat conv / 28 < Z.of_nat conv)%Z)
    by (apply Z.div_lt_upper_bound; nia).
  lia.
Qed.

(** With 50 rows the two notions part: the exact quotient of row 14 is 25,
    the code reads row 24. *)
Lemma camIndex_rounds_below :
  camIndex 50 14 = 24%Z /\ (Z.of_nat 14 * Z.of_nat 50 / 28 = 25)%Z.
Proof. split; vm_compute; reflexivity. Qed.

(** X5.  The nearest-neighbour upscaling of the heat map: for a heat map
    of at least one row, the row that row [y] of the 28 rows of the
    overlay reads is a row of the heat map; when the heat map has at most
    28 rows it is row [floor (y * conv / 28)], and the bound [conv - 1]
    of the code is not the smaller one. *)
Theorem camIndex_floor (conv y : nat) :
  (1 <= conv)%nat -> (y < 28)%nat ->
  (0 <= camIndex conv y <= Z.of_nat conv - 1)%Z
  /\ ((conv <= 28)%nat ->
      camIndex conv y = (Z.of_nat y * Z.of_nat conv / 28)%Z
      /\ camIndex conv y
         = Qfloor (JS.fdiv (inject_Z (Z.of_nat y))
                           (JS.fdiv 28 (inject_Z (Z.of_nat conv))))).
Proof.
  intros Hc Hy.
  assert (N : forall c : nat, 0 <= inject_Z (Z.of_nat c)).
  { intros c. change 0 with (inject_Z 0). rewrite <- Zle_Qle. lia. }
  assert (F0 : (0 <= Qfloor (JS.fdiv (inject_Z (Z.of_nat y))
                                     (JS.fdiv 28 (inject_Z (Z.of_nat conv)))))%Z).
  { change 0%Z with (Qfloor 0). apply Qfloor_resp_le.
    apply fdiv_nonneg; [apply N|]. apply fdiv_nonneg; [|apply N].
    discriminate. }
  split.
  - unfold camIndex. cbv zeta. lia.
  - intros Hle.
    pose proof (@camIndex_exact conv y (conj Hc Hle) Hy) as Ex.
    split; [exact Ex|].
    rewrite Ex. symmetry. apply camIndex_unclamped; [lia|exact Hy].
Qed.

(** X6.  When the heat map has at most 28 rows, every row of it is read
    by some row of the overlay, and a lower row of the overlay never
    reads a higher row of the heat map. *)
Theorem camIndex_onto (conv : nat) :
  (1 <= conv <= 28)%nat ->
  (forall k, (k < conv)%nat ->
     exists y, (y < 28)%nat /\ camIndex conv y = Z.of_nat k)
  /\ (forall y y', (y <= y')%nat -> (y' < 28)%nat ->
        (camIndex conv y <= camIndex conv y')%Z).
Proof.
  intros Hc. split.
  - intros k Hk.
    set (c := Z.of_nat conv). set (z := ((28 * Z.of_nat k + c - 1) / c)%Z).
    assert (Pc : (0 < c)%Z) by (unfold c; lia).
    assert (Lz : (28 * Z.of_nat k <= z * c)%Z).
    { unfold z. pose proof (Z.mul_div_le (28 * Z.of_nat k + c - 1) c Pc) as A.
      pose proof (Z.mod_pos_bound (28 * Z.of_nat k + c - 1) c Pc) as B.
      pose proof (Z.div_mod (28 * Z.of_nat k + c - 1) c ltac:(lia)) as D.
      nia. }
    assert (Uz : (z * c <= 28 * Z.of_nat k + c - 1)%Z).
    { unfold z. pose proof (Z.mul_div_le (28 * Z.of_nat k + c - 1) c Pc). lia. }
    assert (Nz : (0 <= z)%Z) by (unfold z; apply Z.div_pos; lia).
    assert (Bz : (z < 28)%Z) by (unfold c in *; nia).
    exists (Z.to_nat z). split; [lia|].
    rewrite camIndex_exact by lia.
    rewrite Z2Nat.id by lia. fold c.
    assert (E : (z * c / 28 = Z.of_nat k)%Z).
    { symmetry. apply Z.div_unique with (r := (z * c - 28 * Z.of_nat k)%Z);
        unfold c in *; lia. }
    rewrite E. unfold c. lia.
  - intros y y' Hle Hy'.
    rewrite !camIndex_exact by lia.
    apply Z.div_le_mono; nia.
Qed.

End VizFacts.

Lemma camIndex_floor_witness :
  (0 <= Viz.camIndex 3 27 <= 2)%Z /\ Viz.camIndex 3 27 = 2%Z.
Proof.
  destruct (@camIndex_floor 3 27) as [B E]; [lia|lia|].
  split; [exact B|]. apply E. lia.
Defined.

Lemma camIndex_onto_witness :
  exists y, (y < 28)%nat /\ Viz.camIndex 3 y = Z.of_nat 2.
Proof.
  destruct (@camIndex_onto 3) as [H _]; [lia|]. apply (H 2%nat). lia.
Defined.

(* ------------------------------------------------------------------------- *)
(** ** Facts about the canvases *)

Section CanvasFacts.

Import Cam Viz.
Local Open Scope Q_scope.

Lemma flat_map_length_uniform {A : Type} (f : nat -> list A) (n : nat) :
  (forall k, length (f k) = n) ->
  forall m s, length (flat_map f (seq s m)) = (m * n)%nat.
Proof.
  intros Hf. induction m as [|m IH]; intros s; simpl; [reflexivity|].
  rewrite length_app, Hf, IH. reflexivity.
Qed.

Lemma flat_map_skip {A : Type} (f : nat -> list A) (n : nat) :
  (forall k, length (f k) = n) ->
  forall i m s, (i <= m)%nat ->
    skipn (i * n) (flat_map f (seq s m)) = flat_map f (seq (s + i) (m - i)).
Proof.
  intros Hf. induction i as [|i IH]; intros m s Hi.
  - simpl. rewrite Nat.add_0_r, Nat.sub_0_r. reflexivity.
  - destruct m as [|m]; [lia|]. simpl seq. simpl flat_map.
    replace (S i * n)%nat with (length (f s) + i * n)%nat by (rewrite Hf; lia).
    rewrite skipn_app, skipn_all2 by lia. simpl app.
    replace (length (f s) + i * n - length (f s))%nat with (i * n)%nat by lia.
    rewrite IH by lia. replace (S s + i)%nat with (s + S i)%nat by lia.
    reflexivity.
Qed.

Lemma flat_map_chunk {A : Type} (f : nat -> list A) (n : nat) :
  (forall k, length (f k) = n) ->
  forall i m (rest : list A), (i < m)%nat ->
    firstn n (skipn (i * n) (flat_map f (seq 0 m) ++ rest)) = f i.
Proof.
  intros Hf i m rest Hi.
  rewrite skipn_app, (flat_map_skip f Hf) by lia.
  rewrite (flat_map_length_uniform f Hf).
  replace (i * n - m * n)%nat with O by nia. simpl skipn.
  replace (m - i)%nat with (S (m - i - 1)) by lia. simpl.
  rewrite <- !app_assoc, firstn_app, firstn_all2 by (rewrite Hf; lia).
  rewrite Hf, Nat.sub_diag. simpl. apply app_nil_r.
Qed.

Lemma pixelAt_grid (g : nat -> nat -> list Z) (H W y x : nat) :
  (forall y x, length (g y x) = 4%nat) ->
  (y < H)%nat -> (x < W)%nat ->
  pixelAt (flat_map (fun y => flat_map (g y) (seq 0 W)) (seq 0 H)) W y x = g y x.
Proof.
  intros Hg Hy Hx. unfold pixelAt.
  assert (Hrow : forall k, length (flat_map (g k) (seq 0 W)) = (W * 4)%nat)
    by (intros k; apply flat_map_length_uniform, (Hg k)).
  replace ((y * W + x) * 4)%nat with (x * 4 + y * (W * 4))%nat by lia.
  rewrite <- skipn_skipn, (flat_map_skip _ Hrow) by lia.
  replace (H - y)%nat with (S (H - y - 1)) by lia. simpl.
  apply (flat_map_chunk (g y) (Hg y)); exact Hx.
Qed.

Lemma grid_length (g : nat -> nat -> list Z) (H W : nat) :
  (forall y x, length (g y x) = 4%nat) ->
  length (flat_map (fun y => flat_map (g y) (seq 0 W)) (seq 0 H))
  = (4 * W * H)%nat.
Proof.
  intros Hg.
  rewrite (@flat_map_length_uniform _ (fun y => flat_map (g y) (seq 0 W)) (W * 4)).
  - lia.
  - intros k. apply flat_map_length_uniform, (Hg k).
Qed.

Lemma grid_Forall (P : Z -> Prop) (g : nat -> nat -> list Z) (H W : nat) :
  (forall y x, Forall P (g y x)) ->
  Forall P (flat_map (fun y => flat_map (g y) (seq 0 W)) (seq 0 H)).
Proof.
  intros Hg. apply Forall_flat_map, Forall_forall. intros y _.
  apply Forall_flat_map, Forall_forall. intros x _. apply Hg.
Qed.

Lemma toUint8Clamped_range (z : Z) : (0 <= toUint8Clamped z <= 255)%Z.
Proof. unfold toUint8Clamped. lia. Qed.

Lemma toUint8Clamped_id (z : Z) : (0 <= z <= 255)%Z -> toUint8Clamped z = z.
Proof. unfold toUint8Clamped. lia. Qed.

Lemma round_unit (q : Q) :
  0 <= q <= 1 -> (0 <= JS.Math_round (255 * q) <= 255)%Z.
Proof.
  intros [L U]. split.
  - apply round_lower. change (inject_Z 0) with 0. nra.
  - apply round_upper. change (inject_Z 255) with 255. nra.
Qed.

Lemma clamp_unit (q : Q) : 0 <= Qmax 0 (Qmin 1 q) <= 1.
Proof.
  split.
  - apply Q.le_max_l.
  - apply Q.max_lub; [lra | apply Q.le_min_l].
Qed.

Lemma viridisColor_range (t : Q) :
  let c := viridisColor t in
  (0 <= red c <= 255 /\ 0 <= green c <= 255 /\ 0 <= blue c <= 255)%Z.
Proof.
  unfold viridisColor. simpl.
  repeat split; apply round_unit, clamp_unit.
Qed.

Lemma canvasPixel_length (colormap : Colormap) (cell : option Q) :
  length (canvasPixel colormap cell) = 4%nat.
Proof. destruct cell, colormap; reflexivity. Qed.

Lemma canvasPixel_range (colormap : Colormap) (cell : option Q) :
  Forall (fun b => (0 <= b <= 255)%Z) (canvasPixel colormap cell)
  /\ nth 3 (canvasPixel colormap cell) 0%Z = 255%Z.
Proof.
  destruct cell as [d|]; [|simpl; split; [repeat constructor; lia | reflexivity]].
  unfold canvasPixel.
  set (value := Z.min 255 (Z.max 0 (JS.Math_round d))).
  assert (V : (0 <= value <= 255)%Z) by (unfold value; lia).
  destruct colormap; cbv zeta; split; try reflexivity.
  - repeat constructor; lia.
  - pose proof (viridisColor_range (inject_Z value / 255)) as (R & G & B).
    repeat constructor; lia.
  - assert (T : 0 <= inject_Z value / 255).
    { apply Qle_shift_div_l; [reflexivity|]. rewrite Qmult_0_l.
      change 0 with (inject_Z 0). rewrite <- Zle_Qle. lia. }
    pose proof (channels_clamped T) as (_ & R & G & B).
    repeat constructor; lia.
Qed.

Lemma drawToCanvas_pixel (data : list (list Q)) (colormap : Colormap) (y x : nat) :
  (y < length data)%nat -> (x < length (nth 0 data []))%nat ->
  pixelAt (canvasBytes data colormap) (length (nth 0 data [])) y x
  = canvasPixel colormap (cellAt data y x).
Proof.
  intros Hy Hx. unfold canvasBytes. cbv zeta.
  assert (L : forall y x,
             length (map toUint8Clamped (canvasPixel colormap (cellAt data y x)))
             = 4%nat)
    by (intros; rewrite length_map; apply canvasPixel_length).
  rewrite (pixelAt_grid
             (fun y x => map toUint8Clamped (canvasPixel colormap (cellAt data y x)))
             L Hy Hx).
  destruct (canvasPixel_range colormap (cellAt data y x)) as [R A].
  rewrite <- (map_id (canvasPixel colormap (cellAt data y x))) at 2.
  apply map_ext_in. intros b Hb. rewrite Forall_forall in R.
  apply toUint8Clamped_id, R, Hb.
Qed.

Lemma drawToCanvas_drawn (data : list (list Q)) (colormap : Colormap) :
  (1 <= length (nth 0 data []))%nat -> (1 <= length data)%nat ->
  snd (drawToCanvas data colormap) = Some (canvasBytes data colormap).
Proof.
  intros Hw Hh. unfold drawToCanvas. cbv zeta. simpl snd.
  destruct (length (nth 0 data [])); [lia|]. destruct (length data); [lia|].
  reflexivity.
Qed.

(** X7.  [drawToCanvas], for any array and any colour map: the canvas
    gets the width of the first row and the height of the array.  When
    one of the two is zero nothing is drawn, because no image data of
    that size can be created.  Otherwise four numbers are written for
    every pixel, all of them lie between 0 and 255 before they are
    stored, the fourth is 255, and the numbers of the pixel [(y, x)] are
    the ones computed from the cell [data[y][x]]. *)
Theorem drawToCanvas_bytes (data : list (list Q)) (colormap : Colormap) :
  let width := length (nth 0 data []) in
  let height := length data in
  fst (drawToCanvas data colormap) = (width, height)
  /\ (snd (drawToCanvas data colormap) = None <-> width = O \/ height = O)
  /\ forall bytes,
       snd (drawToCanvas data colormap) = Some bytes ->
       length bytes = (4 * width * height)%nat
       /\ Forall (fun b => (0 <= b <= 255)%Z) bytes
       /\ forall y x, (y < height)%nat -> (x < width)%nat ->
            pixelAt bytes width y x = canvasPixel colormap (cellAt data y x)
            /\ nth 3 (pixelAt bytes width y x) 0%Z = 255%Z.
Proof.
  cbv zeta. split; [reflexivity|]. split.
  - unfold drawToCanvas. cbv zeta. simpl snd.
    destruct (length (nth 0 data [])) as [|w]; [simpl; split; auto|].
    destruct (length data) as [|h]; simpl; split; auto.
    + discriminate.
    + intros [H|H]; discriminate H.
  - intros bytes Hb.
    assert (E : bytes = canvasBytes data colormap).
    { unfold drawToCanvas in Hb. cbv zeta in Hb. simpl snd in Hb.
      destruct (Nat.eqb (length (nth 0 data [])) 0 || Nat.eqb (length data) 0)%bool;
        [discriminate Hb | injection Hb as <-; reflexivity]. }
    subst bytes. split; [|split].
    + unfold canvasBytes. cbv zeta.
      apply (grid_length
               (fun y x => map toUint8Clamped (canvasPixel colormap (cellAt data y x)))).
      intros; rewrite length_map; apply canvasPixel_length.
    + unfold canvasBytes. cbv zeta.
      apply (@grid_Forall (fun b => (0 <= b <= 255)%Z)
               (fun y x => map toUint8Clamped (canvasPixel colormap (cellAt data y x)))).
      intros y x. apply Forall_map, Forall_forall. intros b _.
      apply toUint8Clamped_range.
    + intros y x Hy Hx. rewrite (@drawToCanvas_pixel data colormap y x Hy Hx).
      split; [reflexivity | apply canvasPixel_range].
Qed.

(** *** The feature-map and filter viewers *)

Lemma cell_in_concat (p : list (list Q)) (y x : nat) :
  (y < length p)%nat -> (x < length (nth y p []))%nat ->
  In (at2 p y x) (concat p).
Proof.
  intros Hy Hx. apply in_concat. exists (nth y p []).
  split; apply nth_In; assumption.
Qed.

Lemma concat_in_cell (p : list (list Q)) (v : Q) :
  In v (concat p) ->
  exists y x, (y < length p)%nat /\ (x < length (nth y p []))%nat /\ v = at2 p y x.
Proof.
  intros Hin. apply in_concat in Hin. destruct Hin as (row & Hrow & Hv).
  destruct (In_nth p row [] Hrow) as (y & Hy & Ey).
  destruct (In_nth row v 0 Hv) as (x & Hx & Ex).
  exists y, x. unfold at2. rewrite Ey. auto.
Qed.

Lemma cellAt_inside (p : list (list Q)) (y x : nat) :
  (x < length (nth y p []))%nat -> cellAt p y x = Some (at2 p y x).
Proof. intros Hx. unfold cellAt, at2. apply nth_error_nth'. exact Hx. Qed.

Lemma cellAt_map (g : Q -> Q) (p : list (list Q)) (y x : nat) :
  cellAt (map (map g) p) y x = option_map g (cellAt p y x).
Proof.
  unfold cellAt. change (@nil Q) with (map g []) at 1.
  rewrite map_nth. apply nth_error_map.
Qed.

Lemma hasShape2_row (p : list (list Q)) (H W y : nat) :
  hasShape2 p H W -> (y < H)%nat -> length (nth y p []) = W.
Proof.
  intros [L R] Hy. rewrite Forall_forall in R. apply R, nth_In. lia.
Qed.

Lemma range_positive (mx mn : Q) : mn <= mx -> 0 < range mx mn.
Proof.
  intros H. destruct (Qlt_le_dec mn mx) as [Lt|Ge].
  - rewrite (range_nondegenerate Lt). lra.
  - rewrite range_degenerate by lra. reflexivity.
Qed.

Lemma scaled_unit (mx mn v : Q) :
  mn <= v <= mx -> 0 <= (v - mn) / range mx mn <= 1.
Proof.
  intros [L U].
  assert (P : 0 < range mx mn) by (apply range_positive; lra).
  split.
  - apply Qle_shift_div_l; [exact P | lra].
  - apply Qle_shift_div_r; [exact P|].
    destruct (Qlt_le_dec mn mx) as [Lt|Ge].
    + rewrite (range_nondegenerate Lt). lra.
    + rewrite range_degenerate by lra. lra.
Qed.

Lemma scaleTo255_shape (p : list (list Q)) :
  length (scaleTo255 p) = length p
  /\ length (nth 0 (scaleTo255 p) []) = length (nth 0 p []).
Proof.
  unfold scaleTo255. cbv zeta.
  destruct (Math_min (concat p)), (Math_max (concat p)); try (split; reflexivity).
  rewrite length_map. split; [reflexivity|].
  change (@nil Q) with (map (fun val => (val - q) / range q0 q * 255) []) at 1.
  rewrite map_nth, length_map. reflexivity.
Qed.

Lemma scaleTo255_cell (p : list (list Q)) (mn mx : Q) (y x : nat) :
  Math_min (concat p) = Some mn -> Math_max (concat p) = Some mx ->
  (x < length (nth y p []))%nat ->
  cellAt (scaleTo255 p) y x = Some ((at2 p y x - mn) / range mx mn * 255).
Proof.
  intros Hmn Hmx Hx. unfold scaleTo255. cbv zeta. rewrite Hmn, Hmx.
  rewrite cellAt_map, (cellAt_inside p y Hx). reflexivity.
Qed.

Lemma round_scaled (q : Q) :
  0 <= q <= 1 -> (0 <= JS.Math_round (q * 255) <= 255)%Z.
Proof.
  intros [L U]. split.
  - apply round_lower. change (inject_Z 0) with 0. nra.
  - apply round_upper. change (inject_Z 255) with 255. nra.
Qed.

Lemma Math_round_comp (p q : Q) : p == q -> JS.Math_round p = JS.Math_round q.
Proof. intros E. unfold JS.Math_round. apply Qfloor_comp. rewrite E. reflexivity. Qed.

Lemma featurePlane_shape (data : Tensor3) (H W F f : nat) :
  hasShape data H W F -> (1 <= H)%nat -> (1 <= W)%nat ->
  hasShape2 (featurePlane data f) H W
  /\ forall y x, (y < H)%nat -> (x < W)%nat ->
       at2 (featurePlane data f) y x = at3 data y x f.
Proof.
  intros Sh HH HW. destruct (hasShape_dims Sh HH HW) as (EH & EW & _).
  unfold featurePlane. rewrite EH, EW. split.
  - split; [rewrite length_map, length_seq; reflexivity|].
    apply Forall_forall. intros row Hin. apply in_map_iff in Hin.
    destruct Hin as (y & <- & _). rewrite length_map, length_seq. reflexivity.
  - intros y x Hy Hx. unfold at2.
    rewrite nth_map_seq by exact Hy. rewrite nth_map_seq by exact Hx.
    reflexivity.
Qed.

Lemma Math_min_max_defined (l : list Q) (v : Q) :
  In v l -> exists mn mx, Math_min l = Some mn /\ Math_max l = Some mx.
Proof. destruct l as [|a r]; [intros []|]. intros _. simpl. eauto. Qed.

Lemma viewer_pixel (p : list (list Q)) (H W : nat) (mn mx : Q) (y x : nat) :
  hasShape2 p H W ->
  Math_min (concat p) = Some mn -> Math_max (concat p) = Some mx ->
  (y < H)%nat -> (x < W)%nat ->
  let value := JS.Math_round ((at2 p y x - mn) / range mx mn * 255) in
  mn <= at2 p y x <= mx
  /\ (0 <= value <= 255)%Z
  /\ pixelAt (canvasBytes (scaleTo255 p) Viridis) W y x
     = [red (viridisColor (inject_Z value / 255));
        green (viridisColor (inject_Z value / 255));
        blue (viridisColor (inject_Z value / 255)); 255%Z].
Proof.
  intros Sh Hmn Hmx Hy Hx value.
  pose proof Sh as [L _].
  assert (Wy : length (nth y p []) = W) by (apply (hasShape2_row Sh Hy)).
  assert (W0 : length (nth 0 p []) = W) by (apply (hasShape2_row Sh); lia).
  assert (Hin : In (at2 p y x) (concat p)) by (apply cell_in_concat; lia).
  assert (B : mn <= at2 p y x <= mx).
  { split; [apply (Math_min_spec _ Hmn) | apply (Math_max_spec _ Hmx)]; exact Hin. }
  assert (V : (0 <= value <= 255)%Z) by (apply round_scaled, scaled_unit, B).
  split; [exact B|]. split; [exact V|].
  destruct (scaleTo255_shape p) as [SL SW].
  rewrite <- W0 at 1. rewrite <- SW.
  rewrite drawToCanvas_pixel by lia.
  rewrite (@scaleTo255_cell p mn mx y x Hmn Hmx) by lia.
  unfold canvasPixel. fold value.
  replace (Z.min 255 (Z.max 0 value)) with value by lia. reflexivity.
Qed.

Lemma viridis_of_zero (q : Q) :
  q == 0 ->
  let value := JS.Math_round q in
  [red (viridisColor (inject_Z value / 255));
   green (viridisColor (inject_Z value / 255));
   blue (viridisColor (inject_Z value / 255)); 255%Z] = [68; 0; 84; 255]%Z.
Proof. intros E. cbv zeta. rewrite (Math_round_comp E). reflexivity. Qed.

Lemma viridis_of_full (q : Q) :
  q == 255 ->
  let value := JS.Math_round q in
  [red (viridisColor (inject_Z value / 255));
   green (viridisColor (inject_Z value / 255));
   blue (viridisColor (inject_Z value / 255)); 255%Z] = [159; 255; 107; 255]%Z.
Proof. intros E. cbv zeta. rewrite (Math_round_comp E). reflexivity. Qed.

Lemma filterCanvas_pixels (data : Tensor3) (H W F f : nat) :
  hasShape data H W F -> (1 <= H)%nat -> (1 <= W)%nat ->
  exists mn mx bytes,
    Math_min (concat (featurePlane data f)) = Some mn
    /\ Math_max (concat (featurePlane data f)) = Some mx
    /\ drawToCanvas (scaleTo255 (featurePlane data f)) Viridis
       = (W, H, Some bytes)
    /\ forall y x, (y < H)%nat -> (x < W)%nat ->
         let v := at3 data y x f in
         let value := JS.Math_round ((v - mn) / range mx mn * 255) in
         let pixel := pixelAt bytes W y x in
         mn <= v <= mx
         /\ (0 <= value <= 255)%Z
         /\ pixel = [red (viridisColor (inject_Z value / 255));
                     green (viridisColor (inject_Z value / 255));
                     blue (viridisColor (inject_Z value / 255)); 255%Z]
         /\ (v == mn -> pixel = [68; 0; 84; 255]%Z)
         /\ (mn < mx -> v == mx -> pixel = [159; 255; 107; 255]%Z).
Proof.
  intros Sh HH HW.
  destruct (@featurePlane_shape data H W F f Sh HH HW) as [Sh2 Cell].
  pose proof Sh2 as [L _].
  assert (W0 : length (nth 0 (featurePlane data f) []) = W)
    by (apply (hasShape2_row Sh2); lia).
  destruct (@Math_min_max_defined (concat (featurePlane data f))
              (at2 (featurePlane data f) 0 0)) as (mn & mx & Hmn & Hmx).
  { apply cell_in_concat; lia. }
  exists mn, mx, (canvasBytes (scaleTo255 (featurePlane data f)) Viridis).
  split; [exact Hmn|]. split; [exact Hmx|]. split.
  - destruct (scaleTo255_shape (featurePlane data f)) as [SL SW].
    rewrite (surjective_pairing (drawToCanvas _ _)).
    rewrite drawToCanvas_drawn by lia.
    unfold drawToCanvas. cbv zeta. simpl fst.
    rewrite SL, SW, L, W0. reflexivity.
  - intros y x Hy Hx. cbv zeta.
    destruct (@viewer_pixel (featurePlane data f) H W mn mx y x Sh2 Hmn Hmx Hy Hx)
      as (B & V & P).
    rewrite (Cell y x Hy Hx) in B, V, P.
    split; [exact B|]. split; [exact V|]. split; [exact P|]. split.
    + intros E. rewrite P. apply viridis_of_zero.
      rewrite E. unfold Qdiv. ring.
    + intros Lt E. rewrite P. apply viridis_of_full.
      rewrite (range_nondegenerate Lt), E. field. lra.
Qed.

(** X8.  The canvases that FeatureMapViewer draws for an activation of
    shape [H, W, F]: there is one for each of the first [min F 32]
    filters and none for a later filter, and the text [+N more] is
    written with [N = F - 32] when [F] exceeds 32.  The canvas of filter
    [f < 32] is [W] wide and [H] high; its pixel [(y, x)] has the viridis
    colour of [round ((v - min) / range * 255) / 255], where [v] is the
    activation of the cell and the rounded number lies between 0 and 255,
    so no clamp of [drawToCanvas] changes it; the cells of the least
    activation are drawn in the colour (68, 0, 84), and, when the
    activations are not all equal, the cells of the greatest activation
    in the colour (159, 255, 107). *)
Theorem featureMapCanvas_pixels (data : Tensor3) (H W F f : nat) :
  hasShape data H W F -> (1 <= H)%nat -> (1 <= W)%nat -> (f < F)%nat ->
  exists canvases,
    featureMapCanvases data = Some canvases
    /\ length canvases = Nat.min F 32
    /\ moreText data = (if (32 <? F)%nat then Some (F - 32)%nat else None)
    /\ ((32 <= f)%nat -> nth_error canvases f = None)
    /\ ((f < 32)%nat ->
        exists mn mx bytes,
          Math_min (concat (featurePlane data f)) = Some mn
          /\ Math_max (concat (featurePlane data f)) = Some mx
          /\ nth_error canvases f = Some (W, H, Some bytes)
          /\ forall y x, (y < H)%nat -> (x < W)%nat ->
               let v := at3 data y x f in
               let value := JS.Math_round ((v - mn) / range mx mn * 255) in
               let pixel := pixelAt bytes W y x in
               mn <= v <= mx
               /\ (0 <= value <= 255)%Z
               /\ pixel = [red (viridisColor (inject_Z value / 255));
                           green (viridisColor (inject_Z value / 255));
                           blue (viridisColor (inject_Z value / 255)); 255%Z]
               /\ (v == mn -> pixel = [68; 0; 84; 255]%Z)
               /\ (mn < mx -> v == mx -> pixel = [159; 255; 107; 255]%Z)).
Proof.
  intros Sh HH HW Hf.
  destruct (hasShape_dims Sh HH HW) as (Eh & Ew & Ef).
  exists (map (fun f' => drawToCanvas (scaleTo255 (featurePlane data f')) Viridis)
              (seq 0 (Nat.min F 32))).
  split.
  { unfold featureMapCanvases. rewrite Ef.
    unfold convHeight in Eh. unfold convWidth in Ew.
    destruct data as [|[|cell row] rows]; simpl in Eh, Ew; try lia.
    reflexivity. }
  split; [rewrite length_map, length_seq; reflexivity|].
  split; [unfold moreText; rewrite Ef; reflexivity|].
  split.
  { intros Hge. apply nth_error_None.
    rewrite length_map, length_seq. lia. }
  intros Hlt.
  destruct (@filterCanvas_pixels data H W F f Sh HH HW)
    as (mn & mx & bytes & Hmn & Hmx & Hc & Hpix).
  exists mn, mx, bytes.
  split; [exact Hmn|]. split; [exact Hmx|]. split; [|exact Hpix].
  rewrite nth_error_map, nth_error_seq.
  replace (f <? Nat.min F 32)%nat with true
    by (symmetry; apply Nat.ltb_lt; lia).
  simpl. rewrite Hc. reflexivity.
Qed.

(** *** The two canvases of the class activation map *)

Lemma reluCam_shape (d : Tensor3) (H W F : nat) :
  hasShape d H W F -> (1 <= H)%nat -> (1 <= W)%nat ->
  hasShape2 (reluCam d) H W.
Proof.
  intros Sh HH HW. destruct (hasShape_dims Sh HH HW) as (EH & EW & _).
  unfold reluCam. rewrite EH, EW. split.
  - rewrite length_map, length_seq. reflexivity.
  - apply Forall_forall. intros row Hin. apply in_map_iff in Hin.
    destruct Hin as (y & <- & _). rewrite length_map, length_seq. reflexivity.
Qed.

Lemma map_map_shape (g : Q -> Q) (c : list (list Q)) (H W : nat) :
  hasShape2 c H W -> hasShape2 (map (map g) c) H W.
Proof.
  intros [L R]. split; [rewrite length_map; exact L|].
  apply Forall_forall. intros row Hin. apply in_map_iff in Hin.
  destruct Hin as (r & <- & Hr). rewrite length_map.
  rewrite Forall_forall in R. apply R, Hr.
Qed.

Lemma normalize_unit (c heat : list (list Q)) (H W : nat) :
  hasShape2 c H W -> normalize c = Some heat ->
  hasShape2 heat H W /\ forall v, In v (concat heat) -> 0 <= v <= 1.
Proof.
  intros Sh. unfold normalize. cbv zeta.
  destruct (Math_max (concat c)) as [mx|] eqn:Hmx; [|discriminate].
  destruct (Math_min (concat c)) as [mn|] eqn:Hmn; [|discriminate].
  intros [= <-]. split; [apply map_map_shape, Sh|].
  intros v Hv. rewrite concat_map_map in Hv. apply in_map_iff in Hv.
  destruct Hv as (u & <- & Hu). apply scaled_unit. split.
  - apply (Math_min_spec _ Hmn), Hu.
  - apply (Math_max_spec _ Hmx), Hu.
Qed.

Lemma unitImage_cell (input : list (list Q)) (y x : nat) :
  unitImage input -> (y < 28)%nat -> (x < 28)%nat -> 0 <= at2 input y x <= 1.
Proof.
  intros [L R] Hy Hx. rewrite Forall_forall in R.
  destruct (R (nth y input [])) as [Lr Cells]; [apply nth_In; lia|].
  rewrite Forall_forall in Cells. apply Cells. unfold at2. apply nth_In. lia.
Qed.

Lemma blend_range (o : Q) (c : Z) :
  0 <= o <= 255 -> (0 <= c <= 255)%Z ->
  (0 <= JS.Math_round (o * (1 - 0.6) + inject_Z c * 0.6) <= 255)%Z.
Proof.
  intros [Lo Uo] [Lc Uc].
  rewrite Zle_Qle in Lc, Uc.
  change (inject_Z 0) with 0 in Lc. change (inject_Z 255) with 255 in Uc.
  split.
  - apply round_lower. change (inject_Z 0) with 0. lra.
  - apply round_upper. change (inject_Z 255) with 255. lra.
Qed.

Lemma camIndex_inside (conv y : nat) :
  (1 <= conv)%nat -> (y < 28)%nat -> (Z.to_nat (camIndex conv y) < conv)%nat.
Proof.
  intros Hc Hy. unfold camIndex. cbv zeta.
  generalize (Qfloor (JS.fdiv (inject_Z (Z.of_nat y))
                              (JS.fdiv 28 (inject_Z (Z.of_nat conv))))).
  intros z. lia.
Qed.

Lemma overlayPixel_length (cam input : list (list Q)) (y x : nat) :
  length (map toUint8Clamped (overlayPixel cam input y x)) = 4%nat.
Proof. reflexivity. Qed.

Lemma camColor_comp (u v : Q) : u == v -> camColor u = camColor v.
Proof.
  intros E. unfold camColor.
  rewrite (@Math_round_comp (u * 3 * 255) (v * 3 * 255)) by (rewrite E; reflexivity).
  rewrite (@Math_round_comp (Qmax 0 (u - 0.33) * 3 * 255)
                            (Qmax 0 (v - 0.33) * 3 * 255))
    by (rewrite E; reflexivity).
  rewrite (@Math_round_comp (Qmax 0 (u - 0.67) * 3 * 255)
                            (Qmax 0 (v - 0.67) * 3 * 255))
    by (rewrite E; reflexivity).
  reflexivity.
Qed.

(** X9.  The two canvases that [computeCAM] fills, for an activation of
    shape [H, W, F], its normalised heat map [cam] and a 28 by 28 input
    with values between 0 and 1.  Both get 28 * 28 * 4 numbers.  Every
    pixel of the overlay reads a cell of the heat map, whose value lies
    between 0 and 1; the numbers written lie between 0 and 255, so they
    are stored as computed; where the heat map is 0 the pixel is the grey
    of the input at four tenths of its brightness.  The pixel of the
    first canvas is the grey [round (input * 255)]. *)
Theorem cam_canvases (d : Tensor3) (H W F : nat) (cam input : list (list Q)) :
  hasShape d H W F -> (1 <= H)%nat -> (1 <= W)%nat ->
  normalize (reluCam d) = Some cam ->
  unitImage input ->
  length (overlayImageData cam input) = 3136%nat
  /\ length (originalImageData input) = 3136%nat
  /\ forall y x, (y < 28)%nat -> (x < 28)%nat ->
       let camY := Z.to_nat (camIndex H y) in
       let camX := Z.to_nat (camIndex W x) in
       let val := JS.Math_round (at2 input y x * 255) in
       (camY < H)%nat /\ (camX < W)%nat
       /\ 0 <= at2 cam camY camX <= 1
       /\ pixelAt (overlayImageData cam input) 28 y x = overlayPixel cam input y x
       /\ Forall (fun b => (0 <= b <= 255)%Z) (overlayPixel cam input y x)
       /\ (at2 cam camY camX == 0 ->
           let grey := JS.Math_round (at2 input y x * 255 * (1 - 0.6)) in
           overlayPixel cam input y x = [grey; grey; grey; 255%Z])
       /\ (0 <= val <= 255)%Z
       /\ pixelAt (originalImageData input) 28 y x = [val; val; val; 255%Z].
Proof.
  intros Sh HH HW Hn Hin.
  destruct (normalize_unit (reluCam_shape Sh HH HW) Hn) as [Sh2 Unit].
  pose proof Sh2 as [L _].
  assert (W0 : length (nth 0 cam []) = W) by (apply (hasShape2_row Sh2); lia).
  split; [|split].
  - unfold overlayImageData.
    apply (grid_length (fun y x => map toUint8Clamped (overlayPixel cam input y x))).
    intros; reflexivity.
  - unfold originalImageData.
    apply (grid_length
             (fun y x =>
                map toUint8Clamped
                    [JS.Math_round (at2 input y x * 255);
                     JS.Math_round (at2 input y x * 255);
                     JS.Math_round (at2 input y x * 255); 255%Z])).
    intros; reflexivity.
  - intros y x Hy Hx. cbv zeta.
    pose proof (camIndex_inside HH Hy) as IY.
    pose proof (camIndex_inside HW Hx) as IX.
    pose proof (unitImage_cell Hin Hy Hx) as [Li Ui].
    assert (C : 0 <= at2 cam (Z.to_nat (camIndex H y)) (Z.to_nat (camIndex W x)) <= 1).
    { apply Unit, cell_in_concat; [lia|].
      rewrite (hasShape2_row Sh2) by exact IY. exact IX. }
    assert (O : 0 <= at2 input y x * 255 <= 255) by (split; nra).
    assert (R : Forall (fun b => (0 <= b <= 255)%Z) (overlayPixel cam input y x)).
    { unfold overlayPixel. cbv zeta. rewrite L, W0.
      destruct (channels_clamped (proj1 C)) as ((Rr & Rg & Rb) & _).
      repeat constructor; try lia; apply blend_range; assumption. }
    assert (V : (0 <= JS.Math_round (at2 input y x * 255) <= 255)%Z)
      by (apply round_scaled; split; assumption).
    split; [exact IY|]. split; [exact IX|]. split; [exact C|].
    split; [|split; [exact R|split; [|split; [exact V|]]]].
    + unfold overlayImageData.
      rewrite (pixelAt_grid
                 (fun y x => map toUint8Clamped (overlayPixel cam input y x))
                 (overlayPixel_length cam input) Hy Hx).
      rewrite <- (map_id (overlayPixel cam input y x)) at 2.
      apply map_ext_in. intros b Hb. rewrite Forall_forall in R.
      apply toUint8Clamped_id, R, Hb.
    + intros Z0. unfold overlayPixel. cbv zeta. rewrite L, W0.
      rewrite (camColor_comp Z0). change (camColor 0) with (mkRGB 0 0 0).
      cbn [red green blue].
      rewrite (@Math_round_comp (at2 input y x * 255 * (1 - 0.6) + inject_Z 0 * 0.6)
                                (at2 input y x * 255 * (1 - 0.6)))
        by (change (inject_Z 0) with 0; ring).
      reflexivity.
    + unfold originalImageData.
      rewrite (pixelAt_grid
                 (fun y x =>
                    map toUint8Clamped
                        [JS.Math_round (at2 input y x * 255);
                         JS.Math_round (at2 input y x * 255);
                         JS.Math_round (at2 input y x * 255); 255%Z])
                 (fun _ _ => eq_refl) Hy Hx).
      simpl map. rewrite !toUint8Clamped_id by lia. reflexivity.
Qed.

(** *** The two hot colour maps *)

Lemma hot_clamped (a c : Q) :
  (a * 3 <= 1 /\ 255 * c == a * 3 * 255) \/ (1 <= a * 3 /\ c == 1) ->
  Z.min 255 (JS.Math_round (a * 3 * 255)) = JS.Math_round (255 * c).
Proof.
  intros [[U E]|[L E]].
  - rewrite (Math_round_comp E).
    assert (B : (JS.Math_round (a * 3 * 255) <= 255)%Z).
    { apply round_upper. change (inject_Z 255) with 255. lra. }
    lia.
  - rewrite (@Math_round_comp (255 * c) 255) by (rewrite E; reflexivity).
    assert (B : (255 <= JS.Math_round (a * 3 * 255))%Z).
    { apply round_lower. change (inject_Z 255) with 255. lra. }
    change (JS.Math_round 255) with 255%Z. lia.
Qed.

Lemma hot_channel (w : Q) :
  Z.min 255 (JS.Math_round (Qmax 0 w * 3 * 255))
  = JS.Math_round (255 * Qmax 0 (Qmin 1 (w * 3))).
Proof.
  apply hot_clamped.
  destruct (Q.max_spec 0 w) as [[L1 E1]|[L1 E1]];
    destruct (Q.min_spec 1 (w * 3)) as [[L2 E2]|[L2 E2]];
    destruct (Q.max_spec 0 (Qmin 1 (w * 3))) as [[L3 E3]|[L3 E3]];
    rewrite E1, E3; rewrite ?E2 in *; lra.
Qed.

(** X10.  The colour map written inline in [computeCAM] and [hotColor]
    of the utilities give the same colour for every value, also outside
    the range from 0 to 1. *)
Theorem camColor_is_hotColor (v : Q) : camColor v = hotColor v.
Proof.
  unfold camColor, hotColor. f_equal.
  - apply hot_clamped.
    destruct (Q.min_spec 1 (v * 3)) as [[L E]|[L E]]; rewrite E; lra.
  - rewrite hot_channel. reflexivity.
  - rewrite hot_channel. reflexivity.
Qed.

(** *** Scaling a tensor for display *)

Lemma nth_map_map (g : Q -> Q) (p : list (list Q)) (y x : nat) :
  (x < length (nth y p []))%nat ->
  at2 (map (map g) p) y x = g (at2 p y x).
Proof.
  intros Hx. unfold at2. change (@nil Q) with (map g []) at 1.
  rewrite map_nth.
  rewrite (nth_indep _ 0 (g 0)) by (rewrite length_map; exact Hx).
  apply map_nth.
Qed.

(** X11.  [tensorToImageData] with normalisation keeps the shape of the
    tensor and maps every value into the range from 0 to 255; the least
    value is mapped to 0, so a tensor whose values are all equal becomes
    all zeros: the divisor is the spread of the values plus 1e-8 and is
    never zero.  Without normalisation the values are returned as they
    are. *)
Theorem tensorToImageData_range (tensor : list (list Q)) :
  map (@length Q) (tensorToImageData tensor true) = map (@length Q) tensor
  /\ (forall v, In v (concat (tensorToImageData tensor true)) -> 0 <= v <= 255)
  /\ (forall y x,
        (x < length (nth y tensor []))%nat ->
        (forall u, In u (concat tensor) -> at2 tensor y x <= u) ->
        at2 (tensorToImageData tensor true) y x == 0)
  /\ tensorToImageData tensor false = tensor.
Proof.
  unfold tensorToImageData.
  destruct (concat tensor) as [|a r] eqn:N.
  - simpl. split; [reflexivity|]. split; [|split; [|reflexivity]].
    + rewrite N. intros v [].
    + intros y x Hx _. exfalso.
      assert (Hy : (y < length tensor)%nat).
      { destruct (Nat.lt_ge_cases y (length tensor)) as [Lt|Ge]; [exact Lt|].
        rewrite (nth_overflow tensor [] Ge) in Hx. simpl in Hx. lia. }
      pose proof (cell_in_concat tensor Hy Hx) as Hin. rewrite N in Hin.
      destruct Hin.
  - assert (Hmn : Math_min (a :: r) = Some (fold_left Qmin r a)) by reflexivity.
    assert (Hmx : Math_max (a :: r) = Some (fold_left Qmax r a)) by reflexivity.
    rewrite Hmn, Hmx.
    set (mn := fold_left Qmin r a) in *. set (mx := fold_left Qmax r a) in *.
    rewrite <- N in Hmn, Hmx.
    split; [|split; [|split; [|reflexivity]]].
    + rewrite map_map. apply map_ext. intros row. apply length_map.
    + intros v Hv. rewrite concat_map_map in Hv. apply in_map_iff in Hv.
      destruct Hv as (u & <- & Hu).
      pose proof (proj2 (Math_min_spec _ Hmn) u Hu) as L.
      pose proof (proj2 (Math_max_spec _ Hmx) u Hu) as U.
      assert (D : 0 < mx - mn + (1 # 100000000)) by lra.
      assert (F : 0 <= (u - mn) / (mx - mn + (1 # 100000000)) <= 1).
      { split.
        - apply Qle_shift_div_l; [exact D | lra].
        - apply Qle_shift_div_r; [exact D | lra]. }
      split; nra.
    + intros y x Hx Least. rewrite <- N in Least.
      rewrite (nth_map_map
                 (fun v => (v - mn) / (mx - mn + (1 # 100000000)) * 255) tensor y Hx).
      assert (Hy : (y < length tensor)%nat).
      { destruct (Nat.lt_ge_cases y (length tensor)) as [Lt|Ge]; [exact Lt|].
        rewrite (nth_overflow tensor [] Ge) in Hx. simpl in Hx. lia. }
      pose proof (cell_in_concat tensor Hy Hx) as Hin.
      pose proof (proj2 (Math_min_spec _ Hmn) _ Hin) as L.
      pose proof (Least mn (proj1 (Math_min_spec _ Hmn))) as U.
      assert (E : at2 tensor y x - mn == 0) by lra.
      rewrite E. unfold Qdiv. ring.
Qed.

End CanvasFacts.

Lemma featureMapCanvas_pixels_witness :
  let data := [[repeat 1 33; repeat 2 33]]%Q in
  exists canvases,
    Viz.featureMapCanvases data = Some canvases
    /\ length canvases = 32%nat
    /\ Viz.moreText data = Some 1%nat
    /\ nth_error canvases 32 = None
    /\ nth_error canvases 31
       = Some (2%nat, 1%nat, Some [68; 0; 84; 255; 159; 255; 107; 255]%Z).
Proof.
  intros data.
  assert (Sh : Cam.hasShape data 1 2 33)
    by (split; [reflexivity|repeat constructor]).
  destruct (@featureMapCanvas_pixels data 1 2 33 32 Sh
              ltac:(lia) ltac:(lia) ltac:(lia))
    as (canvases & Hc & Hlen & Hmore & Hnone & _).
  exists canvases.
  split; [exact Hc|]. split; [exact Hlen|]. split; [exact Hmore|].
  split; [apply Hnone; lia|].
  vm_compute in Hc. injection Hc as <-. vm_compute. reflexivity.
Defined.

Lemma cam_canvases_witness :
  exists cam,
    Cam.normalize (Cam.reluCam [[[1%Q]]]) = Some cam
    /\ length (Viz.overlayImageData cam (repeat (repeat (1 # 2)%Q 28) 28)) = 3136%nat.
Proof.
  eexists. split.
  - vm_compute. reflexivity.
  - refine (proj1 (@cam_canvases [[[1%Q]]] 1 1 1 _ (repeat (repeat (1 # 2)%Q 28) 28)
                                 _ _ _ _ _)).
    + split; [reflexivity|]. repeat constructor.
    + lia.
    + lia.
    + vm_compute. reflexivity.
    + split; [reflexivity|]. apply Forall_forall. intros row Hin.
      apply repeat_spec in Hin. subst row. split; [reflexivity|].
      apply Forall_forall. intros v Hv. apply repeat_spec in Hv. subst v.
      split; discriminate.
Defined.

(* ------------------------------------------------------------------------- *)
(** ** Facts about the prediction and the drawing canvas *)

Section AppFacts.

Import Cam Viz Canvas App.
Local Open Scope Q_scope.

Lemma indexOfFrom_found (v : Q) (l : list Q) :
  forall i : Z,
    (exists a, In a l /\ a == v) ->
    exists (n : nat) (a : Q),
      indexOfFrom l v i = (i + Z.of_nat n)%Z
      /\ nth_error l n = Some a /\ a == v
      /\ forall j b, (j < n)%nat -> nth_error l j = Some b -> ~ b == v.
Proof.
  induction l as [|a r IH]; intros i (x & Hin & Hx); [destruct Hin|].
  simpl. destruct (Qeq_bool a v) eqn:B.
  - exists O, a. repeat split.
    + lia.
    + apply Qeq_bool_eq, B.
    + intros j b Hj. lia.
  - assert (Hr : exists y, In y r /\ y == v).
    { destruct Hin as [<-|Hin]; [|eauto].
      apply Qeq_bool_neq in B. contradiction. }
    destruct (IH (i + 1)%Z Hr) as (n & y & E & Hn & Hy & First).
    exists (S n), y. repeat split; try assumption.
    + rewrite E. lia.
    + intros j b Hj Hb. destruct j as [|j].
      * simpl in Hb. injection Hb as <-. apply Qeq_bool_neq, B.
      * apply (First j b); [lia | exact Hb].
Qed.

(** X12.  The class shown for a prediction: for a non-empty array of
    probabilities it is an index of the array, the confidence shown is
    the probability at that index, no probability is greater, and every
    probability at an earlier index is smaller, so that among equal
    greatest probabilities the first wins.  For an empty array the class
    is -1 and there is no confidence. *)
Theorem predictedClass_first_greatest (probsArray : list Q) :
  (probsArray <> [] ->
   exists (n : nat) (p : Q),
     predictedClass probsArray = Z.of_nat n
     /\ (n < length probsArray)%nat
     /\ conf probsArray = Some p
     /\ nth_error probsArray n = Some p
     /\ (forall q, In q probsArray -> q <= p)
     /\ (forall j q, (j < n)%nat -> nth_error probsArray j = Some q -> q < p))
  /\ (probsArray = [] ->
      predictedClass probsArray = (-1)%Z /\ conf probsArray = None).
Proof.
  split.
  - intros Hne. unfold conf, predictedClass.
    destruct (Math_max probsArray) as [m|] eqn:Hm;
      [|destruct probsArray; [contradiction | discriminate]].
    destruct (Math_max_spec _ Hm) as [Hin Hub].
    destruct (@indexOfFrom_found m probsArray 0%Z) as (n & p & E & Hn & Hp & First).
    { exists m. split; [exact Hin | reflexivity]. }
    unfold indexOf. rewrite E. simpl Z.add.
    exists n, p. split; [reflexivity|].
    assert (Hlen : (n < length probsArray)%nat)
      by (apply nth_error_Some; rewrite Hn; discriminate).
    split; [exact Hlen|].
    replace (Z.of_nat n <? 0)%Z with false by (symmetry; apply Z.ltb_ge; lia).
    rewrite Nat2Z.id. split; [exact Hn|]. split; [exact Hn|]. split.
    + intros q Hq. rewrite Hp. apply Hub, Hq.
    + intros j q Hj Hq.
      assert (Hle : q <= m) by (apply Hub; apply (nth_error_In _ _ Hq)).
      pose proof (First j q Hj Hq) as Hneq.
      rewrite Hp. destruct (Qlt_le_dec q m) as [Lt|Ge]; [exact Lt|].
      exfalso. apply Hneq. apply Qle_antisym; assumption.
  - intros ->. split; reflexivity.
Qed.

(** *** The input tensor *)

Lemma getImageTensor_cell (data : list Z) (y x : nat) :
  (y < 28)%nat -> (x < 28)%nat ->
  at2 (getImageTensor data) y x = inject_Z (nth ((y * 28 + x) * 4) data 0%Z) / 255.
Proof.
  intros Hy Hx. unfold at2, getImageTensor.
  rewrite nth_map_seq by exact Hy. rewrite nth_map_seq by exact Hx.
  reflexivity.
Qed.

(** X13.  The tensor that DrawingCanvas hands to the model, from image
    data of 28 * 28 pixels with bytes between 0 and 255: it has 28 rows of
    28 values between 0 and 1, the value of a pixel being its red byte
    divided by 255, and the first canvas of the class activation map,
    which draws [round (value * 255)], shows exactly the red byte
    again. *)
Theorem getImageTensor_round_trip (data : list Z) :
  length data = 3136%nat ->
  Forall (fun b => (0 <= b <= 255)%Z) data ->
  unitImage (getImageTensor data)
  /\ forall y x, (y < 28)%nat -> (x < 28)%nat ->
       let red := nth ((y * 28 + x) * 4) data 0%Z in
       at2 (getImageTensor data) y x == inject_Z red / 255
       /\ pixelAt (originalImageData (getImageTensor data)) 28 y x
          = [red; red; red; 255%Z].
Proof.
  intros Hlen Hbytes.
  assert (Byte : forall y x, (y < 28)%nat -> (x < 28)%nat ->
                   (0 <= nth ((y * 28 + x) * 4) data 0 <= 255)%Z).
  { intros y x Hy Hx. rewrite Forall_forall in Hbytes.
    apply Hbytes, nth_In. lia. }
  assert (Unit : forall y x, (y < 28)%nat -> (x < 28)%nat ->
                   0 <= inject_Z (nth ((y * 28 + x) * 4) data 0%Z) / 255 <= 1).
  { intros y x Hy Hx. destruct (Byte y x Hy Hx) as [L U].
    rewrite Zle_Qle in L, U.
    change (inject_Z 0) with 0 in L. change (inject_Z 255) with 255 in U.
    split.
    - apply Qle_shift_div_l; [reflexivity | lra].
    - apply Qle_shift_div_r; [reflexivity | lra]. }
  split.
  - split; [reflexivity|]. apply Forall_forall. intros row Hrow.
    unfold getImageTensor in Hrow. apply in_map_iff in Hrow.
    destruct Hrow as (y & <- & Hy). apply in_seq in Hy.
    split; [rewrite length_map, length_seq; reflexivity|].
    apply Forall_forall. intros v Hv. apply in_map_iff in Hv.
    destruct Hv as (x & <- & Hx). apply in_seq in Hx.
    apply Unit; lia.
  - intros y x Hy Hx. cbv zeta. split.
    + rewrite getImageTensor_cell by assumption. reflexivity.
    + unfold originalImageData.
      rewrite (pixelAt_grid
                 (fun y x =>
                    map toUint8Clamped
                        [JS.Math_round (at2 (getImageTensor data) y x * 255);
                         JS.Math_round (at2 (getImageTensor data) y x * 255);
                         JS.Math_round (at2 (getImageTensor data) y x * 255);
                         255%Z])
                 (fun _ _ => eq_refl) Hy Hx).
      rewrite getImageTensor_cell by assumption.
      assert (R : JS.Math_round
                    (inject_Z (nth ((y * 28 + x) * 4) data 0%Z) / 255 * 255)
                  = nth ((y * 28 + x) * 4) data 0%Z).
      { set (z := nth ((y * 28 + x) * 4) data 0%Z).
        assert (E : inject_Z z / 255 * 255 == inject_Z z) by field.
        assert (L : (z <= JS.Math_round (inject_Z z / 255 * 255))%Z)
          by (apply round_lower; lra).
        assert (U : (JS.Math_round (inject_Z z / 255 * 255) <= z)%Z)
          by (apply round_upper; lra).
        lia. }
      simpl map. rewrite R.
      rewrite !toUint8Clamped_id by (try apply Byte; try assumption; lia).
      reflexivity.
Qed.

(** *** An uploaded image *)

(** X14.  The rectangle into which an uploaded image is drawn, for a
    canvas and an image of positive width and height: it lies inside the
    canvas, it is centred, it has the proportions of the image, and it
    touches the canvas on the left and right or at the top and bottom. *)
Theorem uploadRect_fits (cw ch iw ih : Q) :
  0 < cw -> 0 < ch -> 0 < iw -> 0 < ih ->
  let r := uploadRect cw ch iw ih in
  0 <= left r /\ 0 <= top r
  /\ left r + width r + left r == cw
  /\ top r + height r + top r == ch
  /\ width r * ih == height r * iw
  /\ (left r == 0 \/ top r == 0).
Proof.
  intros Hcw Hch Hiw Hih. unfold uploadRect. cbv zeta. simpl.
  assert (Dw : cw / iw * iw == cw) by (field; lra).
  assert (Dh : ch / ih * ih == ch) by (field; lra).
  assert (Pw : 0 < cw / iw) by (apply Qlt_shift_div_l; lra).
  assert (Ph : 0 < ch / ih) by (apply Qlt_shift_div_l; lra).
  destruct (Q.min_spec (cw / iw) (ch / ih)) as [[Lt E]|[Le E]].
  - assert (S1 : iw * Qmin (cw / iw) (ch / ih) == cw)
      by (rewrite E; lra).
    assert (S2 : ih * Qmin (cw / iw) (ch / ih) <= ch).
    { rewrite E. nra. }
    assert (S3 : 0 <= ih * Qmin (cw / iw) (ch / ih)) by (rewrite E; nra).
    repeat split.
    + apply Qle_shift_div_l; lra.
    + apply Qle_shift_div_l; lra.
    + field.
    + field.
    + ring.
    + left. rewrite S1. field.
  - assert (S1 : ih * Qmin (cw / iw) (ch / ih) == ch)
      by (rewrite E; lra).
    assert (S2 : iw * Qmin (cw / iw) (ch / ih) <= cw).
    { rewrite E. nra. }
    assert (S3 : 0 <= iw * Qmin (cw / iw) (ch / ih)) by (rewrite E; nra).
    repeat split.
    + apply Qle_shift_div_l; lra.
    + apply Qle_shift_div_l; lra.
    + field.
    + field.
    + ring.
    + right. rewrite S1. field.
Qed.

End AppFacts.

Lemma predictedClass_first_greatest_witness :
  exists (n : nat) (p : Q),
    App.predictedClass [1 # 10; 7 # 10; 7 # 10; 2 # 10]%Q = Z.of_nat n
    /\ App.conf [1 # 10; 7 # 10; 7 # 10; 2 # 10]%Q = Some p.
Proof.
  destruct (proj1 (predictedClass_first_greatest [1 # 10; 7 # 10; 7 # 10; 2 # 10]%Q))
    as (n & p & Hn & _ & Hp & _).
  - discriminate.
  - exists n, p. split; assumption.
Defined.

Lemma getImageTensor_round_trip_witness :
  Viz.unitImage (Canvas.getImageTensor (repeat 255%Z 3136)).
Proof.
  apply (@getImageTensor_round_trip (repeat 255%Z 3136)).
  - apply repeat_length.
  - apply Forall_forall. intros b Hb. apply repeat_spec in Hb. subst b. lia.
Defined.

Lemma uploadRect_fits_witness :
  (0 <= Canvas.left (Canvas.uploadRect 280 280 100 50))%Q.
Proof.
  apply (@uploadRect_fits 280 280 100 50); reflexivity.
Defined.

(* ------------------------------------------------------------------------- *)
(** ** More facts about the training loop *)

Section WatchFacts.

Import Train Watch.

Variable E : Env.

Implicit Types (s : State E) (r : Run E).

Ltac stretches :=
  unfold epochHead, epochWait, batchHead, batchWait, batchBody,
         afterBatches, afterTrain, afterValidation, finish, suspend.

Ltac cases :=
  repeat match goal with
    | |- context [if ?c then _ else _] => destruct c eqn:?
    | |- context [match Mnist.getBatch ?a ?b ?c ?d with _ => _ end] =>
        destruct (Mnist.getBatch a b c d) eqn:?
    | |- context [let '(_, _) := ?p in _] => destruct p eqn:?
    end.

(** *** A call that has thrown *)

Lemma resume_unreturned s :
  (unreturned s -> isTraining (hook s) = true) ->
  unreturned (resume s) -> isTraining (hook (resume s)) = true.
Proof.
  unfold unreturned, resume. intros H.
  destruct (task s) as [r|] eqn:Ht; [|rewrite Ht; exact H].
  destruct (pc r) eqn:Hp;
    try (assert (T : isTraining (hook s) = true)
           by (apply H; exists r; split; [reflexivity|]; rewrite Hp; discriminate));
    repeat stretches; try destruct v; cases; simpl;
    rewrite ?Ht; intros (r' & [= <-] & Hn); simpl in Hn; try assumption;
    try (exfalso; apply Hn; reflexivity);
    try (exfalso; apply Hn; exact Hp).
Qed.

Lemma train_unreturned s (n : nat) (b : Z) (mo : option ModelId) :
  (unreturned s -> isTraining (hook s) = true) ->
  unreturned (train s n b mo) -> isTraining (hook (train s n b mo)) = true.
Proof.
  intros H. unfold train.
  destruct (match mo with Some m => Some m | None => model (hook s) end);
    [|exact H].
  destruct (dataRef (hook s)); [|exact H].
  unfold unreturned. repeat stretches. cases; simpl;
    intros (r' & [= <-] & Hn); simpl in Hn; try reflexivity;
    exfalso; apply Hn; reflexivity.
Qed.

Lemma step_unreturned (e : Event E) s :
  (unreturned s -> isTraining (hook s) = true) ->
  unreturned (step e s) -> isTraining (hook (step e s)) = true.
Proof.
  intros H. destruct e as [| |m w|[[m w]|]|[[m w]|]|d|n b mo|]; simpl;
    try exact H.
  - destruct (Bool.bool_dec (isTraining (hook s)) true) as [T|T].
    + rewrite T. intros _. exact T.
    + apply not_true_is_false in T. rewrite T.
      apply train_unreturned. exact H.
  - apply resume_unreturned. exact H.
Qed.

Lemma run_unreturned (evs : list (Event E)) :
  forall s,
    (unreturned s -> isTraining (hook s) = true) ->
    unreturned (run evs s) -> isTraining (hook (run evs s)) = true.
Proof.
  induction evs as [|e evs IH]; intros s H; [exact H|].
  simpl. apply IH. apply step_unreturned. exact H.
Qed.

Lemma step_after_throw (e : Event E) s r :
  isTraining (hook s) = true -> task s = Some r -> pc r = PThrew E ->
  isTraining (hook (step e s)) = true /\ task (step e s) = Some r
  /\ calls (step e s) = calls s /\ evals (step e s) = evals s.
Proof.
  intros T Ht Hp.
  destruct e as [| |m w|[[m w]|]|[[m w]|]|d|n b mo|]; simpl; auto.
  - rewrite T. auto.
  - unfold resume. rewrite Ht, Hp. auto.
Qed.

(** X15.  Once a call of [train] has thrown, because the data set gave
    no batch or because the model it trains was disposed, [isTraining]
    stays set whatever is done next: every later call of [train] from
    the interface is refused, and [trainOnBatch] and [evaluate] are never
    called again. *)
Theorem thrown_run_blocks_training (w0 : Weights E)
    (evs later : list (Event E)) r :
  let s := run evs (initial E w0) in
  task s = Some r -> pc r = PThrew E ->
  isTraining (hook (run later s)) = true
  /\ task (run later s) = Some r
  /\ calls (run later s) = calls s
  /\ evals (run later s) = evals s.
Proof.
  intros s Ht Hp.
  assert (T : isTraining (hook s) = true).
  { apply run_unreturned.
    - intros (r0 & Hr0 & _). discriminate Hr0.
    - exists r. split; [exact Ht|]. rewrite Hp. discriminate. }
  clearbody s. revert s Ht T.
  induction later as [|e later IH]; intros s Ht T; [auto|].
  simpl. destruct (@step_after_throw e s r T Ht Hp) as (T' & Ht' & Hc & He).
  destruct (IH _ Ht' T') as (A & B & C & D).
  rewrite C, D. auto.
Qed.

(** *** What the panel shows *)

Lemma resume_lastPoint s : lastPoint (hook s) -> lastPoint (hook (resume s)).
Proof.
  unfold resume. intros H.
  destruct (task s) as [r|] eqn:Ht; [|exact H].
  destruct (pc r) eqn:Hp; repeat stretches; try destruct v; cases; simpl;
    try exact H;
    unfold lastPoint; simpl; rewrite map_app; simpl; rewrite last_last;
    reflexivity.
Qed.

Lemma step_lastPoint (e : Event E) s :
  lastPoint (hook s) -> lastPoint (hook (step e s)).
Proof.
  intros H. destruct e as [| |m w|[[m w]|]|[[m w]|]|d|n b mo|]; simpl;
    try exact H; try reflexivity.
  - destruct (isTraining (hook s)); [exact H|].
    unfold train.
    destruct (match mo with Some m => Some m | None => model (hook s) end);
      [|exact H].
    destruct (dataRef (hook s)); [|exact H].
    repeat stretches. cases; simpl; exact H.
  - apply resume_lastPoint, H.
Qed.

(** X16.  In every reachable state the last validation accuracy the
    hook reports is the last point of the published validation-accuracy
    curve, and there is none exactly when the curve is empty. *)
Theorem last_accuracy_is_last_point (w0 : Weights E) (evs : list (Event E)) :
  let h := hook (run evs (initial E w0)) in
  lastValAccuracy h = last (map Some (valAccuracy (trainingHistory h))) None
  /\ (lastValAccuracy h = None <-> valAccuracy (trainingHistory h) = []).
Proof.
  assert (G : forall s, lastPoint (hook s) -> lastPoint (hook (run evs s))).
  { induction evs as [|e evs IH]; intros s H; [exact H|].
    simpl. apply IH, step_lastPoint, H. }
  intros h. assert (L : lastPoint h) by (apply G; reflexivity).
  split; [exact L|]. unfold lastPoint in L. rewrite L.
  destruct (valAccuracy (trainingHistory h)) as [|a l] using rev_ind.
  - split; reflexivity.
  - rewrite map_app. simpl. rewrite last_last. split; [discriminate|].
    intros H. destruct l; discriminate H.
Qed.

Lemma resume_progress s :
  Inv s -> progressOK (trainingProgress (hook s)) ->
  progressOK (trainingProgress (hook (resume s))).
Proof.
  unfold resume. intros [_ HT] H.
  destruct (task s) as [r|] eqn:Ht; [|exact H].
  destruct HT as [[_ Hr] _].
  destruct (pc r) eqn:Hp; repeat stretches; try destruct v; cases; simpl;
    try exact H;
    destruct Hr as (_ & _ & _ & _ & Hn); unfold progressOK; simpl; lia.
Qed.

Lemma step_progress (e : Event E) s :
  Inv s -> progressOK (trainingProgress (hook s)) ->
  progressOK (trainingProgress (hook (step e s))).
Proof.
  intros HI H. destruct e as [| |m w|[[m w]|]|[[m w]|]|d|n b mo|]; simpl;
    try exact H.
  - destruct (isTraining (hook s)); [exact H|].
    unfold train.
    destruct (match mo with Some m => Some m | None => model (hook s) end);
      [|exact H].
    destruct (dataRef (hook s)); [|exact H].
    repeat stretches. cases; simpl; exact H.
  - apply resume_progress; assumption.
Qed.

Lemma or_else_positive (t : Z) : 1 <= t -> JS.or_else (inject_Z t) 1%Q = inject_Z t.
Proof.
  intros Ht. unfold JS.or_else.
  destruct (Qeq_bool (inject_Z t) 0) eqn:B; [|reflexivity].
  apply Qeq_bool_eq in B. change 0%Q with (inject_Z 0) in B.
  apply (proj1 (inject_Z_injective t 0)) in B. lia.
Qed.

(** X17.  The progress the panel shows is, in every reachable state,
    either the initial one or batch [b] of [t] with [1 <= b <= t], and
    the width of the progress bar lies between 0 and 100 per cent. *)
Theorem progress_bar_within_track (w0 : Weights E) (evs : list (Event E)) :
  let p := trainingProgress (hook (run evs (initial E w0))) in
  progressOK p
  /\ (0 <= App.progressWidth (p_batch p) (p_totalBatches p) <= 100)%Q.
Proof.
  assert (G : forall s, Inv s -> progressOK (trainingProgress (hook s)) ->
                progressOK (trainingProgress (hook (run evs s)))).
  { induction evs as [|e evs IH]; intros s HI H; [exact H|].
    simpl. apply IH; [apply step_Inv, HI | apply step_progress; assumption]. }
  intros p.
  assert (P : progressOK p).
  { apply G; [apply initial_Inv|]. unfold progressOK. simpl. auto. }
  split; [exact P|]. unfold progressOK in P. unfold App.progressWidth.
  destruct (p_totalBatches p) as [t|].
  - destruct P as (B1 & Bt & _). rewrite or_else_positive by lia.
    assert (Pt : (0 < inject_Z t)%Q).
    { change 0%Q with (inject_Z 0). rewrite <- Zlt_Qlt. lia. }
    assert (Le : (inject_Z (Z.of_nat (p_batch p)) <= inject_Z t)%Q)
      by (rewrite <- Zle_Qle; exact Bt).
    assert (Ge : (0 <= inject_Z (Z.of_nat (p_batch p)))%Q).
    { change 0%Q with (inject_Z 0). rewrite <- Zle_Qle. lia. }
    assert (F : (0 <= inject_Z (Z.of_nat (p_batch p)) / inject_Z t <= 1)%Q).
    { split.
      - apply Qle_shift_div_l; [exact Pt | lra].
      - apply Qle_shift_div_r; [exact Pt | lra]. }
    split; lra.
  - destruct P as (B0 & _). rewrite B0. split; discriminate.
Qed.

(** *** What a run has trained on, paused or not *)

Lemma batchesUpTo_S r (k : nat) :
  batchesUpTo r (S k)
  = batchesUpTo r k
    ++ [Mnist.getBatch (trainImages (data r)) (trainLabels (data r))
                       (batchSize r) (Z.of_nat k)].
Proof. unfold batchesUpTo. rewrite seq_S, map_app. reflexivity. Qed.

Lemma trainedOn_app (w : Weights E) bs bs' :
  trainedOn E (trainedOn E w bs) bs' = trainedOn E w (bs ++ bs').
Proof. unfold trainedOn. rewrite fold_left_app. reflexivity. Qed.

Lemma concat_repeat_S {A : Type} (l : list A) (k : nat) :
  concat (repeat l (S k)) = concat (repeat l k) ++ l.
Proof.
  induction k as [|k IH]; simpl; [rewrite app_nil_r; reflexivity|].
  simpl in IH. rewrite IH at 1. rewrite app_assoc. reflexivity.
Qed.

Lemma length_concat_repeat {A : Type} (l : list A) (k : nat) :
  length (concat (repeat l k)) = (k * length l)%nat.
Proof.
  induction k as [|k IH]; simpl; [reflexivity|].
  rewrite length_app, IH. reflexivity.
Qed.

Lemma going_progress s r r' (p : TrainingProgress E) :
  activeModel r' = activeModel r -> data r' = data r ->
  batchSize r' = batchSize r -> nBatches r' = nBatches r ->
  going s r -> going (withHook s (setTrainingProgress (hook s) p)) r'.
Proof.
  intros E1 E2 E3 E4 (Hs & Hwf & Hbs & HnB & Hd).
  unfold going; simpl. rewrite E1, E2, E3, E4. auto 10.
Qed.

Section Counting.

Variables (m : ModelId) (d : MNISTData E) (b : Z) (n c0 e0 : nat)
  (w0 : Weights E).

Ltac same_batches r :=
  repeat match goal with
    | |- context [batchesUpTo ?x ?k] =>
        lazymatch x with
        | r => fail
        | _ => change (batchesUpTo x k) with (batchesUpTo r k)
        end
    end.

Ltac counted_leaf Go r :=
  unfold counted, suspend; simpl;
  eexists; split; [reflexivity|]; simpl;
  split; [assumption|]; split; [assumption|]; split; [assumption|];
  split; [assumption|]; split; [exact Go|];
  split; [try exact I; auto|];
  unfold fed, batchesDone, evalsDone; simpl; same_batches r.

Lemma afterBatches_counted s r :
  going s r -> activeModel r = m -> data r = d -> batchSize r = b ->
  epochs r = n ->
  calls s = (c0 + length (concat (repeat (batchesUpTo r (Z.to_nat (nBatches r)))
                                         (epoch r))
                          ++ batchesUpTo r (Z.to_nat (nBatches r))))%nat ->
  evals s = (e0 + epoch r)%nat ->
  heap s m = trainedOn E w0 (concat (repeat (batchesUpTo r (Z.to_nat (nBatches r)))
                                            (epoch r))
                             ++ batchesUpTo r (Z.to_nat (nBatches r))) ->
  counted m d b n c0 e0 w0 (afterBatches s r).
Proof.
  intros Go Hm Hdt Hbz Hn Hc He Hw. pose proof Go as (Hs & Hwf & Hbs & HnB & Hd).
  unfold afterBatches. rewrite Hs, Hd. counted_leaf Go r.
  split; [exact Hc|]. split; [lia | exact Hw].
Qed.

Lemma batchBody_counted s r :
  going s r -> activeModel r = m -> data r = d -> batchSize r = b ->
  epochs r = n ->
  Z.of_nat (batch r) < nBatches r ->
  calls s = (c0 + length (concat (repeat (batchesUpTo r (Z.to_nat (nBatches r)))
                                         (epoch r))
                          ++ batchesUpTo r (batch r)))%nat ->
  evals s = (e0 + epoch r)%nat ->
  heap s m = trainedOn E w0 (concat (repeat (batchesUpTo r (Z.to_nat (nBatches r)))
                                            (epoch r))
                             ++ batchesUpTo r (batch r)) ->
  counted m d b n c0 e0 w0 (batchBody s r).
Proof.
  intros Go Hm Hdt Hbz Hn Hb Hc He Hw.
  pose proof Go as (Hs & Hwf & Hbs & HnB & Hd).
  unfold batchBody. rewrite Hs, Hd.
  destruct (Mnist.getBatch _ _ _ _) as [bt|] eqn:G.
  - destruct (trainOnBatch E (heap s (activeModel r)) bt) as [w res] eqn:T.
    counted_leaf Go r.
    rewrite batchesUpTo_S, G, app_assoc.
    split; [|split; [lia|]].
    + rewrite length_app. simpl. rewrite Hc. lia.
    + rewrite <- trainedOn_app, <- Hw, Hm, Nat.eqb_refl.
      rewrite Hm in T. unfold trainedOn. simpl. rewrite T. reflexivity.
  - exfalso. refine (@getBatch_in_epoch E (data r) (batchSize r) (batch r) Hwf Hbs _ G).
    rewrite <- HnB. exact Hb.
Qed.

Lemma batchWait_counted s r :
  going s r -> activeModel r = m -> data r = d -> batchSize r = b ->
  epochs r = n ->
  Z.of_nat (batch r) < nBatches r ->
  calls s = (c0 + length (concat (repeat (batchesUpTo r (Z.to_nat (nBatches r)))
                                         (epoch r))
                          ++ batchesUpTo r (batch r)))%nat ->
  evals s = (e0 + epoch r)%nat ->
  heap s m = trainedOn E w0 (concat (repeat (batchesUpTo r (Z.to_nat (nBatches r)))
                                            (epoch r))
                             ++ batchesUpTo r (batch r)) ->
  counted m d b n c0 e0 w0 (batchWait s r).
Proof.
  intros Go Hm Hdt Hbz Hn Hb Hc He Hw.
  pose proof Go as (Hs & Hwf & Hbs & HnB & Hd).
  unfold batchWait. rewrite Hs. cbn [negb]. rewrite andb_true_r.
  destruct (pauseTrainingRef (hook s)).
  - counted_leaf Go r. split; [exact Hc|]. split; [lia | exact Hw].
  - apply batchBody_counted; assumption.
Qed.

Lemma batchHead_counted s r :
  going s r -> activeModel r = m -> data r = d -> batchSize r = b ->
  epochs r = n ->
  Z.of_nat (batch r) <= nBatches r ->
  calls s = (c0 + length (concat (repeat (batchesUpTo r (Z.to_nat (nBatches r)))
                                         (epoch r))
                          ++ batchesUpTo r (batch r)))%nat ->
  evals s = (e0 + epoch r)%nat ->
  heap s m = trainedOn E w0 (concat (repeat (batchesUpTo r (Z.to_nat (nBatches r)))
                                            (epoch r))
                             ++ batchesUpTo r (batch r)) ->
  counted m d b n c0 e0 w0 (batchHead s r).
Proof.
  intros Go Hm Hdt Hbz Hn Hb Hc He Hw.
  pose proof Go as (Hs & Hwf & Hbs & HnB & Hd).
  unfold batchHead. rewrite Hs.
  destruct (Z.of_nat (batch r) <? nBatches r) eqn:Lt.
  - apply Z.ltb_lt in Lt. apply batchWait_counted; assumption.
  - apply Z.ltb_ge in Lt.
    assert (Eb : batch r = Z.to_nat (nBatches r)) by lia.
    rewrite Eb in Hc, Hw. apply afterBatches_counted; assumption.
Qed.

Lemma afterTrain_counted s r (res : TrainResult (num E)) :
  going s r -> activeModel r = m -> data r = d -> batchSize r = b ->
  epochs r = n ->
  Z.of_nat (batch r) < nBatches r ->
  calls s = (c0 + length (concat (repeat (batchesUpTo r (Z.to_nat (nBatches r)))
                                         (epoch r))
                          ++ batchesUpTo r (S (batch r))))%nat ->
  evals s = (e0 + epoch r)%nat ->
  heap s m = trainedOn E w0 (concat (repeat (batchesUpTo r (Z.to_nat (nBatches r)))
                                            (epoch r))
                             ++ batchesUpTo r (S (batch r))) ->
  counted m d b n c0 e0 w0 (afterTrain s r res).
Proof.
  intros Go Hm Hdt Hbz Hn Hb Hc He Hw. unfold afterTrain.
  assert (Go' : forall r' p,
             activeModel r' = activeModel r -> data r' = data r ->
             batchSize r' = batchSize r -> nBatches r' = nBatches r ->
             going (withHook s (setTrainingProgress (hook s) p)) r')
    by (intros; apply going_progress with (r := r); assumption).
  destruct (Nat.eqb (batch r mod 10) 0).
  - unfold counted, suspend; simpl.
    eexists; split; [reflexivity|]; simpl.
    split; [assumption|]. split; [assumption|]. split; [assumption|].
    split; [assumption|]. split; [apply Go'; reflexivity|]. split; [exact I|].
    unfold fed, batchesDone, evalsDone; simpl. same_batches r.
    split; [exact Hc|]. split; [lia | exact Hw].
  - apply batchHead_counted; try (apply Go'; reflexivity); try assumption.
    change (Z.of_nat (S (batch r)) <= nBatches r). lia.
Qed.

Lemma epochWait_counted s r :
  going s r -> activeModel r = m -> data r = d -> batchSize r = b ->
  epochs r = n ->
  calls s = (c0 + length (concat (repeat (batchesUpTo r (Z.to_nat (nBatches r)))
                                         (epoch r))))%nat ->
  evals s = (e0 + epoch r)%nat ->
  heap s m = trainedOn E w0 (concat (repeat (batchesUpTo r (Z.to_nat (nBatches r)))
                                            (epoch r))) ->
  counted m d b n c0 e0 w0 (epochWait s r).
Proof.
  intros Go Hm Hdt Hbz Hn Hc He Hw.
  pose proof Go as (Hs & Hwf & Hbs & HnB & Hd).
  unfold epochWait. rewrite Hs. cbn [negb]. rewrite andb_true_r.
  destruct (pauseTrainingRef (hook s)).
  - counted_leaf Go r. unfold batchesUpTo at 2 4. simpl. rewrite app_nil_r.
    split; [exact Hc|]. split; [lia | exact Hw].
  - apply batchHead_counted; simpl; try assumption.
    + pose proof (@numBatches_ceiling (numTrain (data r)) (batchSize r) ltac:(lia))
        as [_ Hi].
      destruct Hwf as [Hnt _]. rewrite HnB. nia.
    + same_batches r. unfold batchesUpTo at 2. simpl. rewrite app_nil_r. exact Hc.
    + same_batches r. unfold batchesUpTo at 2. simpl. rewrite app_nil_r. exact Hw.
Qed.

Lemma epochHead_counted s r :
  going s r -> activeModel r = m -> data r = d -> batchSize r = b ->
  epochs r = n ->
  (epoch r <= epochs r)%nat ->
  calls s = (c0 + length (concat (repeat (batchesUpTo r (Z.to_nat (nBatches r)))
                                         (epoch r))))%nat ->
  evals s = (e0 + epoch r)%nat ->
  heap s m = trainedOn E w0 (concat (repeat (batchesUpTo r (Z.to_nat (nBatches r)))
                                            (epoch r))) ->
  counted m d b n c0 e0 w0 (epochHead s r).
Proof.
  intros Go Hm Hdt Hbz Hn Hle Hc He Hw.
  pose proof Go as (Hs & Hwf & Hbs & HnB & Hd).
  unfold epochHead. rewrite Hs.
  destruct (Nat.ltb (epoch r) (epochs r)) eqn:Lt.
  - apply epochWait_counted; assumption.
  - apply Nat.ltb_ge in Lt. unfold finish.
    unfold counted, suspend; simpl.
    eexists; split; [reflexivity|]; simpl.
    split; [assumption|]. split; [assumption|]. split; [assumption|].
    split; [assumption|]. split; [exact Go|]. split; [split; [lia | reflexivity]|].
    unfold fed, batchesDone, evalsDone; simpl. same_batches r.
    unfold batchesUpTo at 2 4. simpl. rewrite app_nil_r.
    split; [exact Hc|]. split; [lia | exact Hw].
Qed.

Lemma resume_counted s :
  Inv s -> counted m d b n c0 e0 w0 s -> counted m d b n c0 e0 w0 (resume s).
Proof.
  intros [_ HT] (r & Ht & Hm & Hdt & Hbz & Hn & Go & Hpc & Hc & He & Hw).
  rewrite Ht in HT. destruct HT as [[_ HrI] _].
  unfold resume. rewrite Ht.
  unfold fed, batchesDone, evalsDone in Hc, He, Hw.
  destruct (pc r) eqn:Hp0; try contradiction.
  - rewrite Nat.add_0_r in He.
    unfold batchesUpTo in Hc at 2. unfold batchesUpTo in Hw at 2.
    simpl in Hc, Hw. rewrite app_nil_r in Hc, Hw.
    apply epochWait_counted; assumption.
  - destruct HrI as (_ & _ & _ & _ & Hb).
    rewrite Nat.add_0_r in He. apply batchWait_counted; assumption.
  - destruct HrI as (_ & _ & _ & _ & Hb).
    rewrite Nat.add_0_r in He. apply afterTrain_counted; assumption.
  - destruct HrI as (_ & _ & _ & _ & Hb).
    rewrite Nat.add_0_r in He.
    apply batchHead_counted; try exact Go; try exact Hm; try exact Hdt;
      try exact Hbz; try exact Hn; try exact Hc; try exact He; try exact Hw.
    change (Z.of_nat (S (batch r)) <= nBatches r). lia.
  - unfold counted, suspend; simpl.
    eexists; split; [reflexivity|]; simpl.
    split; [assumption|]. split; [assumption|]. split; [assumption|].
    split; [assumption|]. split; [exact Go|]. split; [exact I|].
    unfold fed, batchesDone, evalsDone; simpl. same_batches r. auto.
  - unfold afterValidation. destruct v as [vl va].
    unfold counted, suspend; simpl.
    eexists; split; [reflexivity|]; simpl.
    split; [assumption|]. split; [assumption|]. split; [assumption|].
    split; [assumption|]. split; [exact Go|]. split; [exact I|].
    unfold fed, batchesDone, evalsDone; simpl. same_batches r. auto.
  - destruct HrI as (_ & Hlt).
    apply epochHead_counted; try exact Go; try exact Hm; try exact Hdt;
      try exact Hbz; try exact Hn.
    + change (S (epoch r) <= epochs r)%nat. lia.
    + change (calls s
              = (c0 + length (concat (repeat (batchesUpTo r (Z.to_nat (nBatches r)))
                                             (S (epoch r)))))%nat).
      rewrite concat_repeat_S. exact Hc.
    + change (evals s = (e0 + S (epoch r))%nat). lia.
    + change (heap s m
              = trainedOn E w0
                  (concat (repeat (batchesUpTo r (Z.to_nat (nBatches r)))
                                  (S (epoch r))))).
      rewrite concat_repeat_S. exact Hw.
  - exists r. rewrite Hp0.
    unfold fed, batchesDone, evalsDone. rewrite Hp0. auto 10.
Qed.

Lemma pause_counted s :
  counted m d b n c0 e0 w0 s -> counted m d b n c0 e0 w0 (pauseTraining s).
Proof.
  intros (r & Ht & Hm & Hdt & Hbz & Hn & Go & Hpc & Hc & He & Hw).
  exists r. unfold pauseTraining. simpl. auto 12.
Qed.

Lemma resumes_counted (N : nat) :
  forall s, Inv s -> counted m d b n c0 e0 w0 s ->
    counted m d b n c0 e0 w0 (run (repeat (EResume E) N) s).
Proof.
  induction N as [|N IH]; intros s HI Hc; [exact Hc|].
  simpl. apply IH; [apply resume_Inv, HI | apply resume_counted; assumption].
Qed.

Lemma pauses_counted (mid : list (Event E)) :
  forall s, forallb (@pauseOrResume E) mid = true ->
    Inv s -> counted m d b n c0 e0 w0 s ->
    Inv (run mid s) /\ counted m d b n c0 e0 w0 (run mid s).
Proof.
  induction mid as [|e mid IH]; intros s Hmid HI Hc; [split; assumption|].
  simpl in Hmid. apply andb_true_iff in Hmid. destruct Hmid as [He Hmid].
  simpl. apply IH; [exact Hmid | apply step_Inv, HI |].
  destruct e; try discriminate He; simpl.
  - apply pause_counted, Hc.
  - apply resume_counted; assumption.
Qed.

(** What the counters and the weights are when the run has returned. *)
Lemma counted_finished s :
  counted m d b n c0 e0 w0 s -> finished s ->
  let perEpoch := Loader.epochBatches (trainImages d) (trainLabels d) b in
  isTraining (hook s) = false
  /\ calls s = (c0 + n * length perEpoch)%nat
  /\ evals s = (e0 + n)%nat
  /\ heap s m = trainedOn E w0 (concat (repeat perEpoch n)).
Proof.
  intros (r & Ht & Hm & Hdt & Hbz & Hn & Go & Hpc & Hc & He & Hw)
         (r' & Ht' & Hp) perEpoch.
  rewrite Ht in Ht'. injection Ht' as <-.
  rewrite Hp in Hpc. destruct Hpc as [Hep Hfl].
  destruct Go as (_ & Hwf & _ & HnB & _).
  assert (HL : batchesUpTo r (Z.to_nat (nBatches r)) = perEpoch).
  { unfold batchesUpTo, perEpoch, Loader.epochBatches.
    rewrite HnB, Hdt, Hbz. rewrite Hdt in Hwf. destruct Hwf as [-> _]. reflexivity. }
  unfold fed, batchesDone, evalsDone in Hc, He, Hw.
  rewrite Hp, HL, Hep, Hn in *. unfold batchesUpTo in Hc, Hw. simpl in Hc, Hw.
  rewrite app_nil_r in Hc, Hw. rewrite length_concat_repeat in Hc.
  split; [exact Hfl|]. split; [exact Hc|]. split; [lia | exact Hw].
Qed.

(** Once the pause is lifted, one resumption brings the run to a point
    from which it goes on to its end. *)
Lemma counted_wakes s :
  Inv s -> counted m d b n c0 e0 w0 s -> pauseTrainingRef (hook s) = false ->
  onward (S (n * (2 * Z.to_nat (Mnist.numBatches (numTrain d) b) + 4))) (resume s).
Proof.
  intros [_ HT] (r & Ht & Hm & Hdt & Hbz & Hn & Go & Hpc & _) Hpause.
  rewrite Ht in HT. destruct HT as [HrAll _]. pose proof HrAll as [_ HrI].
  pose proof Go as (Hs & Hwf & Hbs & HnB & Hd).
  assert (So : sound s r) by (unfold sound; auto 10).
  assert (HP : perEpoch r
               = (2 * Z.to_nat (Mnist.numBatches (numTrain d) b) + 4)%nat)
    by (unfold perEpoch; rewrite HnB, Hdt, Hbz; reflexivity).
  rewrite <- HP, <- Hn.
  assert (Mono : forall M M' s', onward M s' -> (M <= M')%nat -> onward M' s').
  { intros M M' s' (r' & A & B & C & D) Le. exists r'.
    split; [exact A|]. split; [exact B|]. split; [exact C | lia]. }
  destruct (pc r) eqn:Hp0; try contradiction.
  - destruct HrI as (_ & Hlt).
    unfold resume. rewrite Ht, Hp0. unfold epochWait. rewrite Hs, Hpause.
    cbn [andb negb]. apply batchHead_onward; [exact So|].
    unfold rest, batchesLeft, perEpoch. simpl. nia.
  - destruct HrI as (_ & Hlt & _ & _ & Hb).
    unfold resume. rewrite Ht, Hp0. unfold batchWait. rewrite Hs, Hpause.
    cbn [andb negb]. apply batchBody_onward; [exact So | exact Hb |].
    unfold rest, batchesLeft, perEpoch. simpl. nia.
  - pose proof HrI as (_ & Hlt & _).
    apply Mono with (M := remaining r).
    + apply resume_onward; try exact HrAll; try assumption.
      * exists r. rewrite Hp0. auto.
      * rewrite Hp0. discriminate.
    + unfold remaining, rest, batchesLeft, perEpoch. rewrite Hp0. nia.
  - pose proof HrI as (_ & Hlt & _).
    apply Mono with (M := remaining r).
    + apply resume_onward; try exact HrAll; try assumption.
      * exists r. rewrite Hp0. auto.
      * rewrite Hp0. discriminate.
    + unfold remaining, rest, batchesLeft, perEpoch. rewrite Hp0. nia.
  - pose proof HrI as (_ & Hlt & _).
    apply Mono with (M := remaining r).
    + apply resume_onward; try exact HrAll; try assumption.
      * exists r. rewrite Hp0. auto.
      * rewrite Hp0. discriminate.
    + unfold remaining, rest, batchesLeft, perEpoch. rewrite Hp0. nia.
  - pose proof HrI as (_ & Hlt & _).
    apply Mono with (M := remaining r).
    + apply resume_onward; try exact HrAll; try assumption.
      * exists r. rewrite Hp0. auto.
      * rewrite Hp0. discriminate.
    + unfold remaining, rest, batchesLeft, perEpoch. rewrite Hp0. nia.
  - pose proof HrI as (_ & Hlt).
    apply Mono with (M := remaining r).
    + apply resume_onward; try exact HrAll; try assumption.
      * exists r. rewrite Hp0. auto.
      * rewrite Hp0. discriminate.
    + unfold remaining, rest, batchesLeft, perEpoch. rewrite Hp0. nia.
  - rewrite (@resume_done E s r Ht Hp0). exists r.
    split; [exact Ht|]. split; [exact So|]. rewrite Hp0. split; [exact I|].
    unfold remaining. rewrite Hp0. lia.
Qed.

End Counting.

Lemma train_counted s (n : nat) (b : Z) (mo : option ModelId)
    (m : ModelId) (d : MNISTData E) :
  modelOf s mo = Some m -> dataRef (hook s) = Some d ->
  wellFormed d -> 1 <= b -> disposed s m = false ->
  counted m d b n (calls s) (evals s) (heap s m) (train s n b mo).
Proof.
  intros Hm Hd Hwf Hb Hdis. unfold train. unfold modelOf in Hm.
  rewrite Hm, Hd. apply epochHead_counted; simpl; try reflexivity; try lia.
  unfold going; simpl. auto 10.
Qed.

(** X18.  A run of [n] epochs that is started on a live model and
    well-formed data with batches of at least one row, and is then only
    resumed, returns after at most [n * (2 * batches + 4)] resumptions
    with [isTraining] cleared.  It has called [evaluate] [n] times and
    [trainOnBatch] [n * batches] times, and the weights of the model are
    those obtained by training on the batches of an epoch, in the order
    [getBatch] gives them, [n] times over; none of these batches is
    missing. *)
Theorem full_run_trains_every_batch (w0 : Weights E) (evs0 : list (Event E))
    (n : nat) (b : Z) (mo : option ModelId) (m : ModelId) (d : MNISTData E) :
  let s0 := run evs0 (initial E w0) in
  isTraining (hook s0) = false ->
  modelOf s0 mo = Some m -> dataRef (hook s0) = Some d ->
  wellFormed d -> 1 <= b -> disposed s0 m = false ->
  let perEpoch := Loader.epochBatches (trainImages d) (trainLabels d) b in
  let N := (n * (2 * length perEpoch + 4))%nat in
  let s2 := run (ETrain E n b mo :: repeat (EResume E) N) s0 in
  finished s2
  /\ isTraining (hook s2) = false
  /\ calls s2 = (calls s0 + n * length perEpoch)%nat
  /\ evals s2 = (evals s0 + n)%nat
  /\ heap s2 m = trainedOn E (heap s0 m) (concat (repeat perEpoch n))
  /\ Forall (fun ob => ob <> None) perEpoch.
Proof.
  intros s0 Hidle Hm Hd Hwf Hb Hdis perEpoch N s2.
  assert (HI0 : Inv s0) by (apply run_Inv, initial_Inv).
  assert (HIt : Inv (train s0 n b mo)) by (apply train_Inv; exact HI0).
  assert (Hlen : length perEpoch = Z.to_nat (Mnist.numBatches (numTrain d) b)).
  { unfold perEpoch, Loader.epochBatches. rewrite length_map, length_seq.
    destruct Hwf as [-> _]. reflexivity. }
  assert (Hrun : s2 = run (repeat (EResume E) N) (train s0 n b mo))
    by (unfold s2; simpl; rewrite Hidle; reflexivity).
  assert (HN : N = (n * (2 * Z.to_nat (Mnist.numBatches (numTrain d) b) + 4))%nat)
    by (unfold N; rewrite Hlen; reflexivity).
  destruct (@steady_run_finishes E N _ HIt) as (Fin & _ & _).
  { rewrite HN. apply train_onward with (m := m); assumption. }
  pose proof (@resumes_counted m d b n (calls s0) (evals s0) (heap s0 m) N _ HIt
                (@train_counted s0 n b mo m d Hm Hd Hwf Hb Hdis)) as Cn.
  rewrite <- Hrun in Fin, Cn.
  destruct (counted_finished Cn Fin) as (Hfl & Hc & He & Hw).
  split; [exact Fin|]. split; [exact Hfl|]. split; [exact Hc|].
  split; [exact He|]. split; [exact Hw|].
  apply Forall_forall. intros ob Hin. unfold perEpoch, Loader.epochBatches in Hin.
  apply in_map_iff in Hin. destruct Hin as (i & <- & Hi). apply in_seq in Hi.
  apply getBatch_in_epoch; try assumption.
  destruct Hwf as [Hnt _]. rewrite Hnt. lia.
Qed.

(** X23.  Pausing does not change what is trained.  Let a run of [n]
    epochs be started on a live model and well-formed data with batches
    of at least one row, and let it be paused, continued and resumed in
    any way; once the pause, if one is on, is lifted, the run returns
    within [n * (2 * batches + 4) + 1] resumptions, and the numbers of
    calls of [trainOnBatch] and [evaluate] and the weights of the model
    are those of a run that was never paused. *)
Theorem pause_is_transparent (w0 : Weights E) (evs0 mid : list (Event E))
    (n : nat) (b : Z) (mo : option ModelId) (m : ModelId) (d : MNISTData E) :
  let s0 := run evs0 (initial E w0) in
  isTraining (hook s0) = false ->
  modelOf s0 mo = Some m -> dataRef (hook s0) = Some d ->
  wellFormed d -> 1 <= b -> disposed s0 m = false ->
  forallb (@pauseOrResume E) mid = true ->
  let perEpoch := Loader.epochBatches (trainImages d) (trainLabels d) b in
  let s1 := run (ETrain E n b mo :: mid) s0 in
  let s1' := if pauseTrainingRef (hook s1) then step (EPause E) s1 else s1 in
  let s2 := run (repeat (EResume E) (S (n * (2 * length perEpoch + 4)))) s1' in
  finished s2
  /\ isTraining (hook s2) = false
  /\ calls s2 = (calls s0 + n * length perEpoch)%nat
  /\ evals s2 = (evals s0 + n)%nat
  /\ heap s2 m = trainedOn E (heap s0 m) (concat (repeat perEpoch n)).
Proof.
  intros s0 Hidle Hm Hd Hwf Hb Hdis Hmid perEpoch s1 s1' s2.
  assert (HI0 : Inv s0) by (apply run_Inv, initial_Inv).
  assert (HIt : Inv (train s0 n b mo)) by (apply train_Inv; exact HI0).
  assert (Hlen : length perEpoch = Z.to_nat (Mnist.numBatches (numTrain d) b)).
  { unfold perEpoch, Loader.epochBatches. rewrite length_map, length_seq.
    destruct Hwf as [-> _]. reflexivity. }
  assert (Hs1 : s1 = run mid (train s0 n b mo))
    by (unfold s1; simpl; rewrite Hidle; reflexivity).
  destruct (@pauses_counted m d b n (calls s0) (evals s0) (heap s0 m) mid _ Hmid HIt
              (@train_counted s0 n b mo m d Hm Hd Hwf Hb Hdis)) as [HI1 C1].
  rewrite <- Hs1 in HI1, C1.
  assert (H1' : Inv s1' /\ counted m d b n (calls s0) (evals s0) (heap s0 m) s1'
                /\ pauseTrainingRef (hook s1') = false).
  { unfold s1'. destruct (pauseTrainingRef (hook s1)) eqn:P.
    - split; [apply step_Inv, HI1|]. split; [apply pause_counted, C1|].
      simpl. rewrite P. reflexivity.
    - auto. }
  destruct H1' as (HI1' & C1' & P1').
  pose proof (@counted_wakes m d b n (calls s0) (evals s0) (heap s0 m) s1' HI1' C1' P1')
    as On.
  rewrite <- Hlen in On.
  destruct (@steady_run_finishes E (n * (2 * length perEpoch + 4)) _
              (resume_Inv HI1') On) as (Fin & _ & _).
  pose proof (@resumes_counted m d b n (calls s0) (evals s0) (heap s0 m)
                (S (n * (2 * length perEpoch + 4))) _ HI1' C1') as Cn.
  change (finished s2) in Fin. fold s2 in Cn.
  destruct (counted_finished Cn Fin) as (Hfl & Hc & He & Hw).
  auto.
Qed.


End WatchFacts.

Lemma thrown_run_blocks_training_witness :
  let s := Train.run [Train.ELoadData Demo.rows5;
                      Train.EInit Demo.env 0%nat 0%nat;
                      Train.ETrain Demo.env 2 2 None;
                      Train.EInit Demo.env 1%nat 0%nat;
                      Train.EResume Demo.env; Train.EResume Demo.env]
                     (Train.initial Demo.env 0%nat) in
  Train.isTraining
    (Train.hook (Train.run [Train.ETrain Demo.env 3 2 None; Train.EResume Demo.env] s))
  = true.
Proof.
  intros s.
  assert (H : exists r, Train.task s = Some r /\ Train.pc r = Train.PThrew Demo.env)
    by (eexists; split; vm_compute; reflexivity).
  destruct H as (r & Ht & Hp).
  apply (@thrown_run_blocks_training Demo.env 0%nat _
           [Train.ETrain Demo.env 3 2 None; Train.EResume Demo.env] r Ht Hp).
Defined.

Lemma full_run_trains_every_batch_witness :
  let s0 := Train.run [Train.ELoadData Demo.rows5;
                       Train.EInit Demo.env 0%nat 0%nat]
                      (Train.initial Demo.env 0%nat) in
  let perEpoch := Loader.epochBatches [1; 2; 3; 4; 5]%nat [1; 2; 3; 4; 5]%nat 2 in
  let s2 := Train.run (Train.ETrain Demo.env 2 2 None
                         :: repeat (Train.EResume Demo.env)
                                   (2 * (2 * length perEpoch + 4)))
                      s0 in
  Train.evals s2 = (Train.evals s0 + 2)%nat.
Proof.
  intros s0 perEpoch s2.
  refine (proj1 (proj2 (proj2 (proj2
            (@full_run_trains_every_batch Demo.env 0%nat
               [Train.ELoadData Demo.rows5; Train.EInit Demo.env 0%nat 0%nat]
               2 2 None 0%nat Demo.rows5 _ _ _ _ _ _))))).
  - reflexivity.
  - reflexivity.
  - reflexivity.
  - split; reflexivity.
  - lia.
  - reflexivity.
Defined.

Lemma pause_is_transparent_witness :
  let s0 := Train.run [Train.ELoadData Demo.rows5;
                       Train.EInit Demo.env 0%nat 0%nat]
                      (Train.initial Demo.env 0%nat) in
  let mid := [Train.EResume Demo.env; Train.EPause Demo.env;
              Train.EResume Demo.env; Train.EResume Demo.env] in
  let perEpoch := Loader.epochBatches [1; 2; 3; 4; 5]%nat [1; 2; 3; 4; 5]%nat 2 in
  let s1 := Train.run (Train.ETrain Demo.env 2 2 None :: mid) s0 in
  let s1' := if Train.pauseTrainingRef (Train.hook s1)
             then Train.step (Train.EPause Demo.env) s1 else s1 in
  let s2 := Train.run (repeat (Train.EResume Demo.env)
                              (S (2 * (2 * length perEpoch + 4)))) s1' in
  Train.evals s2 = (Train.evals s0 + 2)%nat.
Proof.
  intros s0 mid perEpoch s1 s1' s2.
  refine (proj1 (proj2 (proj2 (proj2
            (@pause_is_transparent Demo.env 0%nat
               [Train.ELoadData Demo.rows5; Train.EInit Demo.env 0%nat 0%nat]
               mid 2 2 None 0%nat Demo.rows5 _ _ _ _ _ _ _))))).
  - reflexivity.
  - reflexivity.
  - reflexivity.
  - split; reflexivity.
  - lia.
  - reflexivity.
  - reflexivity.
Defined.


(* ------------------------------------------------------------------------- *)
(** ** Labels that do not match the images *)

Section LabelFacts.

Import Mnist.

Lemma tf_slice_throws_iff {A : Type} (t : list A) (s k : Z) :
  0 <= s -> 1 <= k ->
  (tf_slice t s k = None <-> Z.of_nat (length t) < s + k).
Proof.
  intros Hs Hk. unfold tf_slice.
  replace (k =? -1) with false by (symmetry; apply Z.eqb_neq; lia).
  replace (0 <=? s) with true by (symmetry; apply Z.leb_le; lia).
  replace (0 <=? k) with true by (symmetry; apply Z.leb_le; lia).
  simpl. destruct (s + k <=? Z.of_nat (length t)) eqn:Fit.
  - apply Z.leb_le in Fit. split; [discriminate | lia].
  - apply Z.leb_gt in Fit. split; [intros _; exact Fit | reflexivity].
Qed.

(** X19.  [getBatch] reads the number of examples from the images alone.
    Inside an epoch, that is for a batch that starts before the last
    image row, it throws exactly when the label rows end before the end
    of the batch; in particular it never throws when there are at least
    as many label rows as image rows, and with fewer label rows the first
    batch to throw is the one that holds the row after the last label. *)
Theorem getBatch_throws_iff {Img Lbl : Type} (imgs : list Img) (lbls : list Lbl)
    (batchSize batchIndex : Z) :
  1 <= batchSize -> 0 <= batchIndex ->
  batchIndex * batchSize < Z.of_nat (length imgs) ->
  (getBatch imgs lbls batchSize batchIndex = None
   <-> Z.of_nat (length lbls)
       < Z.min (batchIndex * batchSize + batchSize) (Z.of_nat (length imgs)))
  /\ ((length lbls < length imgs)%nat ->
      batchIndex = Z.of_nat (length lbls) / batchSize ->
      getBatch imgs lbls batchSize batchIndex = None)
  /\ (batchIndex < Z.of_nat (length lbls) / batchSize ->
      getBatch imgs lbls batchSize batchIndex <> None).
Proof.
  intros Hb Hi Hin.
  assert (S0 : startIndex (Z.of_nat (length imgs)) batchSize batchIndex
               = batchIndex * batchSize).
  { unfold startIndex, JS.rem. rewrite Z.rem_small; [reflexivity | nia]. }
  assert (Iff : getBatch imgs lbls batchSize batchIndex = None
                <-> Z.of_nat (length lbls)
                    < Z.min (batchIndex * batchSize + batchSize)
                            (Z.of_nat (length imgs))).
  { unfold getBatch, endIndex. cbv zeta. rewrite S0.
    set (s := batchIndex * batchSize) in *.
    set (e := Z.min (s + batchSize) (Z.of_nat (length imgs))).
    assert (Hs : 0 <= s) by (unfold s; nia).
    assert (He : 1 <= e - s) by (unfold e; lia).
    destruct (@tf_slice_fits Img imgs s (e - s)) as [-> _];
      [lia | lia | unfold e; lia |].
    pose proof (@tf_slice_throws_iff Lbl lbls s (e - s) Hs He) as T.
    replace (s + (e - s)) with e in T by lia.
    destruct (tf_slice lbls s (e - s)).
    - split; [discriminate|]. intros H. apply T in H. discriminate H.
    - split; [intros _; apply T; reflexivity | reflexivity]. }
  split; [exact Iff|]. split.
  - intros Hshort ->. apply Iff.
    pose proof (Z.mul_div_le (Z.of_nat (length lbls)) batchSize ltac:(lia)) as L1.
    pose proof (Z.mul_succ_div_gt (Z.of_nat (length lbls)) batchSize ltac:(lia)) as L2.
    nia.
  - intros Hlt Hnone. apply Iff in Hnone.
    pose proof (Z.mul_div_le (Z.of_nat (length lbls)) batchSize ltac:(lia)) as L1.
    nia.
Qed.

End LabelFacts.

Lemma getBatch_throws_iff_witness :
  Mnist.getBatch [1; 2; 3; 4; 5] [10; 20; 30] 2 1 = None.
Proof.
  refine (proj1 (proj2 (@getBatch_throws_iff Z Z [1; 2; 3; 4; 5] [10; 20; 30] 2 1
                          _ _ _)) _ _).
  - lia.
  - lia.
  - simpl. lia.
  - simpl. lia.
  - reflexivity.
Defined.

(* ------------------------------------------------------------------------- *)
(** ** Stopping a run, wherever it is *)

Section HaltFacts.

Import Train Watch.

Variable E : Env.

Implicit Types (s : State E) (r : Run E).

Ltac stretches :=
  unfold epochHead, epochWait, batchHead, batchWait, batchBody,
         afterBatches, afterTrain, afterValidation, finish, suspend.

Ltac cases :=
  repeat match goal with
    | |- context [if ?c then _ else _] => destruct c eqn:?
    | |- context [let '(_, _) := ?p in _] => destruct p eqn:?
    end.

Ltac refs :=
  cbn [hook withHook withTask stopTrainingRef pauseTrainingRef
       setTrainingProgress] in *.

Ltac halting_leaf :=
  unfold halting; simpl; (repeat split; try assumption);
  eexists; (split; [reflexivity|]); simpl; repeat split; try assumption; lia.

Lemma resume_halting (c x y k : nat) s :
  halting c x y k s -> halting c x y (k - 1) (resume s).
Proof.
  intros (Hs & Hx & Hy & r & Ht & Hk).
  unfold resume. rewrite Ht.
  destruct (pc r) eqn:Hp; try contradiction;
    try (destruct Hk as [Hk Hc]);
    repeat stretches; refs; rewrite ?Hs, ?andb_false_r;
    try destruct v; cases; try halting_leaf.
  unfold halting. repeat split; try assumption.
  exists r. rewrite Hp. auto.
Qed.

Lemma command_halting (c x y k : nat) (e : Event E) s :
  control e = true -> isResume e = false ->
  halting c x y k s -> halting c x y k (step e s).
Proof.
  intros Hc Hr (Hs & Hx & Hy & r & Ht & Hk).
  destruct e; try discriminate; simpl;
    unfold halting; simpl; (repeat split; try assumption);
    exists r; auto.
Qed.

Lemma run_halting (c x y : nat) (post : list (Event E)) :
  forall k s, forallb (@control E) post = true ->
    halting c x y k s ->
    halting c x y (k - resumes post) (run post s).
Proof.
  induction post as [|e post IH]; intros k s Hc Hst; simpl.
  - unfold resumes; simpl. rewrite Nat.sub_0_r. exact Hst.
  - simpl in Hc. apply andb_true_iff in Hc. destruct Hc as [He Hc].
    destruct (isResume e) eqn:Hr.
    + assert (e = EResume E) by (destruct e; try discriminate; reflexivity).
      subst e. simpl.
      replace (k - resumes (EResume E :: post))%nat
        with (k - 1 - resumes post)%nat
        by (unfold resumes; simpl; lia).
      apply IH; [exact Hc|]. apply resume_halting, Hst.
    + replace (resumes (e :: post)) with (resumes post)
        by (unfold resumes; simpl; rewrite Hr; reflexivity).
      apply IH; [exact Hc|]. apply command_halting; assumption.
Qed.

(** X20.  A stop always ends the run.  If [stopTraining] is called while
    a call of [train] is suspended, at any of its [await]s, and the call
    is then resumed three times, with pause and stop commands in between
    or not, the call has returned and [isTraining] is cleared; after the
    stop [trainOnBatch] and [evaluate] are not called again, and at most
    the epoch whose validation was already under way is still recorded. *)
Theorem stop_always_returns s r (post : list (Event E)) :
  task s = Some r -> idle s = false ->
  forallb (@control E) post = true -> (3 <= resumes post)%nat ->
  let s' := run (EStop E :: post) s in
  exists r',
    task s' = Some r' /\ pc r' = PDone E
    /\ isTraining (hook s') = false
    /\ calls s' = calls s /\ evals s' = evals s
    /\ (completedEpochs r <= completedEpochs r' <= S (completedEpochs r))%nat.
Proof.
  intros Ht Hidle Hpost Hres s'.
  assert (H0 : halting (completedEpochs r) (calls s) (evals s) 3 (stopTraining s)).
  { unfold halting, stopTraining; simpl. repeat split.
    exists r. split; [exact Ht|].
    unfold idle in Hidle. rewrite Ht in Hidle.
    destruct (pc r); try discriminate; repeat split; lia. }
  pose proof (@run_halting _ _ _ post 3%nat _ Hpost H0)
    as (Hs & Hx & Hy & r' & Ht' & Hk).
  exists r'. split; [exact Ht'|].
  replace (3 - resumes post)%nat with O in Hk by lia.
  destruct (pc r') eqn:Hp; try contradiction; try (destruct Hk as [Hk _]; lia).
  destruct Hk as [Hfl Hc]. auto.
Qed.

End HaltFacts.

Lemma stop_always_returns_witness :
  let s := Train.run ([Train.ETrain Demo.env 2 2 None]
                        ++ repeat (Train.EResume Demo.env) 4) Demo.ready5 in
  exists r',
    Train.task (Train.run (Train.EStop Demo.env
                             :: repeat (Train.EResume Demo.env) 3) s) = Some r'
    /\ Train.pc r' = Train.PDone Demo.env.
Proof.
  intros s.
  assert (H : exists r, Train.task s = Some r /\ Train.idle s = false)
    by (eexists; split; vm_compute; reflexivity).
  destruct H as (r & Ht & Hi).
  destruct (@stop_always_returns Demo.env s r (repeat (Train.EResume Demo.env) 3)
              Ht Hi eq_refl (le_n 3))
    as (r' & Ht' & Hp & _).
  exists r'. split; assumption.
Defined.

(* ------------------------------------------------------------------------- *)
(** ** The Start button *)

Section StartFacts.

Import Train Watch Panel.

Variable E : Env.

Implicit Types (s : State E) (r : Run E).

Ltac stretches :=
  unfold epochHead, epochWait, batchHead, batchWait, batchBody,
         afterBatches, afterTrain, afterValidation, finish, suspend.

Ltac cases :=
  repeat match goal with
    | |- context [if ?c then _ else _] => destruct c eqn:?
    | |- context [match Mnist.getBatch ?a ?b ?c ?d with _ => _ end] =>
        destruct (Mnist.getBatch a b c d) eqn:?
    | |- context [let '(_, _) := ?p in _] => destruct p eqn:?
    end.

Lemma resume_model s :
  model (hook (resume s)) = model (hook s)
  /\ disposed (resume s) = disposed s.
Proof.
  unfold resume. destruct (task s) as [r|]; [|split; reflexivity].
  destruct (pc r); repeat stretches; try destruct v; cases; simpl;
    split; reflexivity.
Qed.

Lemma train_model s (n : nat) (b : Z) (mo : option ModelId) :
  model (hook (train s n b mo)) = model (hook s)
  /\ disposed (train s n b mo) = disposed s.
Proof.
  unfold train.
  destruct (match mo with Some m => Some m | None => model (hook s) end);
    [|split; reflexivity].
  destruct (dataRef (hook s)); [|split; reflexivity].
  repeat stretches. cases; simpl; split; reflexivity.
Qed.

Lemma install_alive s (src : ModelSource) (m : ModelId) (w : Weights E) :
  alive (install s src m w).
Proof.
  intros m' H. unfold install in *. simpl in *. injection H as <-.
  rewrite Nat.eqb_refl. reflexivity.
Qed.

Lemma step_alive (e : Event E) s : alive s -> alive (step e s).
Proof.
  intros H. destruct e as [| |m w|[[m w]|]|[[m w]|]|d|n b mo|]; simpl;
    try exact H; try apply install_alive.
  - destruct (isTraining (hook s)); [exact H|].
    destruct (train_model s n b mo) as [Em Ed].
    intros m. rewrite Em, Ed. apply H.
  - destruct (resume_model s) as [Em Ed].
    intros m. rewrite Em, Ed. apply H.
Qed.

Lemma run_alive (evs : list (Event E)) : forall s, alive s -> alive (run evs s).
Proof.
  induction evs as [|e evs IH]; intros s H; [exact H|].
  simpl. apply IH, step_alive, H.
Qed.

Lemma resumes_model (N : nat) :
  forall s, model (hook (run (repeat (EResume E) N) s)) = model (hook s).
Proof.
  induction N as [|N IH]; intros s; [reflexivity|].
  simpl. rewrite IH. apply resume_model.
Qed.

Lemma resumes_control (N : nat) : forallb (@control E) (repeat (EResume E) N) = true.
Proof. induction N; simpl; auto. Qed.

(** What a run started by [train] on the model [m] comes to. *)
Lemma started_run_completes s (n : nat) (b : Z) (m : ModelId) (d : MNISTData E) :
  Inv s -> dataRef (hook s) = Some d -> wellFormed d -> 1 <= b ->
  disposed s m = false ->
  let N := (n * (2 * Z.to_nat (Mnist.numBatches (numTrain d) b) + 4))%nat in
  let s2 := run (repeat (EResume E) N) (train s n b (Some m)) in
  exists r2,
    task s2 = Some r2 /\ pc r2 = PDone E /\ activeModel r2 = m
    /\ histLen (history r2) n
    /\ trainedEpochs (hook s2) = (trainedEpochs (hook s) + n)%nat
    /\ isTraining (hook s2) = false
    /\ model (hook s2) = model (hook s).
Proof.
  intros HI Hd Hwf Hb Hdis N s2.
  assert (HIt : Inv (train s n b (Some m))) by (apply train_Inv; exact HI).
  destruct (@steady_run_finishes E N _ HIt) as ((r & Ht & Hp) & HIf & Hstop).
  { apply train_onward with (m := m); try assumption. reflexivity. }
  destruct (@resumes_counted E m d b n (calls s) (evals s) (heap s m) N _ HIt
              (@train_counted E s n b (Some m) m d eq_refl Hd Hwf Hb Hdis))
    as (r' & Ht' & Hm & _ & _ & _ & _ & Hpc & _).
  fold s2 in Ht, Ht', HIf, Hstop. rewrite Ht in Ht'. injection Ht' as <-.
  rewrite Hp in Hpc. destruct Hpc as [_ Hfl].
  assert (HT : tracked (trainedEpochs (hook s)) n s2).
  { apply run_tracked; [apply resumes_control|]. apply train_tracked.
    unfold ready. rewrite Hd. reflexivity. }
  destruct HT as (r' & Ht' & Hn & Htr). rewrite Ht in Ht'. injection Ht' as <-.
  rewrite Hp in Htr.
  destruct HIf as [_ HT]. rewrite Ht in HT. destruct HT as [[Hl _] Hdone].
  destruct (Hdone Hp) as [Hd'|Hd']; [congruence|].
  exists r. split; [exact Ht|]. split; [exact Hp|]. split; [exact Hm|].
  split; [rewrite <- Hn, <- Hd'; exact Hl|].
  split; [rewrite Htr, Hd', Hn; reflexivity|]. split; [exact Hfl|].
  unfold s2. rewrite resumes_model. apply train_model.
Qed.

(** X21.  The Start button.  In every reachable state in which no
    training runs and a well-formed data set is loaded, pressing Start
    with [n] epochs and batches of at least one row starts a run that,
    left alone, returns: it has trained the model the hook holds
    afterwards, which is the model that was there or, if there was none,
    a new one; its history has [n] records; [isTraining] is cleared; and
    [trainedEpochs] has grown by [n], from zero for a new model. *)
Theorem start_button_completes (w0 : Weights E) (evs0 : list (Event E))
    (fresh : ModelId) (w : Weights E) (n : nat) (b : Z) (d : MNISTData E) :
  let s0 := run evs0 (initial E w0) in
  isTraining (hook s0) = false ->
  dataRef (hook s0) = Some d -> wellFormed d -> 1 <= b ->
  let N := (n * (2 * Z.to_nat (Mnist.numBatches (numTrain d) b) + 4))%nat in
  let s2 := run (repeat (EResume E) N) (handleStartTraining s0 fresh w n b) in
  exists r2,
    task s2 = Some r2 /\ pc r2 = PDone E
    /\ activeModel r2 = startedModel s0 fresh
    /\ model (hook s2) = Some (startedModel s0 fresh)
    /\ histLen (history r2) n
    /\ trainedEpochs (hook s2)
       = (match model (hook s0) with
          | Some _ => trainedEpochs (hook s0)
          | None => O
          end + n)%nat
    /\ isTraining (hook s2) = false.
Proof.
  intros s0 Hidle Hd Hwf Hb N s2.
  assert (HI0 : Inv s0) by (apply run_Inv, initial_Inv).
  assert (HA0 : alive s0).
  { apply run_alive. intros m H. discriminate H. }
  unfold s2, N, handleStartTraining, startedModel. clear s2 N.
  destruct (model (hook s0)) as [m|] eqn:Hmodel.
  - destruct (@started_run_completes s0 n b m d HI0 Hd Hwf Hb (HA0 m Hmodel))
      as (r2 & Ht & Hp & Hm & Hl & Htr & Hfl & Hmo).
    exists r2. rewrite Hmo, Hmodel. auto 10.
  - assert (HI1 : Inv (initModel s0 fresh w)) by (apply install_Inv; exact HI0).
    assert (Hdis : disposed (initModel s0 fresh w) fresh = false).
    { apply (@install_alive s0 SrcNew fresh w). reflexivity. }
    destruct (@started_run_completes (initModel s0 fresh w) n b fresh d HI1 Hd Hwf
                Hb Hdis)
      as (r2 & Ht & Hp & Hm & Hl & Htr & Hfl & Hmo).
    exists r2. rewrite Hmo. simpl in *. auto 10.
Qed.

End StartFacts.

Lemma start_button_completes_witness :
  let s0 := Train.run [Train.ELoadData Demo.rows5] (Train.initial Demo.env 0%nat) in
  let N := (2 * (2 * Z.to_nat (Mnist.numBatches (Train.numTrain Demo.rows5) 2) + 4))%nat in
  let s2 := Train.run (repeat (Train.EResume Demo.env) N)
                      (Panel.handleStartTraining s0 7%nat 0%nat 2 2) in
  exists r2, Train.task s2 = Some r2 /\ Train.pc r2 = Train.PDone Demo.env.
Proof.
  intros s0 N s2.
  destruct (@start_button_completes Demo.env 0%nat [Train.ELoadData Demo.rows5]
              7%nat 0%nat 2 2 Demo.rows5)
    as (r2 & Ht & Hp & _).
  - reflexivity.
  - reflexivity.
  - split; reflexivity.
  - lia.
  - exists r2. split; assumption.
Defined.

(* ------------------------------------------------------------------------- *)
(** ** The strip of the output layer *)

Section StripFacts.

Import Cam Viz App.
Local Open Scope Q_scope.

(** X22.  The strip FeatureMapViewer draws for the output layer has one
    pixel for every class.  When the probabilities are not all equal,
    the pixel of the predicted class has the colour of the greatest
    value, (159, 255, 107); when they are all equal, every pixel has the
    colour of the least value, (68, 0, 84). *)
Theorem output_strip_shows_prediction (probsArray : list Q) :
  probsArray <> [] ->
  let width := length probsArray in
  exists bytes,
    unitsCanvas probsArray = (width, 1%nat, Some bytes)
    /\ ((exists p q, In p probsArray /\ In q probsArray /\ p < q) ->
        pixelAt bytes width 0 (Z.to_nat (predictedClass probsArray))
        = [159; 255; 107; 255]%Z)
    /\ ((forall p q, In p probsArray -> In q probsArray -> p == q) ->
        forall x, (x < width)%nat ->
          pixelAt bytes width 0 x = [68; 0; 84; 255]%Z).
Proof.
  intros Hne. cbv zeta.
  assert (Sh : hasShape2 [probsArray] 1 (length probsArray))
    by (split; [reflexivity | repeat constructor]).
  assert (Hc : concat [probsArray] = probsArray) by apply app_nil_r.
  destruct probsArray as [|a rest] eqn:Hp; [contradiction|]. rewrite <- Hp in *.
  assert (Hin : In a probsArray) by (rewrite Hp; left; reflexivity).
  assert (Hpos : (1 <= length probsArray)%nat) by (rewrite Hp; simpl; lia).
  destruct (@Math_min_max_defined probsArray a Hin) as (mn & mx & Hmn & Hmx).
  destruct (Math_max_spec _ Hmx) as [Hmxin Hub].
  destruct (Math_min_spec _ Hmn) as [Hmnin Hlb].
  exists (canvasBytes (scaleTo255 [probsArray]) Viridis).
  assert (Pix : forall x, (x < length probsArray)%nat ->
            pixelAt (canvasBytes (scaleTo255 [probsArray]) Viridis)
                    (length probsArray) 0 x
            = [red (viridisColor
                      (inject_Z (JS.Math_round
                         ((nth x probsArray 0 - mn) / range mx mn * 255)) / 255));
               green (viridisColor
                      (inject_Z (JS.Math_round
                         ((nth x probsArray 0 - mn) / range mx mn * 255)) / 255));
               blue (viridisColor
                      (inject_Z (JS.Math_round
                         ((nth x probsArray 0 - mn) / range mx mn * 255)) / 255));
               255%Z]).
  { intros x Hx.
    assert (Hmn' : Math_min (concat [probsArray]) = Some mn) by (rewrite Hc; exact Hmn).
    assert (Hmx' : Math_max (concat [probsArray]) = Some mx) by (rewrite Hc; exact Hmx).
    destruct (@viewer_pixel [probsArray] 1 (length probsArray) mn mx 0 x
                Sh Hmn' Hmx' (le_n 1) Hx) as (_ & _ & P).
    exact P. }
  split; [|split].
  - destruct (scaleTo255_shape [probsArray]) as [SL SW].
    unfold unitsCanvas.
    rewrite (surjective_pairing (drawToCanvas _ _)).
    rewrite drawToCanvas_drawn by (rewrite ?SL, ?SW; simpl; lia).
    unfold drawToCanvas. cbv zeta. simpl fst.
    rewrite SL, SW. reflexivity.
  - intros (p & q & Hp1 & Hq1 & Hlt).
    assert (Lt : mn < mx).
    { apply Qle_lt_trans with p; [apply Hlb, Hp1|].
      apply Qlt_le_trans with q; [exact Hlt | apply Hub, Hq1]. }
    unfold predictedClass. rewrite Hmx.
    destruct (@indexOfFrom_found mx probsArray 0%Z) as (n & v & E & Hn & Hv & _).
    { exists mx. split; [exact Hmxin | reflexivity]. }
    unfold indexOf. rewrite E. simpl Z.add. rewrite Nat2Z.id.
    assert (Hlen : (n < length probsArray)%nat)
      by (apply nth_error_Some; rewrite Hn; discriminate).
    rewrite (Pix n Hlen). apply viridis_of_full.
    rewrite (nth_error_nth _ _ 0 Hn), Hv, (range_nondegenerate Lt).
    field. lra.
  - intros Flat x Hx. rewrite (Pix x Hx). apply viridis_of_zero.
    assert (E : nth x probsArray 0 == mn).
    { apply Flat; [apply nth_In; exact Hx | exact Hmnin]. }
    rewrite E. unfold Qdiv. ring.
Qed.

End StripFacts.

Lemma output_strip_shows_prediction_witness :
  exists bytes,
    Viz.unitsCanvas [1 # 10; 7 # 10; 2 # 10]%Q = (3%nat, 1%nat, Some bytes)
    /\ Viz.pixelAt bytes 3 0 (Z.to_nat (App.predictedClass [1 # 10; 7 # 10; 2 # 10]%Q))
       = [159; 255; 107; 255]%Z.
Proof.
  destruct (@output_strip_shows_prediction [1 # 10; 7 # 10; 2 # 10]%Q)
    as (bytes & Hc & Hmax & _).
  - discriminate.
  - exists bytes. split; [exact Hc|]. apply Hmax.
    exists (1 # 10)%Q, (7 # 10)%Q. split; [left; reflexivity|].
    split; [right; left; reflexivity|]. reflexivity.
Defined.

(* ------------------------------------------------------------------------- *)
(** ** Facts about the generated digits *)

Section SampleFacts.

Import Viz Sample.
Local Open Scope Q_scope.

Lemma updAt_length {A : Type} (f : A -> A) (l : list A) :
  forall i, length (updAt i f l) = length l.
Proof.
  induction l as [|a r IH]; intros [|i]; simpl; try reflexivity.
  rewrite IH. reflexivity.
Qed.

Lemma nth_updAt {A : Type} (f : A -> A) (d : A) (l : list A) :
  forall i j,
    nth j (updAt i f l) d
    = if (Nat.eqb j i && Nat.ltb j (length l))%bool then f (nth j l d)
      else nth j l d.
Proof.
  induction l as [|a r IH]; intros i j.
  - destruct i, j; simpl; rewrite ?andb_false_r; reflexivity.
  - destruct i as [|i], j as [|j]; simpl; try reflexivity.
    rewrite IH. reflexivity.
Qed.

Lemma Forall_updAt {A : Type} (P : A -> Prop) (f : A -> A) (l : list A) :
  Forall P l -> (forall a, P a -> P (f a)) ->
  forall i, Forall P (updAt i f l).
Proof.
  intros Hl Hf. induction Hl as [|a r Ha Hr IH]; intros [|i]; simpl;
    constructor; auto.
Qed.

Lemma at2_setCell (image : list (list Q)) (y x y' x' : nat) (f : Q -> Q) :
  (y < length image)%nat -> (x < length (nth y image []))%nat ->
  at2 (setCell image y x f) y' x'
  = if (Nat.eqb y' y && Nat.eqb x' x)%bool then f (at2 image y x)
    else at2 image y' x'.
Proof.
  intros Hy Hx. unfold at2, setCell. rewrite nth_updAt.
  destruct (Nat.eqb_spec y' y) as [->|Ny]; simpl; [|reflexivity].
  replace (Nat.ltb y (length image)) with true
    by (symmetry; apply Nat.ltb_lt; exact Hy).
  rewrite nth_updAt.
  destruct (Nat.eqb_spec x' x) as [->|Nx]; simpl; [|reflexivity].
  replace (Nat.ltb x (length (nth y image []))) with true
    by (symmetry; apply Nat.ltb_lt; exact Hx).
  reflexivity.
Qed.

Lemma setCell_unit (image : list (list Q)) (y x : nat) (f : Q -> Q) :
  unitImage image -> (forall v, 0 <= v <= 1 -> 0 <= f v <= 1) ->
  unitImage (setCell image y x f).
Proof.
  intros [L R] Hf. unfold setCell. split; [rewrite updAt_length; exact L|].
  apply Forall_updAt; [exact R|]. intros row [Lr Cells].
  split; [rewrite updAt_length; exact Lr|].
  apply Forall_updAt; assumption.
Qed.

Lemma unitImage_row (image : list (list Q)) (y : nat) :
  unitImage image -> (y < 28)%nat -> length (nth y image []) = 28%nat.
Proof.
  intros [L R] Hy. rewrite Forall_forall in R. apply R, nth_In. lia.
Qed.

(** One write keeps the image a 28 by 28 image of values between 0 and 1,
    lowers no cell, and changes the cell [(y, x)] only. *)
Lemma setCell_spec (image : list (list Q)) (y x : nat) (f : Q -> Q) :
  unitImage image -> (y < 28)%nat -> (x < 28)%nat ->
  (forall v, 0 <= v <= 1 -> 0 <= f v <= 1 /\ v <= f v) ->
  unitImage (setCell image y x f)
  /\ at2 (setCell image y x f) y x = f (at2 image y x)
  /\ (forall r c, at2 image r c <= at2 (setCell image y x f) r c)
  /\ (forall r c, r <> y \/ c <> x ->
        at2 (setCell image y x f) r c = at2 image r c).
Proof.
  intros Hu Hy Hx Hf.
  assert (Ly : (y < length image)%nat) by (destruct Hu as [-> _]; exact Hy).
  assert (Lx : (x < length (nth y image []))%nat)
    by (rewrite (unitImage_row Hu Hy); exact Hx).
  split; [apply setCell_unit; [exact Hu | intros v Hv; apply Hf, Hv]|].
  split; [|split].
  - rewrite at2_setCell by assumption. rewrite !Nat.eqb_refl. reflexivity.
  - intros r c. rewrite at2_setCell by assumption.
    destruct (Nat.eqb_spec r y) as [->|Nr]; simpl; [|apply Qle_refl].
    destruct (Nat.eqb_spec c x) as [->|Nc]; simpl; [|apply Qle_refl].
    apply Hf. apply unitImage_cell; assumption.
  - intros r c Hne. rewrite at2_setCell by assumption.
    destruct (Nat.eqb_spec r y) as [->|Nr]; simpl; [|reflexivity].
    destruct (Nat.eqb_spec c x) as [->|Nc]; simpl; [|reflexivity].
    destruct Hne as [N|N]; contradiction.
Qed.

Lemma one_is_unit (v : Q) : 0 <= v <= 1 -> 0 <= 1 <= 1 /\ v <= 1.
Proof. intros [L U]. repeat split; try discriminate. exact U. Qed.

Lemma thicken_is_unit (v : Q) :
  0 <= v <= 1 -> 0 <= Qmax v 0.7 <= 1 /\ v <= Qmax v 0.7.
Proof.
  intros [L U]. split; [split|].
  - apply Qle_trans with v; [exact L | apply Q.le_max_l].
  - apply Q.max_lub; [exact U | discriminate].
  - apply Q.le_max_l.
Qed.

(** One step of the loop. *)
Lemma plot_spec (image : list (list Q)) (x y : Z) :
  unitImage image ->
  unitImage (plot image x y)
  /\ (forall r c, at2 image r c <= at2 (plot image x y) r c)
  /\ ((0 <= x < 28)%Z -> (0 <= y < 28)%Z ->
      at2 (plot image x y) (Z.to_nat y) (Z.to_nat x) = 1)
  /\ (forall r c,
        (Z.of_nat c <> x \/ Z.of_nat r < y - 1 \/ y + 1 < Z.of_nat r)%Z ->
        at2 (plot image x y) r c = at2 image r c).
Proof.
  intros Hu. unfold plot.
  destruct ((0 <=? x) && (x <? 28) && (0 <=? y) && (y <? 28))%Z eqn:In.
  2:{ split; [exact Hu|]. split; [intros; apply Qle_refl|].
      split; [|reflexivity]. intros Hx Hy.
      assert (T : ((0 <=? x) && (x <? 28) && (0 <=? y) && (y <? 28))%Z = true).
      { rewrite !andb_true_iff, !Z.leb_le, !Z.ltb_lt. lia. }
      rewrite T in In. discriminate In. }
  rewrite !andb_true_iff, !Z.leb_le, !Z.ltb_lt in In.
  destruct In as [[[X0 X1] Y0] Y1]. cbv zeta.
  destruct (@setCell_spec image (Z.to_nat y) (Z.to_nat x) (fun _ => 1) Hu
              ltac:(lia) ltac:(lia) one_is_unit) as (U1 & S1 & M1 & F1).
  set (image1 := setCell image (Z.to_nat y) (Z.to_nat x) (fun _ => 1)) in *.
  assert (Step2 :
            let image2 :=
              if (0 <? y)%Z
              then setCell image1 (Z.to_nat (y - 1)) (Z.to_nat x)
                           (fun v => Qmax v 0.7)
              else image1 in
            unitImage image2
            /\ at2 image2 (Z.to_nat y) (Z.to_nat x) = 1
            /\ (forall r c, at2 image r c <= at2 image2 r c)
            /\ (forall r c,
                  (Z.of_nat c <> x \/ Z.of_nat r < y - 1 \/ y + 1 < Z.of_nat r)%Z ->
                  at2 image2 r c = at2 image r c)).
  { cbv zeta. destruct (0 <? y)%Z eqn:Up.
    - apply Z.ltb_lt in Up.
      destruct (@setCell_spec image1 (Z.to_nat (y - 1)) (Z.to_nat x)
                  (fun v => Qmax v 0.7) U1 ltac:(lia) ltac:(lia) thicken_is_unit)
        as (U2 & _ & M2 & F2).
      split; [exact U2|]. split; [|split].
      + rewrite F2 by (left; lia). exact S1.
      + intros r c. apply Qle_trans with (at2 image1 r c); [apply M1 | apply M2].
      + intros r c Far. rewrite F2 by lia. apply F1. lia.
    - split; [exact U1|]. split; [exact S1|]. split; [exact M1|].
      intros r c Far. apply F1. lia. }
  cbv zeta in Step2.
  set (image2 := if (0 <? y)%Z
                 then setCell image1 (Z.to_nat (y - 1)) (Z.to_nat x)
                              (fun v => Qmax v 0.7)
                 else image1) in *.
  destruct Step2 as (U2 & S2 & M2 & F2).
  destruct (y <? 27)%Z eqn:Down.
  - apply Z.ltb_lt in Down.
    destruct (@setCell_spec image2 (Z.to_nat (y + 1)) (Z.to_nat x)
                (fun v => Qmax v 0.7) U2 ltac:(lia) ltac:(lia) thicken_is_unit)
      as (U3 & _ & M3 & F3).
    split; [exact U3|]. split; [|split].
    + intros r c. apply Qle_trans with (at2 image2 r c); [apply M2 | apply M3].
    + intros _ _. rewrite F3 by (left; lia). exact S2.
    + intros r c Far. rewrite F3 by lia. apply F2. exact Far.
  - split; [exact U2|]. split; [exact M2|]. split; [intros _ _; exact S2 | exact F2].
Qed.

Lemma round_of_integer (z : Z) : JS.Math_round (inject_Z z) = z.
Proof.
  assert (L : (z <= JS.Math_round (inject_Z z))%Z) by (apply round_lower; lra).
  assert (U : (JS.Math_round (inject_Z z) <= z)%Z) by (apply round_upper; lra).
  lia.
Qed.

Lemma round_between (a b : Z) (q : Q) :
  inject_Z a <= q <= inject_Z b -> (a <= JS.Math_round q <= b)%Z.
Proof.
  intros [L U]. split; [apply round_lower; exact L | apply round_upper; lra].
Qed.

Lemma blend_between (a b : Z) (t : Q) :
  0 <= t <= 1 ->
  inject_Z (Z.min a b) <= inject_Z a + inject_Z (b - a) * t <= inject_Z (Z.max a b).
Proof.
  intros [L U]. unfold Z.sub. rewrite inject_Z_plus, inject_Z_opp.
  destruct (Z.le_ge_cases a b) as [Le|Ge].
  - rewrite Z.min_l, Z.max_r by lia. rewrite Zle_Qle in Le. split; nra.
  - rewrite Z.min_r, Z.max_l by lia. rewrite Zle_Qle in Ge. split; nra.
Qed.

Lemma step_fraction (steps i : Z) :
  (0 <= i <= steps)%Z ->
  0 <= (if (steps =? 0)%Z then 0 else inject_Z i / inject_Z steps) <= 1.
Proof.
  intros [L U]. destruct (Z.eqb_spec steps 0) as [E|N]; [split; discriminate|].
  assert (P : 0 < inject_Z steps).
  { change 0 with (inject_Z 0). rewrite <- Zlt_Qlt. lia. }
  rewrite Zle_Qle in L, U. change (inject_Z 0) with 0 in L. split.
  - apply Qle_shift_div_l; [exact P | lra].
  - apply Qle_shift_div_r; [exact P | lra].
Qed.

Lemma linePoint_inside (x1 y1 x2 y2 steps i : Z) :
  (0 <= i <= steps)%Z ->
  (Z.min x1 x2 <= fst (linePoint x1 y1 x2 y2 steps i) <= Z.max x1 x2)%Z
  /\ (Z.min y1 y2 <= snd (linePoint x1 y1 x2 y2 steps i) <= Z.max y1 y2)%Z.
Proof.
  intros Hi. unfold linePoint. cbv zeta. simpl.
  pose proof (step_fraction Hi) as T.
  split; apply round_between, blend_between, T.
Qed.

Lemma linePoint_first (x1 y1 x2 y2 steps : Z) :
  linePoint x1 y1 x2 y2 steps 0 = (x1, y1).
Proof.
  unfold linePoint. cbv zeta.
  assert (T : (if (steps =? 0)%Z then 0 else inject_Z 0 / inject_Z steps) == 0).
  { destruct (steps =? 0)%Z; [reflexivity|]. unfold Qdiv. ring. }
  f_equal.
  - rewrite (@Math_round_comp _ (inject_Z x1)) by (rewrite T; ring).
    apply round_of_integer.
  - rewrite (@Math_round_comp _ (inject_Z y1)) by (rewrite T; ring).
    apply round_of_integer.
Qed.

Lemma linePoint_last (x1 y1 x2 y2 : Z) :
  linePoint x1 y1 x2 y2 (Z.max (Z.abs (x2 - x1)) (Z.abs (y2 - y1)))
            (Z.max (Z.abs (x2 - x1)) (Z.abs (y2 - y1)))
  = (x2, y2).
Proof.
  unfold linePoint. cbv zeta.
  set (steps := Z.max (Z.abs (x2 - x1)) (Z.abs (y2 - y1))).
  destruct (Z.eqb_spec steps 0) as [E|N].
  - assert (x2 = x1 /\ y2 = y1) as [-> ->] by (unfold steps in E; lia).
    f_equal.
    + rewrite (@Math_round_comp _ (inject_Z x1)) by ring. apply round_of_integer.
    + rewrite (@Math_round_comp _ (inject_Z y1)) by ring. apply round_of_integer.
  - assert (P : ~ inject_Z steps == 0).
    { intros H. change 0 with (inject_Z 0) in H.
      apply (proj1 (inject_Z_injective steps 0)) in H. contradiction. }
    f_equal.
    + rewrite (@Math_round_comp _ (inject_Z x2)).
      * apply round_of_integer.
      * unfold Z.sub. rewrite inject_Z_plus, inject_Z_opp. field. exact P.
    + rewrite (@Math_round_comp _ (inject_Z y2)).
      * apply round_of_integer.
      * unfold Z.sub. rewrite inject_Z_plus, inject_Z_opp. field. exact P.
Qed.

Lemma steps_spec (image : list (list Q)) (x1 y1 x2 y2 steps : Z) (l : list nat) :
  forall im,
    unitImage im ->
    Forall (fun i => (0 <= Z.of_nat i <= steps)%Z) l ->
    let out :=
      fold_left
        (fun im i =>
           let '(x, y) := linePoint x1 y1 x2 y2 steps (Z.of_nat i) in plot im x y)
        l im in
    unitImage out
    /\ (forall r c, at2 im r c <= at2 out r c)
    /\ (forall r c,
          (Z.of_nat c < Z.min x1 x2 \/ Z.max x1 x2 < Z.of_nat c
           \/ Z.of_nat r < Z.min y1 y2 - 1 \/ Z.max y1 y2 + 1 < Z.of_nat r)%Z ->
          at2 out r c = at2 im r c).
Proof.
  induction l as [|i l IH]; intros im Hu Hl; cbn [fold_left]; cbv zeta.
  - split; [exact Hu|]. split; [intros; apply Qle_refl | reflexivity].
  - inversion Hl as [|? ? Hi Hl']; subst.
    pose proof (@linePoint_inside x1 y1 x2 y2 steps (Z.of_nat i) Hi) as [Bx By].
    destruct (linePoint x1 y1 x2 y2 steps (Z.of_nat i)) as [x y] eqn:Pt.
    simpl in Bx, By.
    destruct (plot_spec x y Hu) as (U1 & M1 & _ & F1).
    destruct (IH _ U1 Hl') as (U2 & M2 & F2).
    split; [exact U2|]. split.
    + intros r c. apply Qle_trans with (at2 (plot im x y) r c); [apply M1 | apply M2].
    + intros r c Far. rewrite F2 by exact Far. apply F1. lia.
Qed.

(** X24.  [drawLine] on a 28 by 28 image with values between 0 and 1:
    the image keeps its shape and its range of values, no cell gets
    darker, an end point that lies inside the image has the value 1
    afterwards, and the cells outside the columns between the two end
    points, or more than one row above or below the rows between them,
    are left as they were. *)
Theorem drawLine_marks_the_line (image : list (list Q)) (x1 y1 x2 y2 : Z) :
  unitImage image ->
  let out := drawLine image x1 y1 x2 y2 in
  unitImage out
  /\ (forall r c, at2 image r c <= at2 out r c)
  /\ ((0 <= x1 < 28)%Z -> (0 <= y1 < 28)%Z ->
      at2 out (Z.to_nat y1) (Z.to_nat x1) == 1)
  /\ ((0 <= x2 < 28)%Z -> (0 <= y2 < 28)%Z ->
      at2 out (Z.to_nat y2) (Z.to_nat x2) == 1)
  /\ (forall r c,
        (Z.of_nat c < Z.min x1 x2 \/ Z.max x1 x2 < Z.of_nat c
         \/ Z.of_nat r < Z.min y1 y2 - 1 \/ Z.max y1 y2 + 1 < Z.of_nat r)%Z ->
        at2 out r c = at2 image r c).
Proof.
  intros Hu out. unfold drawLine in out.
  set (steps := Z.max (Z.abs (x2 - x1)) (Z.abs (y2 - y1))) in *.
  set (step := fun (im : list (list Q)) (i : nat) =>
                 let '(x, y) := linePoint x1 y1 x2 y2 steps (Z.of_nat i) in
                 plot im x y) in *.
  assert (Hs : (0 <= steps)%Z) by (unfold steps; lia).
  assert (All : Forall (fun i => (0 <= Z.of_nat i <= steps)%Z)
                       (seq 0 (Z.to_nat steps + 1))).
  { apply Forall_forall. intros i Hi. apply in_seq in Hi. lia. }
  destruct (@steps_spec image x1 y1 x2 y2 steps _ image Hu All) as (U & M & F).
  fold step in U, M, F. fold out in U, M, F.
  split; [exact U|]. split; [exact M|]. split; [|split; [|exact F]].
  - intros Hx Hy.
    assert (Eo : out = fold_left step (seq 1 (Z.to_nat steps))
                                 (plot image x1 y1)).
    { unfold out. rewrite Nat.add_1_r. simpl. unfold step at 2.
      rewrite linePoint_first. reflexivity. }
    destruct (plot_spec x1 y1 Hu) as (U1 & _ & S1 & _).
    assert (All1 : Forall (fun i => (0 <= Z.of_nat i <= steps)%Z)
                          (seq 1 (Z.to_nat steps))).
    { apply Forall_forall. intros i Hi. apply in_seq in Hi. lia. }
    destruct (@steps_spec image x1 y1 x2 y2 steps _ _ U1 All1) as (_ & M1 & _).
    fold step in M1. rewrite <- Eo in M1.
    pose proof (M1 (Z.to_nat y1) (Z.to_nat x1)) as Ge.
    rewrite (S1 Hx Hy) in Ge.
    pose proof (@unitImage_cell out (Z.to_nat y1) (Z.to_nat x1) U
                  ltac:(lia) ltac:(lia)) as [_ Le].
    apply Qle_antisym; assumption.
  - intros Hx Hy.
    assert (Eo : out = plot (fold_left step (seq 0 (Z.to_nat steps)) image) x2 y2).
    { unfold out. rewrite Nat.add_1_r, seq_S, fold_left_app. simpl.
      unfold step at 1. rewrite Z2Nat.id by exact Hs.
      unfold steps. rewrite linePoint_last. reflexivity. }
    assert (All0 : Forall (fun i => (0 <= Z.of_nat i <= steps)%Z)
                          (seq 0 (Z.to_nat steps))).
    { apply Forall_forall. intros i Hi. apply in_seq in Hi. lia. }
    destruct (@steps_spec image x1 y1 x2 y2 steps _ image Hu All0) as (U0 & _ & _).
    fold step in U0.
    destruct (plot_spec x2 y2 U0) as (_ & _ & S2 & _).
    rewrite Eo, (S2 Hx Hy). reflexivity.
Qed.

End SampleFacts.

Lemma drawLine_marks_the_line_witness :
  Viz.unitImage (Sample.drawLine (repeat (repeat 0%Q 28) 28) 14 4 14 24).
Proof.
  apply (@drawLine_marks_the_line (repeat (repeat 0%Q 28) 28) 14 4 14 24).
  split; [reflexivity|]. apply Forall_forall. intros row Hin.
  apply repeat_spec in Hin. subst row. split; [reflexivity|].
  apply Forall_forall. intros v Hv. apply repeat_spec in Hv. subst v.
  split; discriminate.
Defined.
